(** * slurmdbd RPC manager: admission control, framing and teardown

    A shallow embedding of [src/slurmdbd/rpc_mgr.c].  The shared variables
    of the file ([master_thread_id], [slave_thread_id], [thread_count], the
    condition variable and the shutdown flag) form one record that every
    function threads explicitly; system calls and the external collaborators
    ([poll], [read], [proc_req], [slurm_persist_send_msg], [pthread_create],
    [accept]) are answered by an oracle that the functions consume in program
    order, and every observable action is appended to a trace of events. *)

From Stdlib Require Import ZArith List Bool Lia.
From Stdlib Require Import Strings.Byte.
From stdpp Require Import base list strings.

Import ListNotations.
Local Open Scope Z_scope.

(** ** Constants of the source file *)

Definition MAX_THREAD_COUNT : Z := 100.
Definition MAX_MSG_SIZE : Z := 16 * 1024 * 1024.

(** Values of the system headers (Linux): signal number, [poll] bits and
    [errno] codes. *)
Definition SIGUSR1 : Z := 10.
Definition POLLIN : Z := 1.
Definition POLLERR : Z := 8.
Definition POLLHUP : Z := 16.
Definition POLLNVAL : Z := 32.
Definition EINTR : Z := 4.
Definition EAGAIN : Z := 11.

(** ** Observable actions *)

Inductive log_level := LFatal | LError | LVerbose | LDebug | LDebug2 | LDebug3.

Inductive mutex := thread_count_lock | registered_lock.

(** Result of one [poll] call as the caller sees it: the return code, the
    returned event mask, [errno], and the value of [shutdown_time] that the
    caller reads right after [poll] has returned. *)
Record pollres := PollRes {
  p_rc : Z;
  p_revents : Z;
  p_errno : Z;
  p_shutdown : Z
}.

(** A response buffer: [NULL], one packed by [proc_req], or the return-code
    message of [slurm_persist_make_rc_msg]. *)
Inductive Buf :=
| BufNull
| BufReply (bytes : list byte)
| BufRcMsg (rc : Z) (comment : string).

Inductive event :=
| EvLog (lvl : log_level) (msg : string)
| EvMutexLock (m : mutex)
| EvMutexUnlock (m : mutex)
| EvCondWait
| EvCondBroadcast
| EvKill (tid : Z) (sig : Z)
| EvUsleep (usec : Z)
| EvAccept (ret : Z)
| EvSetNonblocking (fd : Z)
| EvPthreadCreate (slot : Z) (ret : Z)
| EvClose (fd : Z)
| EvPoll (fd : Z) (res : pollres)
| EvRead (fd : Z) (count : Z) (ret : Z)
| EvXmalloc (size : Z)
| EvProcReq (msg : list byte) (msg_size : Z) (first : bool) (rc : Z)
| EvMakeRcMsg (rc : Z) (comment : string)
| EvSend (buffer : Buf) (ret : Z)
| EvFreeBuf
| EvXfreeMsg
| EvFiniCtld (db_conn : Z) (control_port : Z)
| EvListDelete (conn_ptr : Z)
| EvCommit (db_conn : Z) (commit : Z)
| EvCloseConnection (db_conn : Z)
| EvMembersDestroy
| EvXfreeTres
| EvXfreeConn (conn_ptr : Z).

Definition trace := list event.

(** ** The shared state of the admission controller *)

Module Admission.

(** The file's static variables.  A [pthread_t] is an integer, 0 standing
    for "no thread" as in the source. *)
Record rpc_state := RpcState {
  master_thread_id : Z;
  slave_thread_id : list Z;          (* pthread_t slave_thread_id[MAX_THREAD_COUNT] *)
  thread_count : Z;
  shutdown_time : Z;
  last_print_time : Z;               (* the static local of _wait_for_server_thread *)
  cond_waiters : list Z              (* threads blocked on thread_count_cond *)
}.

Definition set_master (v : Z) (st : rpc_state) : rpc_state :=
  RpcState v (slave_thread_id st) (thread_count st) (shutdown_time st)
           (last_print_time st) (cond_waiters st).
Definition set_slaves (v : list Z) (st : rpc_state) : rpc_state :=
  RpcState (master_thread_id st) v (thread_count st) (shutdown_time st)
           (last_print_time st) (cond_waiters st).
Definition set_count (v : Z) (st : rpc_state) : rpc_state :=
  RpcState (master_thread_id st) (slave_thread_id st) v (shutdown_time st)
           (last_print_time st) (cond_waiters st).
Definition set_shutdown (v : Z) (st : rpc_state) : rpc_state :=
  RpcState (master_thread_id st) (slave_thread_id st) (thread_count st) v
           (last_print_time st) (cond_waiters st).
Definition set_last_print (v : Z) (st : rpc_state) : rpc_state :=
  RpcState (master_thread_id st) (slave_thread_id st) (thread_count st)
           (shutdown_time st) v (cond_waiters st).
Definition set_waiters (v : list Z) (st : rpc_state) : rpc_state :=
  RpcState (master_thread_id st) (slave_thread_id st) (thread_count st)
           (shutdown_time st) (last_print_time st) v.

(** The static initialisers: no manager, an all-zero slot table, count 0. *)
Definition init_state : rpc_state :=
  RpcState 0 (replicate (Z.to_nat MAX_THREAD_COUNT) 0) 0 0 0 [].

(** [slave_thread_id[i]] *)
Definition slot (tab : list Z) (i : nat) : Z := default 0 (tab !! i).

(** The scan of [_wait_for_server_thread]:
    [for (i=0; i<MAX_THREAD_COUNT; i++) { if (slave_thread_id[i]) continue;
    rc = i; break; }], with [n] the number of indices still to visit and
    [-1] the initial value of [rc]. *)
Fixpoint find_free_slot (tab : list Z) (i n : nat) : Z :=
  match n with
  | O => -1
  | S n' =>
      if negb (slot tab i =? 0) then find_free_slot tab (S i) n'
      else Z.of_nat i
  end.

(** How a pass of the admission loop ends: by returning [rc], in [fatal],
    or in [slurm_cond_wait]. *)
Inductive wait_outcome :=
| WaitReturn (rc : Z) (st : rpc_state) (tr : trace)
| WaitFatal (st : rpc_state) (tr : trace)
| WaitBlocked (print_it : bool) (st : rpc_state) (tr : trace).

(** One pass through the [while (1)] body of [_wait_for_server_thread],
    entered with [thread_count_lock] held (after [slurm_mutex_lock], or after
    [slurm_cond_wait] has returned).  [self] is the calling thread and [now]
    the value of [time(NULL)]. *)
Definition wait_for_server_thread_pass
    (self now : Z) (print_it : bool) (st : rpc_state) : wait_outcome :=
  if negb (shutdown_time st =? 0) then
    WaitReturn (-1) st [EvMutexUnlock thread_count_lock]
  else if thread_count st <? MAX_THREAD_COUNT then
    let st1 := set_count (thread_count st + 1) st in
    let rc := find_free_slot (slave_thread_id st1) 0 (Z.to_nat MAX_THREAD_COUNT) in
    if rc =? -1 then
      WaitFatal st1 [EvLog LFatal "No free slave_thread_id"]
    else
      WaitReturn rc st1 [EvMutexUnlock thread_count_lock]
  else
    let '(st1, tr) :=
      if print_it then
        if now - last_print_time st >? 2 then
          (set_last_print now st,
           [EvLog LVerbose "thread_count over limit, waiting"])
        else (st, [])
      else (st, []) in
    WaitBlocked false (set_waiters (self :: cond_waiters st1) st1)
                (tr ++ [EvCondWait]).

(** [_wait_for_server_thread]: the pass is repeated each time the thread is
    woken from [slurm_cond_wait]; [wakeups] lists, for each wake-up, the
    clock and the shared state the thread finds (other threads ran in
    between).  [None] stands for a thread that stays blocked. *)
Fixpoint wait_loop (self : Z) (print_it : bool) (now : Z) (st : rpc_state)
    (wakeups : list (Z * rpc_state)) (acc : trace) : option wait_outcome :=
  match wait_for_server_thread_pass self now print_it st with
  | WaitReturn rc st' tr => Some (WaitReturn rc st' (acc ++ tr))
  | WaitFatal st' tr => Some (WaitFatal st' (acc ++ tr))
  | WaitBlocked p st' tr =>
      match wakeups with
      | [] => None
      | (now', st'') :: rest => wait_loop self p now' st'' rest (acc ++ tr)
      end
  end.

Definition _wait_for_server_thread (self now : Z) (st : rpc_state)
    (wakeups : list (Z * rpc_state)) : option wait_outcome :=
  wait_loop self true now st wakeups [EvMutexLock thread_count_lock].

(** The scan of [_free_server_thread]: clear the first entry equal to
    [my_tid]; the boolean tells whether one was found ([i < MAX_THREAD_COUNT]
    after the loop). *)
Fixpoint clear_slot (my_tid : Z) (tab : list Z) (i n : nat) : list Z * bool :=
  match n with
  | O => (tab, false)
  | S n' =>
      if negb (slot tab i =? my_tid) then clear_slot my_tid tab (S i) n'
      else (<[i := 0]> tab, true)
  end.

(** [if (thread_count > 0) thread_count--; else error("thread_count
    underflow");] *)
Definition count_down (st : rpc_state) : rpc_state * trace :=
  if thread_count st >? 0 then (set_count (thread_count st - 1) st, [])
  else (st, [EvLog LError "thread_count underflow"]).

(** [if (my_tid) { ... }]: the caller's slot is looked for and cleared; a
    caller with no thread of its own passes 0 and leaves the table alone. *)
Definition forget_thread (my_tid : Z) (st : rpc_state) : rpc_state * trace :=
  if negb (my_tid =? 0) then
    let r := clear_slot my_tid (slave_thread_id st) 0 (Z.to_nat MAX_THREAD_COUNT) in
    (set_slaves (fst r) st,
     if snd r then [] else [EvLog LError "Could not find slave_thread_id"])
  else (st, []).

(** [_free_server_thread(my_tid)], under [thread_count_lock]; the broadcast
    leaves nobody waiting on the condition variable. *)
Definition _free_server_thread (my_tid : Z) (st : rpc_state) : rpc_state * trace :=
  let r1 := count_down st in
  let r2 := forget_thread my_tid (fst r1) in
  (set_waiters [] (fst r2),
   [EvMutexLock thread_count_lock] ++ snd r1 ++ snd r2
     ++ [EvCondBroadcast; EvMutexUnlock thread_count_lock]).

(** The loop of [rpc_mgr_wake] (and of [_wait_for_thread_fini]):
    [for (i=0; i<MAX_THREAD_COUNT; i++) if (slave_thread_id[i])
    pthread_kill(slave_thread_id[i], SIGUSR1);] *)
Fixpoint kill_slaves (tab : list Z) (i n : nat) : trace :=
  match n with
  | O => []
  | S n' =>
      (if negb (slot tab i =? 0) then [EvKill (slot tab i) SIGUSR1] else [])
        ++ kill_slaves tab (S i) n'
  end.

(** [rpc_mgr_wake()]: the manager first, then the workers. *)
Definition rpc_mgr_wake (st : rpc_state) : trace :=
  [EvMutexLock thread_count_lock]
    ++ (if negb (master_thread_id st =? 0)
        then [EvKill (master_thread_id st) SIGUSR1] else [])
    ++ kill_slaves (slave_thread_id st) 0 (Z.to_nat MAX_THREAD_COUNT)
    ++ [EvMutexUnlock thread_count_lock].

(** The threads signalled by a trace. *)
Definition signalled (tr : trace) : list Z :=
  omap (fun e => match e with EvKill t _ => Some t | _ => None end) tr.

End Admission.

(** ** Codes of headers that are not part of the embedded file

    [slurm_errno.h] and [slurm_protocol_defs.h] fix these values; the
    functions below only compare against them, so they are taken as
    parameters. *)
Class slurm_codes := SlurmCodes {
  SLURM_SUCCESS : Z;
  SLURM_ERROR : Z;
  SLURM_SOCKET_ERROR : Z;
  ACCOUNTING_FIRST_REG : Z;
  ESLURM_ACCESS_DENIED : Z;
  SLURM_PROTOCOL_VERSION_ERROR : Z;
  NO_VAL : Z
}.

(** The values the headers of the 17.02 release give them, for running the
    functions on concrete inputs. *)
Definition release_codes : slurm_codes :=
  SlurmCodes 0 (-1) (-1) 10002 2002 1005 4294967294.

(** ** The world a thread runs in *)

(** What the peer puts on the stream, in order of arrival. *)
Inductive chunk :=
| Bytes (bs : list byte)
| Eof
| Err (errno : Z).

(** [slurm_persist_conn_t] and [slurmdbd_conn_t], with the fields the file
    touches. *)
Record slurm_persist_conn_t := PersistConn {
  fd : Z;
  rem_host : string;
  rem_port : Z;
  version : Z;
  cluster_name : option string
}.

Record slurmdbd_conn_t := DbdConn {
  conn : slurm_persist_conn_t;
  db_conn : Z;
  tres_str : option string
}.

(** What one call of [proc_req] leaves behind: its return code, the output
    buffer, the uid, and the connection record it may have updated. *)
Record proc_result := ProcResult {
  pr_rc : Z;
  pr_buffer : Buf;
  pr_uid : Z;
  pr_conn : slurmdbd_conn_t
}.

(** The oracle.  Each list is consumed front to back by the calls of its
    kind; a call whose list is exhausted does not return.  [w_stream] is the
    exception: the socket is non-blocking, so a [read] with nothing queued
    fails at once. *)
Record world := World {
  w_polls : list pollres;
  w_stream : list chunk;
  w_procs : list proc_result;
  w_sends : list Z;
  w_accepts : list (Z * Z);           (* accept: return value, errno *)
  w_creates : list (Z * Z);           (* pthread_create: return value, content of the slot *)
  w_shutdown : Z;                     (* shutdown_time as read in the teardown *)
  w_registered : list Z;              (* registered_clusters, as connection pointers *)
  w_adm : Admission.rpc_state;
  w_trace : trace
}.

Definition set_polls (v : list pollres) (w : world) : world :=
  World v (w_stream w) (w_procs w) (w_sends w) (w_accepts w) (w_creates w)
        (w_shutdown w) (w_registered w) (w_adm w) (w_trace w).
Definition set_stream (v : list chunk) (w : world) : world :=
  World (w_polls w) v (w_procs w) (w_sends w) (w_accepts w) (w_creates w)
        (w_shutdown w) (w_registered w) (w_adm w) (w_trace w).
Definition set_procs (v : list proc_result) (w : world) : world :=
  World (w_polls w) (w_stream w) v (w_sends w) (w_accepts w) (w_creates w)
        (w_shutdown w) (w_registered w) (w_adm w) (w_trace w).
Definition set_sends (v : list Z) (w : world) : world :=
  World (w_polls w) (w_stream w) (w_procs w) v (w_accepts w) (w_creates w)
        (w_shutdown w) (w_registered w) (w_adm w) (w_trace w).
Definition set_accepts (v : list (Z * Z)) (w : world) : world :=
  World (w_polls w) (w_stream w) (w_procs w) (w_sends w) v (w_creates w)
        (w_shutdown w) (w_registered w) (w_adm w) (w_trace w).
Definition set_creates (v : list (Z * Z)) (w : world) : world :=
  World (w_polls w) (w_stream w) (w_procs w) (w_sends w) (w_accepts w) v
        (w_shutdown w) (w_registered w) (w_adm w) (w_trace w).
Definition set_registered (v : list Z) (w : world) : world :=
  World (w_polls w) (w_stream w) (w_procs w) (w_sends w) (w_accepts w)
        (w_creates w) (w_shutdown w) v (w_adm w) (w_trace w).
Definition set_adm (v : Admission.rpc_state) (w : world) : world :=
  World (w_polls w) (w_stream w) (w_procs w) (w_sends w) (w_accepts w)
        (w_creates w) (w_shutdown w) (w_registered w) v (w_trace w).
Definition set_trace (v : trace) (w : world) : world :=
  World (w_polls w) (w_stream w) (w_procs w) (w_sends w) (w_accepts w)
        (w_creates w) (w_shutdown w) (w_registered w) (w_adm w) v.

(** ** A small monad: world passing, with calls that may not return *)

Inductive res (A : Type) :=
| Ret (a : A) (w : world)
| Hang (w : world)                    (* blocked for ever in a call *)
| Fatal (w : world)                   (* the process left through fatal() *)
| OutOfFuel.
Arguments Ret {A} a w.
Arguments Hang {A} w.
Arguments Fatal {A} w.
Arguments OutOfFuel {A}.

Definition io (A : Type) := world -> res A.

Definition ret {A} (a : A) : io A := fun w => Ret a w.

Definition bind {A B} (m : io A) (f : A -> io B) : io B :=
  fun w =>
    match m w with
    | Ret a w' => f a w'
    | Hang w' => Hang w'
    | Fatal w' => Fatal w'
    | OutOfFuel => OutOfFuel
    end.

Declare Scope io_scope.
Delimit Scope io_scope with io.
Notation "x <- m ;; k" := (bind m (fun x => k))
  (at level 100, m at next level, right associativity) : io_scope.
Notation "m ;;; k" := (bind m (fun _ => k))
  (at level 100, right associativity) : io_scope.

Definition emit (e : event) : io unit :=
  fun w => Ret tt (set_trace (w_trace w ++ [e]) w).

Definition log (lvl : log_level) (msg : string) : io unit := emit (EvLog lvl msg).

Local Open Scope io_scope.

(** ** The admission controller as a transition system

    The operations other threads and the manager perform on the shared
    state, one at a time (each runs under [thread_count_lock]). *)

Inductive op :=
| OpRegister (self : Z)                       (* rpc_mgr: master_thread_id = pthread_self() *)
| OpAcquire (self now : Z) (print_it : bool)  (* one pass of _wait_for_server_thread *)
| OpCreated (i : nat) (tid : Z)               (* pthread_create stored tid in slave_thread_id[i] *)
| OpRelease (my_tid : Z)                      (* _free_server_thread(my_tid) *)
| OpShutdown (t : Z).                         (* shutdown_time = t *)

(** [None]: the process has left through [fatal]. *)
Definition step (st : Admission.rpc_state) (o : op) : option Admission.rpc_state :=
  match o with
  | OpRegister self => Some (Admission.set_master self st)
  | OpAcquire self now print_it =>
      match Admission.wait_for_server_thread_pass self now print_it st with
      | Admission.WaitReturn _ st' _ => Some st'
      | Admission.WaitFatal _ _ => None
      | Admission.WaitBlocked _ st' _ => Some st'
      end
  | OpCreated i tid =>
      Some (Admission.set_slaves (<[i := tid]> (Admission.slave_thread_id st)) st)
  | OpRelease my_tid => Some (fst (Admission._free_server_thread my_tid st))
  | OpShutdown t => Some (Admission.set_shutdown t st)
  end.

Fixpoint run (st : Admission.rpc_state) (ops : list op) : option Admission.rpc_state :=
  match ops with
  | [] => Some st
  | o :: ops' =>
      match step st o with
      | Some st' => run st' ops'
      | None => None
      end
  end.

(** ** System calls and collaborators *)

Section Worker.
Context {codes : slurm_codes}.

(** [_fd_readable]: [poll] with an infinite timeout until it yields a verdict;
    the recursion follows the answers [poll] still has to give. *)
Fixpoint fd_readable_from (cfd : Z) (polls : list pollres) (w : world) : res bool :=
  match polls with
  | [] => Hang (set_polls [] w)
  | p :: rest =>
      let w1 := set_trace (w_trace w ++ [EvPoll cfd p]) (set_polls rest w) in
      if negb (p_shutdown p =? 0) then Ret false w1
      else if p_rc p =? -1 then
        if (p_errno p =? EINTR) || (p_errno p =? EAGAIN) then
          fd_readable_from cfd rest w1
        else (log LError "poll: %m" ;;; ret false) w1
      else if negb (Z.land (p_revents p) POLLHUP =? 0)
              && (Z.land (p_revents p) POLLIN =? 0) then
        (log LDebug3 "Read connection closed" ;;; ret false) w1
      else if negb (Z.land (p_revents p) POLLNVAL =? 0) then
        (log LError "Connection is invalid" ;;; ret false) w1
      else if negb (Z.land (p_revents p) POLLERR =? 0) then
        (log LError "Connection experienced an error" ;;; ret false) w1
      else if Z.land (p_revents p) POLLIN =? 0 then
        (log LError "Connection events" ;;; ret false) w1
      else Ret true w1
  end.

Definition _fd_readable (cfd : Z) : io bool :=
  fun w => fd_readable_from cfd (w_polls w) w.

(** [read(fd, buf, count)] on the non-blocking socket: the bytes handed over
    and the return value.  A chunk longer than [count] stays queued. *)
Definition sys_read (cfd count : Z) : io (Z * list byte) :=
  fun w =>
    match w_stream w with
    | [] => Ret (-1, []) (set_trace (w_trace w ++ [EvRead cfd count (-1)]) w)
    | Eof :: _ => Ret (0, []) (set_trace (w_trace w ++ [EvRead cfd count 0]) w)
    | Err _ :: rest =>
        Ret (-1, []) (set_trace (w_trace w ++ [EvRead cfd count (-1)])
                                (set_stream rest w))
    | Bytes bs :: rest =>
        let got := take (Z.to_nat count) bs in
        let left := drop (Z.to_nat count) bs in
        let n := Z.of_nat (length got) in
        Ret (n, got)
            (set_trace (w_trace w ++ [EvRead cfd count n])
               (set_stream (match left with [] => rest | _ => Bytes left :: rest end) w))
    end.

Definition byte_val (b : byte) : Z := Z.of_N (Byte.to_N b).

(** [ntohl] of the four bytes [read] stored in [nw_size]. *)
Definition ntohl (bs : list byte) : Z :=
  match bs with
  | [b0; b1; b2; b3] =>
      Z.lor (Z.shiftl (byte_val b0) 24)
        (Z.lor (Z.shiftl (byte_val b1) 16)
           (Z.lor (Z.shiftl (byte_val b2) 8) (byte_val b3)))
  | _ => 0
  end.

(** The buffer after [read] stored [bs] at [msg + offset]. *)
Definition write_at (msg : list byte) (offset : Z) (bs : list byte) : list byte :=
  take (Z.to_nat offset) msg ++ bs
    ++ drop (Z.to_nat offset + length bs)%nat msg.

Record loop_state := LoopState {
  l_conn : slurmdbd_conn_t;
  l_uid : Z;
  l_first : bool;
  l_fini : bool;
  l_buffer : Buf;
  l_rc : Z
}.

Definition set_fini (v : bool) (ls : loop_state) : loop_state :=
  LoopState (l_conn ls) (l_uid ls) (l_first ls) v (l_buffer ls) (l_rc ls).
Definition set_buffer (v : Buf) (ls : loop_state) : loop_state :=
  LoopState (l_conn ls) (l_uid ls) (l_first ls) (l_fini ls) v (l_rc ls).

(** [proc_req(conn, msg, msg_size, first, &buffer, &uid)] *)
Definition proc_req (msg : list byte) (msg_size : Z) (first : bool) : io proc_result :=
  fun w =>
    match w_procs w with
    | [] => Hang w
    | pr :: rest =>
        Ret pr (set_trace (w_trace w ++ [EvProcReq msg msg_size first (pr_rc pr)])
                          (set_procs rest w))
    end.

(** [slurm_persist_send_msg(&conn->conn, buffer)] *)
Definition slurm_persist_send_msg (buffer : Buf) : io Z :=
  fun w =>
    match w_sends w with
    | [] => Hang w
    | r :: rest =>
        Ret r (set_trace (w_trace w ++ [EvSend buffer r]) (set_sends rest w))
    end.

(** The payload loop [while (msg_size > offset) { ... }]; it returns [offset]
    and the buffer. *)
Fixpoint read_payload (fuel : nat) (cfd msg_size offset : Z) (msg : list byte)
    : io (Z * list byte) :=
  match fuel with
  | O => fun _ => OutOfFuel
  | S fuel' =>
      if msg_size >? offset then
        readable <- _fd_readable cfd ;;
        if negb readable then ret (offset, msg)
        else
          r <- sys_read cfd (msg_size - offset) ;;
          if fst r <=? 0 then
            log LError "read: %m" ;;; ret (offset, msg)
          else
            read_payload fuel' cfd msg_size (offset + fst r)
                         (write_at msg offset (snd r))
      else ret (offset, msg)
  end.

Definition read_payload_run (cfd msg_size : Z) : io (Z * list byte) :=
  fun w =>
    read_payload (S (length (w_polls w))) cfd msg_size 0
                 (replicate (Z.to_nat msg_size) Byte.x00) w.

(** What follows the payload loop when the whole message arrived: the call
    of [proc_req] and the inspection of its return code. *)
Definition dispatch (ls : loop_state) (msg : list byte) (msg_size : Z) : io loop_state :=
  pr <- proc_req msg msg_size (l_first ls) ;;
  let ls1 := LoopState (pr_conn pr) (pr_uid pr) false (l_fini ls)
                       (pr_buffer pr) (pr_rc pr) in
  if negb (pr_rc pr =? SLURM_SUCCESS) && negb (pr_rc pr =? ACCOUNTING_FIRST_REG) then
    log LError "Processing last message from connection" ;;;
    if (pr_rc pr =? ESLURM_ACCESS_DENIED)
       || (pr_rc pr =? SLURM_PROTOCOL_VERSION_ERROR)
    then ret (set_fini true ls1)
    else ret ls1
  else ret ls1.

(** The response is sent and the buffers freed. *)
Definition respond (ls : loop_state) : io loop_state :=
  sret <- slurm_persist_send_msg (l_buffer ls) ;;
  ls1 <- (if negb (sret =? SLURM_SUCCESS) then
            (if negb (rem_port (conn (l_conn ls)) =? 0)
             then log LDebug "Problem sending response to connection"
             else ret tt) ;;;
            ret (set_fini true ls)
          else ret ls) ;;
  emit EvFreeBuf ;;;
  emit EvXfreeMsg ;;;
  ret ls1.

(** From the payload loop's result to the end of the pass: dispatch or the
    synthesized error, then the response. *)
Definition frame_tail (ls : loop_state) (msg_size : Z) (po : Z * list byte)
    : io (loop_state * bool) :=
  ls1 <- (if msg_size =? fst po then dispatch ls (snd po) msg_size
          else
            emit (EvMakeRcMsg SLURM_ERROR "Bad offset") ;;;
            ret (set_fini true
                   (set_buffer (BufRcMsg SLURM_ERROR "Bad offset") ls))) ;;
  ls2 <- respond ls1 ;;
  ret (ls2, false).

(** The pass once the length has been accepted. *)
Definition frame_body (ls : loop_state) (cfd msg_size : Z) : io (loop_state * bool) :=
  emit (EvXmalloc msg_size) ;;;
  po <- read_payload_run cfd msg_size ;;
  frame_tail ls msg_size po.

(** The pass once [_fd_readable] has answered yes: the length prefix is
    read and checked. *)
Definition read_frame (ls : loop_state) (cfd : Z) : io (loop_state * bool) :=
  r <- sys_read cfd 4 ;;
  if fst r =? 0 then ret (ls, true)
  else if negb (fst r =? 4) then
    log LError "Could not read msg_size from connection" ;;; ret (ls, true)
  else
    let msg_size := ntohl (snd r) in
    if (msg_size <? 2) || (msg_size >? MAX_MSG_SIZE) then
      log LError "Invalid msg_size from connection" ;;; ret (ls, true)
    else frame_body ls cfd msg_size.

(** One pass through the body of [while (!fini)]; the boolean tells whether
    the pass left through [break]. *)
Definition service_body (ls : loop_state) : io (loop_state * bool) :=
  let cfd := fd (conn (l_conn ls)) in
  readable <- _fd_readable cfd ;;
  if negb readable then ret (ls, true)
  else read_frame ls cfd.

Fixpoint service_loop (fuel : nat) (ls : loop_state) : io loop_state :=
  match fuel with
  | O => fun _ => OutOfFuel
  | S fuel' =>
      if negb (l_fini ls) then
        r <- service_body ls ;;
        if snd r then ret (fst r) else service_loop fuel' (fst r)
      else ret ls
  end.

Definition service_loop_run (ls : loop_state) : io loop_state :=
  fun w => service_loop (S (length (w_polls w))) ls w.

(** The scan of the registry: the first entry that is this connection is
    deleted and the scan stops. *)
Fixpoint registry_remove (conn_ptr : Z) (l : list Z) : list Z * bool :=
  match l with
  | [] => ([], false)
  | x :: rest =>
      if conn_ptr =? x then (rest, true)
      else let r := registry_remove conn_ptr rest in (x :: fst r, snd r)
  end.

Definition unregister (conn_ptr : Z) : io unit :=
  emit (EvMutexLock registered_lock) ;;;
  (fun w =>
     let r := registry_remove conn_ptr (w_registered w) in
     (if snd r then emit (EvListDelete conn_ptr) else ret tt)
       (set_registered (fst r) w)) ;;;
  emit (EvMutexUnlock registered_lock).

(** [_free_server_thread(my_tid)] on the shared state of the world. *)
Definition free_server_thread (my_tid : Z) : io unit :=
  fun w =>
    let r := Admission._free_server_thread my_tid (w_adm w) in
    Ret tt (set_trace (w_trace w ++ snd r) (set_adm (fst r) w)).

(** Everything after the loop of [_service_connection]. *)
Definition teardown (self conn_ptr cfd : Z) (ls : loop_state) : io unit :=
  let c := l_conn ls in
  (if negb (rem_port (conn c) =? 0) then
     (fun w =>
        (if w_shutdown w =? 0 then
           log LDebug "cluster has disconnected" ;;;
           emit (EvFiniCtld (db_conn c) (rem_port (conn c))) ;;;
           unregister conn_ptr
         else ret tt) w) ;;;
     emit (EvCommit (db_conn c) 1)
   else ret tt) ;;;
  emit (EvCloseConnection (db_conn c)) ;;;
  emit EvMembersDestroy ;;;
  log LDebug2 "Closed connection" ;;;
  emit EvXfreeTres ;;;
  emit (EvXfreeConn conn_ptr) ;;;
  free_server_thread self.

(** [_service_connection(arg)], run by thread [self] on the connection
    record [c] that lives at address [conn_ptr]. *)
Definition loop_start (c : slurmdbd_conn_t) : loop_state :=
  LoopState c NO_VAL true false BufNull SLURM_SUCCESS.

Definition _service_connection (self conn_ptr : Z) (c : slurmdbd_conn_t) : io unit :=
  let cfd := fd (conn c) in
  log LDebug2 "Opened connection" ;;;
  ls <- service_loop_run (loop_start c) ;;
  teardown self conn_ptr cfd ls.

(** ** The accept loop *)

Definition slurm_accept_msg_conn : io (Z * Z) :=
  fun w =>
    match w_accepts w with
    | [] => Hang w
    | a :: rest =>
        Ret a (set_trace (w_trace w ++ [EvAccept (fst a)]) (set_accepts rest w))
    end.

(** [pthread_create(&slave_thread_id[i], ...)]: the slot is the call's
    out-parameter.  After a success it holds the new thread's identity; what
    a failed call leaves there is not specified (it may have been written
    before the failure), so in both cases the slot receives what the oracle
    says the call left in it -- its former content, if the call did not
    touch it. *)
Definition pthread_create (i : Z) : io Z :=
  fun w =>
    match w_creates w with
    | [] => Hang w
    | (r, tid) :: rest =>
        let adm := w_adm w in
        let adm' :=
          Admission.set_slaves (<[Z.to_nat i := tid]> (Admission.slave_thread_id adm)) adm in
        Ret r (set_trace (w_trace w ++ [EvPthreadCreate i r])
                 (set_adm adm' (set_creates rest w)))
    end.

(** [while (pthread_create(...)) { ... }] *)
Fixpoint create_loop (fuel : nat) (i newsockfd retry_cnt : Z) : io unit :=
  match fuel with
  | O => fun _ => OutOfFuel
  | S fuel' =>
      r <- pthread_create i ;;
      if negb (r =? 0) then
        if retry_cnt >? 0 then
          log LError "pthread_create failure, aborting RPC: %m" ;;;
          emit (EvClose newsockfd)
        else
          log LError "pthread_create failure: %m" ;;;
          emit (EvUsleep 1000) ;;;
          create_loop fuel' i newsockfd (retry_cnt + 1)
      else ret tt
  end.

(** The body of the [while] of [rpc_mgr], for the slot [i] just acquired. *)
Definition rpc_mgr_body (i : Z) : io unit :=
  a <- slurm_accept_msg_conn ;;
  if fst a =? SLURM_SOCKET_ERROR then
    free_server_thread 0 ;;;
    (if negb (snd a =? EINTR) then log LError "slurm_accept_msg_conn: %m"
     else ret tt)
  else
    emit (EvSetNonblocking (fst a)) ;;;
    (fun w => create_loop (S (length (w_creates w))) i (fst a) 0 w).

(** One turn of [while ((i = _wait_for_server_thread()) >= 0)]: the
    admission, then the body; [false] when the loop is left. *)
Definition rpc_mgr_turn (self now : Z) (wakeups : list (Z * Admission.rpc_state))
    : io bool :=
  fun w =>
    match Admission._wait_for_server_thread self now (w_adm w) wakeups with
    | None => Hang w
    | Some (Admission.WaitBlocked _ st tr) =>
        Hang (set_trace (w_trace w ++ tr) (set_adm st w))
    | Some (Admission.WaitFatal st tr) =>
        Fatal (set_trace (w_trace w ++ tr) (set_adm st w))
    | Some (Admission.WaitReturn i st tr) =>
        let w1 := set_trace (w_trace w ++ tr) (set_adm st w) in
        if i >=? 0 then (rpc_mgr_body i ;;; ret true) w1
        else Ret false w1
    end.

End Worker.

(** ** Predicates on what the peer delivers *)

(** The answers of [poll] after which [_fd_readable] says yes at once. *)
Definition poll_ready (p : pollres) : bool :=
  (p_shutdown p =? 0)
  && negb (p_rc p =? -1)
  && negb (negb (Z.land (p_revents p) POLLHUP =? 0)
           && (Z.land (p_revents p) POLLIN =? 0))
  && (Z.land (p_revents p) POLLNVAL =? 0)
  && (Z.land (p_revents p) POLLERR =? 0)
  && negb (Z.land (p_revents p) POLLIN =? 0).

(** The answers of [poll] after which [_fd_readable] polls again: no
    shutdown yet, and [poll] interrupted. *)
Definition poll_retry (p : pollres) : bool :=
  (p_shutdown p =? 0) && (p_rc p =? -1)
  && ((p_errno p =? EINTR) || (p_errno p =? EAGAIN)).

(** The payload of [L] bytes is cut short: from [offset] on, some reads may
    still deliver bytes, but before [L] is reached the descriptor is reported
    not readable, or a [read] returns 0 (end of file) or -1 (error).  [w'] is
    the world at that point. *)
Inductive cut_short (cfd L : Z) : Z -> world -> world -> Prop :=
| CutUnreadable offset w w1 :
    offset < L ->
    _fd_readable cfd w = Ret false w1 ->
    cut_short cfd L offset w w1
| CutReadFailed offset w w1 n bs w2 :
    offset < L ->
    _fd_readable cfd w = Ret true w1 ->
    sys_read cfd (L - offset) w1 = Ret (n, bs) w2 ->
    n <= 0 ->
    cut_short cfd L offset w (set_trace (w_trace w2 ++ [EvLog LError "read: %m"]) w2)
| CutPartial offset w w1 n bs w2 w3 :
    offset < L ->
    _fd_readable cfd w = Ret true w1 ->
    sys_read cfd (L - offset) w1 = Ret (n, bs) w2 ->
    0 < n ->
    cut_short cfd L (offset + n) w2 w3 ->
    cut_short cfd L offset w w3.

(** ** Sample inputs *)

(** A [poll] that reports input, with no shutdown in sight. *)
Definition ready_poll : pollres := PollRes 1 POLLIN 0 0.

(** A one-shot client on descriptor 5, and a registered cluster on 6. *)
Definition oneshot_conn : slurmdbd_conn_t :=
  DbdConn (PersistConn 5 "10.0.0.1" 0 0 None) 0 None.
Definition cluster_conn : slurmdbd_conn_t :=
  DbdConn (PersistConn 6 "10.0.0.2" 6817 0 (Some "alpha")) 77 (Some "1=4").

(** A world with the given answers, nothing registered, no worker running. *)
Definition sample_world (polls : list pollres) (stream : list chunk)
    (procs : list proc_result) (sends : list Z) : world :=
  World polls stream procs sends [] [] 0 [] Admission.init_state [].

Import Admission.

(** ** Predicates used in the statements *)

(** [i] is the lowest index of the table whose entry is clear. *)
Definition lowest_free (tab : list Z) (i : nat) : Prop :=
  (i < Z.to_nat MAX_THREAD_COUNT)%nat
  /\ Admission.slot tab i = 0
  /\ forall j, (j < i)%nat -> Admission.slot tab j <> 0.

(** No index of the table is clear. *)
Definition table_full (tab : list Z) : Prop :=
  forall j, (j < Z.to_nat MAX_THREAD_COUNT)%nat -> Admission.slot tab j <> 0.

(** The count stays within [0, MAX_THREAD_COUNT] under every operation. *)
Definition count_ok (st : rpc_state) : Prop :=
  0 <= thread_count st <= MAX_THREAD_COUNT.

(** The state used to exercise the limit: a registered manager, a hundred
    live workers. *)
Definition full_state : rpc_state :=
  RpcState 1 (map Z.of_nat (seq 2 (Z.to_nat MAX_THREAD_COUNT))) MAX_THREAD_COUNT 0 0 [].

(** Events the request loop may produce; everything else belongs to the
    teardown or to the manager. *)
Definition loop_event (e : event) : bool :=
  match e with
  | EvLog _ _ | EvPoll _ _ | EvRead _ _ _ | EvXmalloc _ | EvProcReq _ _ _ _
  | EvMakeRcMsg _ _ | EvSend _ _ | EvFreeBuf | EvXfreeMsg => true
  | _ => false
  end.

Definition is_read (e : event) : bool :=
  match e with EvRead _ _ _ => true | _ => false end.

Definition is_send (e : event) : bool :=
  match e with EvSend _ _ => true | _ => false end.

Definition is_proc (e : event) : bool :=
  match e with EvProcReq _ _ _ _ => true | _ => false end.

Definition is_error_log (e : event) : bool :=
  match e with EvLog LError _ => true | _ => false end.

(** How many events of a trace satisfy [P]. *)
Definition count_events (P : event -> bool) (tr : trace) : nat :=
  length (List.filter P tr).

(** A [poll] that came back with the shutdown flag set. *)
Definition shutdown_poll (e : event) : bool :=
  match e with EvPoll _ p => negb (p_shutdown p =? 0) | _ => false end.

(** [w'] is [w] after some calls: the trace grew by events satisfying [P],
    no [poll] answer was put back, and the shared variables the loop does not
    touch are as they were. *)
Record evolves (P : event -> bool) (w w' : world) : Prop := Evolves {
  ev_trace : exists tr, w_trace w' = w_trace w ++ tr /\ forallb P tr = true;
  ev_polls : (length (w_polls w') <= length (w_polls w))%nat;
  ev_shutdown : w_shutdown w' = w_shutdown w;
  ev_registered : w_registered w' = w_registered w;
  ev_adm : w_adm w' = w_adm w;
  ev_creates : w_creates w' = w_creates w;
  ev_accepts : w_accepts w' = w_accepts w
}.

(** Every outcome of [m] is an evolution of the world it started in, and [m]
    does not run out of fuel. *)
Definition keeps {A} (P : event -> bool) (m : io A) : Prop :=
  forall w,
    match m w with
    | Ret _ w' | Hang w' => evolves P w w'
    | Fatal _ | OutOfFuel => False
    end.

Definition is_commit (e : event) : bool :=
  match e with EvCommit _ _ => true | _ => false end.

(** The events of the teardown, in order. *)
Definition teardown_events (self conn_ptr : Z) (c : slurmdbd_conn_t) (w : world) : trace :=
  (if negb (rem_port (conn c) =? 0) && (w_shutdown w =? 0) then
     [EvLog LDebug "cluster has disconnected";
      EvFiniCtld (db_conn c) (rem_port (conn c));
      EvMutexLock registered_lock]
       ++ (if snd (registry_remove conn_ptr (w_registered w))
           then [EvListDelete conn_ptr] else [])
       ++ [EvMutexUnlock registered_lock]
   else [])
    ++ (if negb (rem_port (conn c) =? 0) then [EvCommit (db_conn c) 1] else [])
    ++ [EvCloseConnection (db_conn c); EvMembersDestroy;
        EvLog LDebug2 "Closed connection"; EvXfreeTres; EvXfreeConn conn_ptr]
    ++ snd (_free_server_thread self (w_adm w)).

Definition is_poll (e : event) : bool :=
  match e with EvPoll _ _ => true | _ => false end.

(** Neither a [poll] nor a [read]. *)
Definition no_io (e : event) : bool := negb (is_read e) && negb (is_poll e).

(** An event of the request loop that is neither a [poll] nor a [read]. *)
Definition reply_event (e : event) : bool := loop_event e && no_io e.

(** No [poll] of the trace saw the shutdown flag set. *)
Definition calm (tr : trace) : bool := forallb (fun e => negb (shutdown_poll e)) tr.

(** After the first [poll] that saw the shutdown flag set, the trace holds
    no [poll] and no [read]. *)
Fixpoint quiet (tr : trace) : bool :=
  match tr with
  | [] => true
  | e :: rest => if shutdown_poll e then forallb no_io rest else quiet rest
  end.

(** [m] keeps the trace quiet; when it returns after a [poll] saw the
    shutdown flag, its result satisfies [stop]. *)
Definition obeys {A} (m : io A) (stop : A -> bool) : Prop :=
  forall w,
    match m w with
    | Ret a w' =>
        exists tr, w_trace w' = w_trace w ++ tr
                   /\ quiet tr = true /\ (calm tr = true \/ stop a = true)
    | Hang w' => exists tr, w_trace w' = w_trace w ++ tr /\ quiet tr = true
    | Fatal _ => False
    | OutOfFuel => True
    end.

(** [m] does no [poll] and no [read], and its result satisfies [stop]. *)
Definition passive {A} (m : io A) (stop : A -> bool) : Prop :=
  forall w,
    match m w with
    | Ret a w' =>
        exists tr, w_trace w' = w_trace w ++ tr
                   /\ forallb no_io tr = true /\ stop a = true
    | Hang w' => exists tr, w_trace w' = w_trace w ++ tr /\ forallb no_io tr = true
    | Fatal _ => False
    | OutOfFuel => True
    end.

(** A pass after which the loop does not start another one. *)
Definition pass_ends (r : loop_state * bool) : bool := snd r || l_fini (fst r).

(** ** The rest of the file: the end of the manager

    [_wait_for_thread_fini]: nothing to do when [thread_count] is 0;
    otherwise half a second of grace, then every thread still recorded is
    signalled.  [st] is the shared state on entry, [later] the state found
    under the lock once the grace period is over. *)
Definition _wait_for_thread_fini (st later : rpc_state) : trace :=
  if thread_count st =? 0 then []
  else
    [EvUsleep 500000; EvMutexLock thread_count_lock]
      ++ kill_slaves (slave_thread_id later) 0 (Z.to_nat MAX_THREAD_COUNT)
      ++ [EvMutexUnlock thread_count_lock].

(** The trace of an outcome of the admission loop. *)
Definition outcome_trace (o : wait_outcome) : trace :=
  match o with
  | WaitReturn _ _ tr | WaitFatal _ tr | WaitBlocked _ _ tr => tr
  end.

Definition is_verbose (e : event) : bool :=
  match e with EvLog LVerbose _ => true | _ => false end.

Definition is_cond_wait (e : event) : bool :=
  match e with EvCondWait => true | _ => false end.

(** A wake-up that sends the caller of [_wait_for_server_thread] back to
    sleep: the count at the limit, no shutdown. *)
Definition at_limit (st : rpc_state) : Prop :=
  MAX_THREAD_COUNT <= thread_count st /\ shutdown_time st = 0.

(** The nonzero identities of a list. *)
Definition live (l : list Z) : list Z := List.filter (fun t => negb (t =? 0)) l.

(** The nonzero entries among the slots of the table, in index order. *)
Definition recorded (tab : list Z) : list Z :=
  live (map (slot tab) (seq 0 (Z.to_nat MAX_THREAD_COUNT))).

(** ** The manager and its workers, step by step

    The accept loop of [rpc_mgr] taken apart at its calls, so that the
    releases of the workers can fall between them.  The manager is about to
    call [_wait_for_server_thread], or holds slot [i] and is about to call
    [accept], or is in the creation loop for the connection on [newsockfd],
    or has left the loop. *)
Inductive mgr_pc :=
| MgrIdle
| MgrGranted (i : Z)
| MgrCreating (i newsockfd retry_cnt : Z)
| MgrLeft.

Record sys_state := Sys {
  s_adm : rpc_state;
  s_pc : mgr_pc
}.

Inductive sys_op :=
| SysAcquire (self now : Z) (print_it : bool)   (* a pass of _wait_for_server_thread *)
| SysAccept (ret errno : Z)                     (* slurm_accept_msg_conn returned *)
| SysCreate (ret tid : Z)                       (* pthread_create returned, tid left in the slot *)
| SysRelease (my_tid : Z)                       (* a worker reached _free_server_thread *)
| SysShutdown (t : Z).                          (* shutdown_time = t *)

Inductive sys_result :=
| SysNext (s : sys_state)
| SysFatal                                      (* fatal("No free slave_thread_id") *)
| SysNotEnabled.

(** [tid] sits in one of the slots. *)
Definition in_table (tid : Z) (tab : list Z) : bool :=
  existsb (fun t => t =? tid) (map (slot tab) (seq 0 (Z.to_nat MAX_THREAD_COUNT))).

(** One step.  A worker releases under its own identity, which
    [pthread_create] has recorded by then; everything else is the code of
    [rpc_mgr] between two calls.  [pthread_create] writes the slot whether it
    succeeds or not: [tid] is what it left there. *)
Definition sys_step {codes : slurm_codes} (s : sys_state) (o : sys_op) : sys_result :=
  let adm := s_adm s in
  match o, s_pc s with
  | SysAcquire self now print_it, MgrIdle =>
      match wait_for_server_thread_pass self now print_it adm with
      | WaitReturn rc st _ =>
          SysNext (Sys st (if rc >=? 0 then MgrGranted rc else MgrLeft))
      | WaitFatal _ _ => SysFatal
      | WaitBlocked _ st _ => SysNext (Sys st MgrIdle)
      end
  | SysAccept ret errno, MgrGranted i =>
      if ret =? SLURM_SOCKET_ERROR then
        SysNext (Sys (fst (_free_server_thread 0 adm)) MgrIdle)
      else SysNext (Sys adm (MgrCreating i ret 0))
  | SysCreate ret tid, MgrCreating i newsockfd retry_cnt =>
      let adm' := set_slaves (<[Z.to_nat i := tid]> (slave_thread_id adm)) adm in
      if negb (ret =? 0) then
        if retry_cnt >? 0 then SysNext (Sys adm' MgrIdle)
        else SysNext (Sys adm' (MgrCreating i newsockfd (retry_cnt + 1)))
      else SysNext (Sys adm' MgrIdle)
  | SysRelease my_tid, pc =>
      if negb (my_tid =? 0) && in_table my_tid (slave_thread_id adm) then
        SysNext (Sys (fst (_free_server_thread my_tid adm)) pc)
      else SysNotEnabled
  | SysShutdown t, pc => SysNext (Sys (set_shutdown t adm) pc)
  | _, _ => SysNotEnabled
  end.

Fixpoint sys_run {codes : slurm_codes} (s : sys_state) (ops : list sys_op) : sys_result :=
  match ops with
  | [] => SysNext s
  | o :: ops' =>
      match sys_step s o with
      | SysNext s' => sys_run s' ops'
      | r => r
      end
  end.

(** A slot handed out and not yet filled or given back. *)
Definition pending (pc : mgr_pc) : Z :=
  match pc with
  | MgrGranted _ | MgrCreating _ _ _ => 1
  | MgrIdle | MgrLeft => 0
  end.

(** The slot the manager holds, if any. *)
Definition held (pc : mgr_pc) : option Z :=
  match pc with
  | MgrGranted i | MgrCreating i _ _ => Some i
  | MgrIdle | MgrLeft => None
  end.

(** A slot handed out that is still clear: it is counted in [thread_count]
    but does not show in the table. *)
Definition reserved (s : sys_state) : Z :=
  match held (s_pc s) with
  | Some i => if slot (slave_thread_id (s_adm s)) (Z.to_nat i) =? 0 then 1 else 0
  | None => 0
  end.

(** The slot the manager holds is a valid index, and it is clear as long as
    [pthread_create] has not been called on it. *)
Definition held_slot_valid (s : sys_state) : Prop :=
  match s_pc s with
  | MgrGranted i =>
      0 <= i < MAX_THREAD_COUNT /\ slot (slave_thread_id (s_adm s)) (Z.to_nat i) = 0
  | MgrCreating i _ _ => 0 <= i < MAX_THREAD_COUNT
  | MgrIdle | MgrLeft => True
  end.

(** Every nonzero entry of the table and every slot handed out and still
    clear is counted. *)
Definition sys_inv (s : sys_state) : Prop :=
  Z.of_nat (length (recorded (slave_thread_id (s_adm s)))) + reserved s
    <= thread_count (s_adm s)
  /\ thread_count (s_adm s) <= MAX_THREAD_COUNT
  /\ length (slave_thread_id (s_adm s)) = Z.to_nat MAX_THREAD_COUNT
  /\ held_slot_valid s.

(** A release that does not go by what a failed [pthread_create] has left in
    the slot the manager is still creating a thread for: the releasing
    worker's identity is not the content of that slot. *)
Definition spares_leftover (s : sys_state) (o : sys_op) : bool :=
  match o, s_pc s with
  | SysRelease my_tid, MgrCreating i _ _ =>
      negb (slot (slave_thread_id (s_adm s)) (Z.to_nat i) =? my_tid)
  | _, _ => true
  end.

(** Every release of the run spares the leftover. *)
Fixpoint leftovers_spared {codes : slurm_codes} (s : sys_state) (ops : list sys_op)
    : bool :=
  match ops with
  | [] => true
  | o :: ops' =>
      spares_leftover s o
      && match sys_step s o with
         | SysNext s' => leftovers_spared s' ops'
         | SysFatal | SysNotEnabled => true
         end
  end.

(** ** What the connection still has to deliver

    The bytes queued ahead of the first end of file or error. *)
Fixpoint leading_bytes (s : list chunk) : list byte :=
  match s with
  | Bytes bs :: rest => bs ++ leading_bytes rest
  | _ => []
  end.

(** The payload loop entered at [offset] with buffer [msg] and the stream
    [s], left at [o] with buffer [m] and the stream [s']: the buffer has
    kept its size, the bytes stored between [offset] and [o] are the next
    bytes of the stream, and a payload that is complete has left the bytes
    behind it in the queue. *)
Definition reads_prefix (L offset : Z) (msg : list byte) (s s' : list chunk)
    (o : Z) (m : list byte) : Prop :=
  offset <= o <= L
  /\ length m = Z.to_nat L
  /\ exists got k,
       length got = Z.to_nat (o - offset)
       /\ m = take (Z.to_nat offset) msg ++ got ++ drop (Z.to_nat o) msg
       /\ leading_bytes s = got ++ k
       /\ (o = L -> k = leading_bytes s').

(** ** The handling of one frame in the trace *)

Definition frame_event (e : event) : bool :=
  match e with
  | EvXmalloc _ | EvProcReq _ _ _ _ | EvMakeRcMsg _ _ | EvSend _ _
  | EvFreeBuf | EvXfreeMsg => true
  | _ => false
  end.

Definition frame_events (tr : trace) : trace := List.filter frame_event tr.

Definition plain (e : event) : bool := negb (frame_event e).

(** The frames of a connection, [first] telling whether [proc_req] has not
    been called yet: a request is allocated, handed whole to [proc_req],
    answered and freed; a payload cut short is allocated, answered with the
    return-code message and freed, and nothing follows it. *)
Inductive framed : bool -> trace -> Prop :=
| FramedNone first : framed first []
| FramedRequest first L msg rc b r rest :
    2 <= L <= MAX_MSG_SIZE ->
    length msg = Z.to_nat L ->
    framed false rest ->
    framed first (EvXmalloc L :: EvProcReq msg L first rc :: EvSend b r
                    :: EvFreeBuf :: EvXfreeMsg :: rest)
| FramedShort first L rc comment r :
    2 <= L <= MAX_MSG_SIZE ->
    framed first [EvXmalloc L; EvMakeRcMsg rc comment;
                  EvSend (BufRcMsg rc comment) r; EvFreeBuf; EvXfreeMsg].

(** Whenever [m] returns, the events it added and its result satisfy [Q]. *)
Definition yields {A} (m : io A) (Q : trace -> A -> Prop) : Prop :=
  forall w a w',
    m w = Ret a w' -> exists tr, w_trace w' = w_trace w ++ tr /\ Q tr a.

(** What a pass of the request loop adds to the frames: nothing when it
    leaves through [break]; otherwise one request, after which [first] is
    false, or one payload cut short, after which [fini] is set. *)
Definition pass_framed (first : bool) (tr : trace) (r : loop_state * bool) : Prop :=
  (snd r = true /\ frame_events tr = [])
  \/ (snd r = false
      /\ ((l_first (fst r) = false
           /\ forall rest, framed false rest -> framed first (frame_events tr ++ rest))
          \/ (l_fini (fst r) = true /\ framed first (frame_events tr)))).

(** A step that leaves the shutdown flag set. *)
Definition stays_down (o : sys_op) : bool :=
  match o with
  | SysShutdown t => negb (t =? 0)
  | _ => true
  end.

(** Whenever [m] blocks for ever, the events it added satisfy [Q]. *)
Definition hangs {A} (m : io A) (Q : trace -> Prop) : Prop :=
  forall w w', m w = Hang w' -> exists tr, w_trace w' = w_trace w ++ tr /\ Q tr.

(** [m] adds nothing to the frames, whether it returns or blocks. *)
Definition silent {A} (m : io A) : Prop :=
  forall w,
    match m w with
    | Ret _ w' | Hang w' =>
        exists tr, w_trace w' = w_trace w ++ tr /\ frame_events tr = []
    | Fatal _ | OutOfFuel => True
    end.

(** The frames so far can be completed. *)
Definition frame_open (first : bool) (sh : trace) : Prop :=
  exists ext, framed first (sh ++ ext).

(** ** Reads and the polls that announce them

    What the last event lets the worker read: a [poll] that reported input
    announces its descriptor, anything else announces nothing. *)
Definition announced_by (e : event) : option Z :=
  match e with
  | EvPoll cfd p => if poll_ready p then Some cfd else None
  | _ => None
  end.

(** Every [read] of the trace is on the descriptor announced just before
    it; [ready] is what has been announced when the trace starts. *)
Fixpoint reads_announced (ready : option Z) (tr : trace) : bool :=
  match tr with
  | [] => true
  | e :: rest =>
      match e with
      | EvRead cfd _ _ =>
          match ready with Some a => a =? cfd | None => false end
      | _ => true
      end && reads_announced (announced_by e) rest
  end.

(** What is announced at the end of the trace. *)
Fixpoint announced_after (ready : option Z) (tr : trace) : option Z :=
  match tr with
  | [] => ready
  | e :: rest => announced_after (announced_by e) rest
  end.

(** [m], started with [pre] announced, reads only what has been announced;
    when it returns, its result and what is announced then satisfy [post]. *)
Definition announces {A} (m : io A) (pre : option Z)
    (post : A -> option Z -> Prop) : Prop :=
  forall w,
    match m w with
    | Ret a w' =>
        exists tr, w_trace w' = w_trace w ++ tr
                   /\ reads_announced pre tr = true
                   /\ post a (announced_after pre tr)
    | Hang w' =>
        exists tr, w_trace w' = w_trace w ++ tr /\ reads_announced pre tr = true
    | Fatal _ => False
    | OutOfFuel => True
    end.

(** The manager's registration, [master_thread_id = pthread_self()]. *)
Definition is_register (o : op) : bool :=
  match o with OpRegister _ => true | _ => false end.

(** * Properties of the admission controller *)

Section AdmissionFacts.

Lemma find_free_slot_spec tab n i :
  (find_free_slot tab i n = -1
   /\ forall j, (i <= j < i + n)%nat -> slot tab j <> 0)
  \/ (exists k, (i <= k < i + n)%nat
        /\ find_free_slot tab i n = Z.of_nat k
        /\ slot tab k = 0
        /\ forall j, (i <= j < k)%nat -> slot tab j <> 0).
Proof.
  revert i. induction n as [|n IH]; intros i; simpl.
  - left. split; [reflexivity | intros j Hj; lia].
  - destruct (Z.eqb_spec (slot tab i) 0) as [Hz | Hnz]; simpl.
    + right. exists i. repeat split; first [lia | assumption].
    + destruct (IH (S i)) as [[Hr Hall] | (k & Hk & Hr & Hz & Hlow)].
      * left. split; [exact Hr |].
        intros j Hj. destruct (Nat.eq_dec j i) as [-> | Hne]; [exact Hnz |].
        apply Hall. lia.
      * right. exists k. repeat split; try lia; try assumption.
        intros j Hj. destruct (Nat.eq_dec j i) as [-> | Hne]; [exact Hnz |].
        apply Hlow. lia.
Qed.

Lemma find_free_slot_lowest tab i :
  lowest_free tab i ->
  find_free_slot tab 0 (Z.to_nat MAX_THREAD_COUNT) = Z.of_nat i.
Proof.
  intros (Hi & Hz & Hlow).
  destruct (find_free_slot_spec tab (Z.to_nat MAX_THREAD_COUNT) 0)
    as [[_ Hall] | (k & Hk & Hr & Hkz & Hklow)].
  - exfalso. apply (Hall i); [lia | exact Hz].
  - rewrite Hr. f_equal.
    destruct (Nat.lt_trichotomy k i) as [Hlt | [-> | Hgt]]; [| reflexivity |].
    + exfalso. exact (Hlow k Hlt Hkz).
    + exfalso. apply (Hklow i); [lia | exact Hz].
Qed.

Lemma find_free_slot_full tab :
  table_full tab ->
  find_free_slot tab 0 (Z.to_nat MAX_THREAD_COUNT) = -1.
Proof.
  intros Hfull.
  destruct (find_free_slot_spec tab (Z.to_nat MAX_THREAD_COUNT) 0)
    as [[Hr _] | (k & Hk & _ & Hkz & _)]; [exact Hr |].
  exfalso. apply (Hfull k); [lia | exact Hkz].
Qed.

Lemma find_free_slot_inv tab rc :
  find_free_slot tab 0 (Z.to_nat MAX_THREAD_COUNT) = rc ->
  (rc = -1 /\ table_full tab)
  \/ (exists i, rc = Z.of_nat i /\ lowest_free tab i).
Proof.
  intros <-.
  destruct (find_free_slot_spec tab (Z.to_nat MAX_THREAD_COUNT) 0)
    as [[Hr Hall] | (k & Hk & Hr & Hkz & Hklow)].
  - left. split; [exact Hr |]. intros j Hj. apply Hall. lia.
  - right. exists k. split; [exact Hr |].
    repeat split; [lia | exact Hkz |]. intros j Hj. apply Hklow. lia.
Qed.

(** What one pass of the admission loop does, case by case. *)
Lemma pass_shutdown self now p st :
  shutdown_time st <> 0 ->
  wait_for_server_thread_pass self now p st
  = WaitReturn (-1) st [EvMutexUnlock thread_count_lock].
Proof.
  intros H. unfold wait_for_server_thread_pass.
  destruct (Z.eqb_spec (shutdown_time st) 0); [contradiction | reflexivity].
Qed.

Lemma pass_blocked self now p st :
  shutdown_time st = 0 ->
  MAX_THREAD_COUNT <= thread_count st ->
  exists st1 tr,
    wait_for_server_thread_pass self now p st
    = WaitBlocked false (set_waiters (self :: cond_waiters st) st1) tr
    /\ thread_count st1 = thread_count st
    /\ slave_thread_id st1 = slave_thread_id st
    /\ last tr = Some EvCondWait.
Proof.
  intros Hs Hc. unfold wait_for_server_thread_pass.
  rewrite Hs. simpl.
  destruct (Z.ltb_spec (thread_count st) MAX_THREAD_COUNT); [lia |].
  destruct p; [destruct (now - last_print_time st >? 2) |].
  - exists (set_last_print now st). eexists. repeat split.
  - exists st. eexists. repeat split.
  - exists st. eexists. repeat split.
Qed.

Lemma pass_below_limit self now p st :
  shutdown_time st = 0 ->
  thread_count st < MAX_THREAD_COUNT ->
  wait_for_server_thread_pass self now p st
  = let st1 := set_count (thread_count st + 1) st in
    let rc := find_free_slot (slave_thread_id st) 0 (Z.to_nat MAX_THREAD_COUNT) in
    if rc =? -1 then WaitFatal st1 [EvLog LFatal "No free slave_thread_id"]
    else WaitReturn rc st1 [EvMutexUnlock thread_count_lock].
Proof.
  intros Hs Hc. unfold wait_for_server_thread_pass.
  rewrite Hs. change (negb (0 =? 0)) with false. cbv iota.
  destruct (Z.ltb_spec (thread_count st) MAX_THREAD_COUNT); [reflexivity | lia].
Qed.

Lemma pass_granted self now p st i :
  shutdown_time st = 0 ->
  thread_count st < MAX_THREAD_COUNT ->
  lowest_free (slave_thread_id st) i ->
  wait_for_server_thread_pass self now p st
  = WaitReturn (Z.of_nat i) (set_count (thread_count st + 1) st)
               [EvMutexUnlock thread_count_lock].
Proof.
  intros Hs Hc Hfree. rewrite (pass_below_limit _ _ _ _ Hs Hc). cbv zeta.
  rewrite (find_free_slot_lowest _ _ Hfree).
  destruct (Z.eqb_spec (Z.of_nat i) (-1)); [lia | reflexivity].
Qed.

Lemma pass_fatal self now p st :
  shutdown_time st = 0 ->
  thread_count st < MAX_THREAD_COUNT ->
  table_full (slave_thread_id st) ->
  wait_for_server_thread_pass self now p st
  = WaitFatal (set_count (thread_count st + 1) st)
              [EvLog LFatal "No free slave_thread_id"].
Proof.
  intros Hs Hc Hfull. rewrite (pass_below_limit _ _ _ _ Hs Hc). cbv zeta.
  rewrite (find_free_slot_full _ Hfull). reflexivity.
Qed.

Lemma pass_return_inv self now p st rc st' tr :
  wait_for_server_thread_pass self now p st = WaitReturn rc st' tr ->
  0 <= rc ->
  shutdown_time st = 0
  /\ thread_count st < MAX_THREAD_COUNT
  /\ st' = set_count (thread_count st + 1) st
  /\ exists i, rc = Z.of_nat i /\ lowest_free (slave_thread_id st) i.
Proof.
  destruct (Z.eq_dec (shutdown_time st) 0) as [Hs | Hs].
  - destruct (Z.lt_ge_cases (thread_count st) MAX_THREAD_COUNT) as [Hc | Hc].
    + rewrite (pass_below_limit _ _ _ _ Hs Hc). cbv zeta.
      destruct (find_free_slot_inv (slave_thread_id st) _ eq_refl)
        as [[Hr _] | (i & Hr & Hfree)]; rewrite Hr.
      * discriminate.
      * destruct (Z.eqb_spec (Z.of_nat i) (-1)); [lia |].
        intros [= <- <- <-] _.
        split; [exact Hs |]. split; [exact Hc |]. split; [reflexivity |].
        exists i. split; [reflexivity | exact Hfree].
    + destruct (pass_blocked self now p st Hs Hc) as (st1 & tr1 & -> & _).
      discriminate.
  - rewrite (pass_shutdown _ _ _ _ Hs). intros [= <- <- <-] Hrc. lia.
Qed.

Lemma free_server_thread_count my_tid st :
  thread_count (fst (_free_server_thread my_tid st))
  = if thread_count st >? 0 then thread_count st - 1 else thread_count st.
Proof.
  unfold _free_server_thread, forget_thread, count_down.
  destruct (thread_count st >? 0); destruct (negb (my_tid =? 0)); reflexivity.
Qed.

Lemma step_count_ok st o st' :
  count_ok st -> step st o = Some st' -> count_ok st'.
Proof.
  unfold count_ok. intros Hok.
  destruct o as [s | s n p | i t | t | t]; cbn [step].
  - intros [= <-]. exact Hok.
  - destruct (Z.eq_dec (shutdown_time st) 0) as [Hs | Hs].
    + destruct (Z.lt_ge_cases (thread_count st) MAX_THREAD_COUNT) as [Hc | Hc].
      * rewrite (pass_below_limit _ _ _ _ Hs Hc). cbv zeta.
        destruct (_ =? -1); [discriminate |].
        intros [= <-]. cbn [thread_count set_count]. lia.
      * destruct (pass_blocked s n p st Hs Hc) as (st1 & tr1 & -> & Hc1 & _).
        intros [= <-]. cbn [thread_count set_waiters]. lia.
    + rewrite (pass_shutdown _ _ _ _ Hs). intros [= <-]. exact Hok.
  - intros [= <-]. exact Hok.
  - intros H.
    assert (st' = fst (_free_server_thread t st)) as -> by congruence.
    rewrite free_server_thread_count.
    destruct (Z.gtb_spec (thread_count st) 0); lia.
  - intros [= <-]. exact Hok.
Qed.

Lemma run_count_ok ops : forall st st',
  count_ok st -> run st ops = Some st' -> count_ok st'.
Proof.
  induction ops as [|o ops IH]; intros st st' Hok; simpl.
  - intros [= <-]. exact Hok.
  - destruct (step st o) as [st1|] eqn:Hstep; [| discriminate].
    apply IH. exact (step_count_ok _ _ _ Hok Hstep).
Qed.

(** While every wake-up finds the count at the limit and no shutdown, the
    caller of [_wait_for_server_thread] stays blocked. *)
Lemma wait_loop_stays_blocked self wakeups : forall p now st acc,
  thread_count st = MAX_THREAD_COUNT -> shutdown_time st = 0 ->
  Forall (fun ns => thread_count (snd ns) = MAX_THREAD_COUNT
                    /\ shutdown_time (snd ns) = 0) wakeups ->
  wait_loop self p now st wakeups acc = None.
Proof.
  induction wakeups as [|[now' st''] rest IH]; intros p now st acc Hc Hs Hall;
    cbn [wait_loop];
    destruct (pass_blocked self now p st Hs ltac:(lia)) as (st1 & tr & -> & _).
  - reflexivity.
  - inversion Hall as [|? ? [Hc' Hs'] Hrest]; subst.
    apply IH; assumption.
Qed.

(** The scan of [_free_server_thread], specified. *)
Lemma clear_slot_spec my_tid tab n i :
  (clear_slot my_tid tab i n = (tab, false)
   /\ forall j, (i <= j < i + n)%nat -> slot tab j <> my_tid)
  \/ (exists k, (i <= k < i + n)%nat
        /\ clear_slot my_tid tab i n = (<[k := 0]> tab, true)
        /\ slot tab k = my_tid
        /\ forall j, (i <= j < k)%nat -> slot tab j <> my_tid).
Proof.
  revert i. induction n as [|n IH]; intros i; cbn [clear_slot].
  - left. split; [reflexivity | intros j Hj; lia].
  - destruct (Z.eqb_spec (slot tab i) my_tid) as [Hz | Hnz]; cbn [negb].
    + right. exists i. repeat split; first [lia | assumption].
    + destruct (IH (S i)) as [[Hr Hall] | (k & Hk & Hr & Hz & Hlow)].
      * left. split; [exact Hr |].
        intros j Hj. destruct (Nat.eq_dec j i) as [-> | Hne]; [exact Hnz |].
        apply Hall. lia.
      * right. exists k. split; [lia |]. split; [exact Hr |].
        split; [exact Hz |].
        intros j Hj. destruct (Nat.eq_dec j i) as [-> | Hne]; [exact Hnz |].
        apply Hlow. lia.
Qed.

Lemma clear_slot_first my_tid tab i :
  (i < Z.to_nat MAX_THREAD_COUNT)%nat ->
  slot tab i = my_tid ->
  (forall j, (j < i)%nat -> slot tab j <> my_tid) ->
  clear_slot my_tid tab 0 (Z.to_nat MAX_THREAD_COUNT) = (<[i := 0]> tab, true).
Proof.
  intros Hi Hz Hlow.
  destruct (clear_slot_spec my_tid tab (Z.to_nat MAX_THREAD_COUNT) 0)
    as [[_ Hall] | (k & Hk & Hr & Hkz & Hklow)].
  - exfalso. apply (Hall i); [lia | exact Hz].
  - rewrite Hr.
    destruct (Nat.lt_trichotomy k i) as [Hlt | [-> | Hgt]]; [| reflexivity |].
    + exfalso. exact (Hlow k Hlt Hkz).
    + exfalso. apply (Hklow i); [lia | exact Hz].
Qed.

Lemma slot_insert_eq tab i v :
  slot tab i <> 0 -> slot (<[i := v]> tab) i = v.
Proof.
  unfold slot. intros H.
  destruct (tab !! i) as [x|] eqn:E; [| contradiction].
  rewrite list_lookup_insert_eq; [reflexivity |].
  apply lookup_lt_Some in E. exact E.
Qed.

Lemma slot_insert_ne tab i j v :
  i <> j -> slot (<[i := v]> tab) j = slot tab j.
Proof.
  unfold slot. intros H. rewrite list_lookup_insert_ne; [reflexivity | exact H].
Qed.

(** The parts of [_free_server_thread]. *)
Lemma count_down_log st e :
  In e (snd (count_down st)) ->
  e = EvLog LError "thread_count underflow" /\ thread_count st <= 0.
Proof.
  unfold count_down.
  destruct (Z.gtb_spec (thread_count st) 0) as [Hc | Hc]; cbn [snd In].
  - intros [].
  - intros [<- | []]. split; [reflexivity | exact Hc].
Qed.

Lemma forget_thread_log my_tid st e :
  In e (snd (forget_thread my_tid st)) ->
  e = EvLog LError "Could not find slave_thread_id".
Proof.
  unfold forget_thread.
  destruct (negb (my_tid =? 0)); cbn [snd]; [| intros []].
  destruct (snd (clear_slot _ _ _ _)); cbn [In]; [intros [] |].
  intros [<- | []]. reflexivity.
Qed.

Lemma free_server_thread_trace my_tid st :
  snd (_free_server_thread my_tid st)
  = EvMutexLock thread_count_lock
      :: (snd (count_down st) ++ snd (forget_thread my_tid (fst (count_down st))))
      ++ [EvCondBroadcast; EvMutexUnlock thread_count_lock].
Proof.
  unfold _free_server_thread. cbn [snd app]. rewrite <- app_assoc. reflexivity.
Qed.

Lemma free_server_thread_slaves_found my_tid st i :
  my_tid <> 0 ->
  (i < Z.to_nat MAX_THREAD_COUNT)%nat ->
  slot (slave_thread_id st) i = my_tid ->
  (forall j, (j < i)%nat -> slot (slave_thread_id st) j <> my_tid) ->
  slave_thread_id (fst (_free_server_thread my_tid st))
  = <[i := 0]> (slave_thread_id st)
  /\ ~ In (EvLog LError "Could not find slave_thread_id")
          (snd (_free_server_thread my_tid st)).
Proof.
  intros Hnz Hi Hz Hlow.
  assert (Hsl : slave_thread_id (fst (count_down st)) = slave_thread_id st).
  { unfold count_down. destruct (thread_count st >? 0); reflexivity. }
  assert (Hf : forget_thread my_tid (fst (count_down st))
               = (set_slaves (<[i := 0]> (slave_thread_id st)) (fst (count_down st)), [])).
  { unfold forget_thread.
    destruct (Z.eqb_spec my_tid 0) as [? | _]; [contradiction |]. cbn [negb].
    rewrite Hsl, (clear_slot_first my_tid _ i Hi Hz Hlow). reflexivity. }
  split.
  - unfold _free_server_thread. cbn [fst]. rewrite Hf. reflexivity.
  - rewrite free_server_thread_trace, Hf. cbn [snd].
    rewrite app_nil_r. cbn [In]. rewrite in_app_iff. cbn [In].
    intros [H | [H | [H | [H | []]]]]; try discriminate H.
    apply count_down_log in H. destruct H as [H _]. discriminate H.
Qed.

Lemma free_server_thread_slaves_zero st :
  slave_thread_id (fst (_free_server_thread 0 st)) = slave_thread_id st.
Proof.
  unfold _free_server_thread, forget_thread, count_down.
  destruct (thread_count st >? 0); reflexivity.
Qed.

Lemma free_server_thread_log my_tid st :
  In (EvLog LError "thread_count underflow") (snd (_free_server_thread my_tid st))
  <-> thread_count st <= 0.
Proof.
  rewrite free_server_thread_trace. cbn [In]. rewrite !in_app_iff. cbn [In].
  split.
  - intros [H | [[H | H] | [H | [H | []]]]]; try discriminate H.
    + apply count_down_log in H. apply H.
    + apply forget_thread_log in H. discriminate H.
  - intros Hc. right. left. left. unfold count_down.
    destruct (Z.gtb_spec (thread_count st) 0); [lia |]. left. reflexivity.
Qed.

Lemma free_server_thread_wakes my_tid st :
  cond_waiters (fst (_free_server_thread my_tid st)) = []
  /\ exists tr1,
       snd (_free_server_thread my_tid st)
       = EvMutexLock thread_count_lock :: tr1
           ++ [EvCondBroadcast; EvMutexUnlock thread_count_lock]
       /\ ~ In EvCondBroadcast tr1.
Proof.
  split; [reflexivity |].
  eexists. split; [apply free_server_thread_trace |].
  rewrite in_app_iff. intros [H | H].
  - apply count_down_log in H. destruct H as [H _]. discriminate H.
  - apply forget_thread_log in H. discriminate H.
Qed.

Lemma free_server_thread_frame my_tid st :
  master_thread_id (fst (_free_server_thread my_tid st)) = master_thread_id st
  /\ shutdown_time (fst (_free_server_thread my_tid st)) = shutdown_time st.
Proof.
  unfold _free_server_thread, forget_thread, count_down.
  destruct (thread_count st >? 0); destruct (negb (my_tid =? 0)); split; reflexivity.
Qed.

(** The scan of [rpc_mgr_wake]: who is signalled. *)
Lemma signalled_app tr1 tr2 :
  signalled (tr1 ++ tr2) = signalled tr1 ++ signalled tr2.
Proof. unfold signalled. apply omap_app. Qed.

Lemma kill_slaves_only_kills tab n : forall i,
  Forall (fun e => exists t, e = EvKill t SIGUSR1 /\ t <> 0) (kill_slaves tab i n).
Proof.
  induction n as [|n IH]; intros i; cbn [kill_slaves]; [constructor |].
  apply Forall_app. split; [| apply IH].
  destruct (Z.eqb_spec (slot tab i) 0) as [Hz | Hnz]; cbn [negb]; constructor.
  - exists (slot tab i). split; [reflexivity | exact Hnz].
  - constructor.
Qed.

Lemma kill_slaves_signalled tab n : forall i t,
  In t (signalled (kill_slaves tab i n))
  <-> t <> 0 /\ exists j, (i <= j < i + n)%nat /\ slot tab j = t.
Proof.
  induction n as [|n IH]; intros i t; cbn [kill_slaves].
  - cbn. split; [intros [] | intros (_ & j & Hj & _); lia].
  - rewrite signalled_app, in_app_iff, IH. split.
    + intros [H | (Hnz & j & Hj & Hs)].
      * destruct (Z.eqb_spec (slot tab i) 0) as [Hz | Hnz]; cbn in H;
          [destruct H | destruct H as [<- | []]].
        split; [exact Hnz |]. exists i. split; [lia | reflexivity].
      * split; [exact Hnz |]. exists j. split; [lia | exact Hs].
    + intros (Hnz & j & Hj & Hs).
      destruct (Nat.eq_dec j i) as [-> | Hne].
      * left. destruct (Z.eqb_spec (slot tab i) 0) as [Hz | _]; [congruence |].
        cbn. left. exact Hs.
      * right. split; [exact Hnz |]. exists j. split; [lia | exact Hs].
Qed.

Lemma kill_slaves_clear tab n : forall i,
  (forall j, (i <= j < i + n)%nat -> slot tab j = 0) ->
  kill_slaves tab i n = [].
Proof.
  induction n as [|n IH]; intros i Hz; cbn [kill_slaves]; [reflexivity |].
  rewrite (Hz i) by lia. rewrite IH; [reflexivity |].
  intros j Hj. apply Hz. lia.
Qed.

Lemma rpc_mgr_wake_signalled st t :
  In t (signalled (rpc_mgr_wake st))
  <-> t <> 0
      /\ (t = master_thread_id st
          \/ exists j, (j < Z.to_nat MAX_THREAD_COUNT)%nat
                       /\ slot (slave_thread_id st) j = t).
Proof.
  unfold rpc_mgr_wake. rewrite !signalled_app, !in_app_iff, kill_slaves_signalled.
  split.
  - intros [H | [H | [(Hnz & j & Hj & Hs) | H]]].
    + destruct H.
    + destruct (Z.eqb_spec (master_thread_id st) 0) as [Hz | Hnz]; cbn in H;
        [destruct H | destruct H as [<- | []]].
      split; [exact Hnz | left; reflexivity].
    + split; [exact Hnz |]. right. exists j. split; [lia | exact Hs].
    + destruct H.
  - intros (Hnz & [-> | (j & Hj & Hs)]).
    + right. left.
      destruct (Z.eqb_spec (master_thread_id st) 0) as [Hz | _]; [congruence |].
      cbn. left. reflexivity.
    + right. right. left. split; [exact Hnz |]. exists j. split; [lia | exact Hs].
Qed.

Lemma replicate_slot n j : slot (replicate n 0) j = 0.
Proof.
  unfold slot. destruct (replicate n 0 !! j) as [x|] eqn:E; [| reflexivity].
  apply lookup_replicate in E. destruct E as [-> _]. reflexivity.
Qed.

End AdmissionFacts.

Lemma table_full_computed tab :
  find_free_slot tab 0 (Z.to_nat MAX_THREAD_COUNT) = -1 -> table_full tab.
Proof.
  intros H. destruct (find_free_slot_inv tab _ H) as [[_ Hf] | (i & Hi & _)];
    [exact Hf | lia].
Qed.

Lemma lowest_free_computed tab i :
  find_free_slot tab 0 (Z.to_nat MAX_THREAD_COUNT) = Z.of_nat i -> lowest_free tab i.
Proof.
  intros H. destruct (find_free_slot_inv tab _ H) as [[Hi _] | (k & Hk & Hf)];
    [lia |].
  apply Nat2Z.inj in Hk. subst k. exact Hf.
Qed.

Lemma free_server_thread_clears my_tid st i :
  my_tid <> 0 ->
  (i < Z.to_nat MAX_THREAD_COUNT)%nat ->
  slot (slave_thread_id st) i = my_tid ->
  exists k, (k <= i)%nat
    /\ slot (slave_thread_id st) k = my_tid
    /\ (forall j, (j < k)%nat -> slot (slave_thread_id st) j <> my_tid)
    /\ slave_thread_id (fst (_free_server_thread my_tid st))
       = <[k := 0]> (slave_thread_id st).
Proof.
  intros Hnz Hi Hs.
  destruct (clear_slot_spec my_tid (slave_thread_id st) (Z.to_nat MAX_THREAD_COUNT) 0)
    as [[_ Hall] | (k & Hk & _ & Hkz & Hklow)].
  - exfalso. apply (Hall i); [lia | exact Hs].
  - exists k.
    assert (Hlow : forall j, (j < k)%nat -> slot (slave_thread_id st) j <> my_tid)
      by (intros j Hj; apply Hklow; lia).
    split.
    + destruct (Nat.le_gt_cases k i) as [Hle | Hgt]; [exact Hle |].
      exfalso. exact (Hlow i Hgt Hs).
    + split; [exact Hkz |]. split; [exact Hlow |].
      apply free_server_thread_slaves_found; [exact Hnz | lia | exact Hkz | exact Hlow].
Qed.

Lemma count_events_app P tr1 tr2 :
  count_events P (tr1 ++ tr2) = (count_events P tr1 + count_events P tr2)%nat.
Proof. unfold count_events. rewrite List.filter_app, length_app. reflexivity. Qed.

(** A pass that finds the count at the limit: what it leaves in the trace. *)
Lemma pass_at_limit self now p st :
  at_limit st ->
  exists st1 tr,
    wait_for_server_thread_pass self now p st = WaitBlocked false st1 tr
    /\ count_events is_cond_wait tr = 1%nat
    /\ count_events is_verbose tr
       = (if p && (now - last_print_time st >? 2) then 1 else 0)%nat
    /\ forallb (fun e => is_verbose e || is_cond_wait e) tr = true.
Proof.
  intros [Hc Hs]. unfold wait_for_server_thread_pass.
  rewrite Hs. change (negb (0 =? 0)) with false. cbv iota.
  destruct (Z.ltb_spec (thread_count st) MAX_THREAD_COUNT); [lia |].
  destruct p; [destruct (now - last_print_time st >? 2) |];
    eexists; eexists; (split; [reflexivity |]); repeat split.
Qed.

Lemma wait_loop_sleeps self : forall blocked p now st acc now' st' rest,
  at_limit st ->
  Forall (fun ns => at_limit (snd ns)) blocked ->
  exists tr,
    wait_loop self p now st (blocked ++ (now', st') :: rest) acc
    = wait_loop self false now' st' rest (acc ++ tr)
    /\ count_events is_cond_wait tr = S (length blocked)
    /\ count_events is_verbose tr
       = (if p && (now - last_print_time st >? 2) then 1 else 0)%nat
    /\ forallb (fun e => is_verbose e || is_cond_wait e) tr = true.
Proof.
  induction blocked as [|[nb sb] blocked IH];
    intros p now st acc now' st' rest Hst Hall;
    destruct (pass_at_limit self now p st Hst) as (st1 & tr1 & E & Hw & Hv & Hev);
    cbn [app wait_loop]; rewrite E.
  - exists tr1. repeat split; assumption.
  - pose proof (Forall_inv Hall) as Hsb. pose proof (Forall_inv_tail Hall) as Hall'.
    cbn [snd] in Hsb.
    destruct (IH false nb sb (acc ++ tr1) now' st' rest Hsb Hall')
      as (tr2 & E2 & Hw2 & Hv2 & Hev2).
    exists (tr1 ++ tr2). rewrite app_assoc. split; [exact E2 |].
    rewrite !count_events_app, Hw, Hw2, Hv, Hv2, forallb_app, Hev, Hev2.
    cbn [length andb]. repeat split; lia.
Qed.

(** A slot returned by the whole call was granted by the pass on one of the
    states the caller has read. *)
Lemma wait_loop_return_inv self : forall wakeups p now st acc rc st2 tr,
  wait_loop self p now st wakeups acc = Some (WaitReturn rc st2 tr) ->
  0 <= rc ->
  exists s,
    In s (st :: map snd wakeups)
    /\ shutdown_time s = 0
    /\ thread_count s < MAX_THREAD_COUNT
    /\ st2 = set_count (thread_count s + 1) s
    /\ exists i, rc = Z.of_nat i /\ lowest_free (slave_thread_id s) i.
Proof.
  induction wakeups as [|[nb sb] wakeups IH]; intros p now st acc rc st2 tr;
    cbn [wait_loop];
    destruct (wait_for_server_thread_pass self now p st) as [rc1 st1 tr1 | st1 tr1 | p1 st1 tr1]
      eqn:E; try discriminate.
  - intros [= <- <- <-] Hrc.
    destruct (pass_return_inv _ _ _ _ _ _ _ E Hrc) as (Hs & Hc & Hst & Hi).
    exists st. split; [left; reflexivity |]. auto.
  - intros [= <- <- <-] Hrc.
    destruct (pass_return_inv _ _ _ _ _ _ _ E Hrc) as (Hs & Hc & Hst & Hi).
    exists st. split; [left; reflexivity |]. auto.
  - intros E2 Hrc. destruct (IH _ _ _ _ _ _ _ E2 Hrc) as (s & Hin & Hrest).
    exists s. split; [right; exact Hin | exact Hrest].
Qed.

(** C1 -- Admission bound.  Whatever sequence of registrations, admission
    passes, thread creations, releases and shutdown the shared state goes
    through from its initial value, [thread_count] stays within
    [0, MAX_THREAD_COUNT].  With the count at the limit a pass of
    [_wait_for_server_thread] hands out no slot: it waits on the condition
    variable (and the whole call stays blocked as long as every wake-up finds
    the count at the limit), or, once shutdown is set, returns -1.  A pass
    that returns a slot has found the count below the limit, has incremented
    it, and returns the lowest clear index of the table; it does so whenever
    such an index exists.  With the count below the limit and no clear index
    the pass ends in [fatal].

    The call as a whole: entered with shutdown set it returns -1; entered
    with the count below the limit it returns at once, with the lowest clear
    index and the count incremented, or ends in [fatal] when the table has no
    clear index.  Entered at the limit it sleeps once for the state it found
    and once for every wake-up that still finds the limit reached, and what
    it does next is decided by the state read at the first other wake-up, not
    by the state it was entered with: -1 on shutdown, the lowest clear index
    of that state with its count incremented, or [fatal].  Conversely a slot
    the call returns was clear, and the lowest such, in a state the caller
    read with the count below the limit, and the count is that state's plus
    one. *)
Theorem admission_bound :
  (forall ops st, run init_state ops = Some st ->
     0 <= thread_count st <= MAX_THREAD_COUNT)
  /\ (forall self now p st,
        thread_count st = MAX_THREAD_COUNT -> shutdown_time st = 0 ->
        exists st1 tr,
          wait_for_server_thread_pass self now p st
          = WaitBlocked false (set_waiters (self :: cond_waiters st) st1) tr
          /\ thread_count st1 = MAX_THREAD_COUNT
          /\ slave_thread_id st1 = slave_thread_id st)
  /\ (forall self now st wakeups,
        thread_count st = MAX_THREAD_COUNT -> shutdown_time st = 0 ->
        Forall (fun ns => thread_count (snd ns) = MAX_THREAD_COUNT
                          /\ shutdown_time (snd ns) = 0) wakeups ->
        _wait_for_server_thread self now st wakeups = None)
  /\ (forall self now p st,
        shutdown_time st <> 0 ->
        wait_for_server_thread_pass self now p st
        = WaitReturn (-1) st [EvMutexUnlock thread_count_lock])
  /\ (forall self now p st rc st' tr,
        wait_for_server_thread_pass self now p st = WaitReturn rc st' tr ->
        0 <= rc ->
        thread_count st < MAX_THREAD_COUNT
        /\ st' = set_count (thread_count st + 1) st
        /\ exists i, rc = Z.of_nat i /\ lowest_free (slave_thread_id st) i)
  /\ (forall self now p st i,
        shutdown_time st = 0 -> thread_count st < MAX_THREAD_COUNT ->
        lowest_free (slave_thread_id st) i ->
        wait_for_server_thread_pass self now p st
        = WaitReturn (Z.of_nat i) (set_count (thread_count st + 1) st)
                     [EvMutexUnlock thread_count_lock])
  /\ (forall self now p st,
        shutdown_time st = 0 -> thread_count st < MAX_THREAD_COUNT ->
        table_full (slave_thread_id st) ->
        wait_for_server_thread_pass self now p st
        = WaitFatal (set_count (thread_count st + 1) st)
                    [EvLog LFatal "No free slave_thread_id"])
  /\ (forall self now st wakeups,
        shutdown_time st <> 0 ->
        _wait_for_server_thread self now st wakeups
        = Some (WaitReturn (-1) st
                  [EvMutexLock thread_count_lock; EvMutexUnlock thread_count_lock]))
  /\ (forall self now st wakeups i,
        shutdown_time st = 0 -> thread_count st < MAX_THREAD_COUNT ->
        lowest_free (slave_thread_id st) i ->
        _wait_for_server_thread self now st wakeups
        = Some (WaitReturn (Z.of_nat i) (set_count (thread_count st + 1) st)
                  [EvMutexLock thread_count_lock; EvMutexUnlock thread_count_lock]))
  /\ (forall self now st wakeups,
        shutdown_time st = 0 -> thread_count st < MAX_THREAD_COUNT ->
        table_full (slave_thread_id st) ->
        _wait_for_server_thread self now st wakeups
        = Some (WaitFatal (set_count (thread_count st + 1) st)
                  [EvMutexLock thread_count_lock;
                   EvLog LFatal "No free slave_thread_id"]))
  /\ (forall self now st blocked now' st' rest,
        at_limit st ->
        Forall (fun ns => at_limit (snd ns)) blocked ->
        exists tr,
          count_events is_cond_wait tr = S (length blocked)
          /\ forallb (fun e => is_verbose e || is_cond_wait e) tr = true
          /\ (shutdown_time st' <> 0 ->
              _wait_for_server_thread self now st (blocked ++ (now', st') :: rest)
              = Some (WaitReturn (-1) st'
                        (EvMutexLock thread_count_lock :: tr
                           ++ [EvMutexUnlock thread_count_lock])))
          /\ (forall i,
                shutdown_time st' = 0 -> thread_count st' < MAX_THREAD_COUNT ->
                lowest_free (slave_thread_id st') i ->
                _wait_for_server_thread self now st (blocked ++ (now', st') :: rest)
                = Some (WaitReturn (Z.of_nat i)
                          (set_count (thread_count st' + 1) st')
                          (EvMutexLock thread_count_lock :: tr
                             ++ [EvMutexUnlock thread_count_lock])))
          /\ (shutdown_time st' = 0 -> thread_count st' < MAX_THREAD_COUNT ->
              table_full (slave_thread_id st') ->
              _wait_for_server_thread self now st (blocked ++ (now', st') :: rest)
              = Some (WaitFatal (set_count (thread_count st' + 1) st')
                        (EvMutexLock thread_count_lock :: tr
                           ++ [EvLog LFatal "No free slave_thread_id"]))))
  /\ (forall self now st wakeups rc st2 tr,
        _wait_for_server_thread self now st wakeups = Some (WaitReturn rc st2 tr) ->
        0 <= rc ->
        exists s,
          In s (st :: map snd wakeups)
          /\ shutdown_time s = 0
          /\ thread_count s < MAX_THREAD_COUNT
          /\ st2 = set_count (thread_count s + 1) s
          /\ thread_count st2 <= MAX_THREAD_COUNT
          /\ exists i, rc = Z.of_nat i /\ lowest_free (slave_thread_id s) i).
Proof.
  split; [| split; [| split; [| split; [| split; [| split; [| split;
    [| split; [| split; [| split; [| split]]]]]]]]]].
  - intros ops st Hrun.
    apply (run_count_ok ops init_state st); [| exact Hrun].
    unfold count_ok, init_state, MAX_THREAD_COUNT. cbn [thread_count]. lia.
  - intros self now p st Hc Hs.
    destruct (pass_blocked self now p st Hs ltac:(lia)) as (st1 & tr & E & H1 & H2 & _).
    exists st1, tr. split; [exact E |]. split; [lia | exact H2].
  - intros self now st wakeups Hc Hs Hall.
    apply wait_loop_stays_blocked; assumption.
  - intros self now p st Hs. apply pass_shutdown. exact Hs.
  - intros self now p st rc st' tr E Hrc.
    destruct (pass_return_inv _ _ _ _ _ _ _ E Hrc) as (_ & Hc & Hst & Hi).
    split; [exact Hc |]. split; [exact Hst | exact Hi].
  - intros self now p st i. apply pass_granted.
  - intros self now p st. apply pass_fatal.
  - intros self now st wakeups Hs. unfold _wait_for_server_thread.
    destruct wakeups; cbn [wait_loop]; rewrite (pass_shutdown _ _ _ _ Hs); reflexivity.
  - intros self now st wakeups i Hs Hc Hfree. unfold _wait_for_server_thread.
    destruct wakeups; cbn [wait_loop];
      rewrite (pass_granted _ _ _ _ _ Hs Hc Hfree); reflexivity.
  - intros self now st wakeups Hs Hc Hfull. unfold _wait_for_server_thread.
    destruct wakeups; cbn [wait_loop];
      rewrite (pass_fatal _ _ _ _ Hs Hc Hfull); reflexivity.
  - intros self now st blocked now' st' rest Hst Hall.
    unfold _wait_for_server_thread.
    destruct (wait_loop_sleeps self blocked true now st
                [EvMutexLock thread_count_lock] now' st' rest Hst Hall)
      as (tr & E & Hw & _ & Hev).
    rewrite E. exists tr. split; [exact Hw |]. split; [exact Hev |].
    split; [| split].
    + intros Hs.
      destruct rest; cbn [wait_loop]; rewrite (pass_shutdown _ _ _ _ Hs); reflexivity.
    + intros i Hs Hc Hfree.
      destruct rest; cbn [wait_loop];
        rewrite (pass_granted _ _ _ _ _ Hs Hc Hfree); reflexivity.
    + intros Hs Hc Hfull.
      destruct rest; cbn [wait_loop];
        rewrite (pass_fatal _ _ _ _ Hs Hc Hfull); reflexivity.
  - intros self now st wakeups rc st2 tr E Hrc.
    destruct (wait_loop_return_inv _ _ _ _ _ _ _ _ _ E Hrc)
      as (s & Hin & Hs & Hc & Hst & Hi).
    exists s. split; [exact Hin |]. split; [exact Hs |]. split; [exact Hc |].
    split; [exact Hst |]. split; [| exact Hi].
    rewrite Hst. cbn [thread_count set_count]. lia.
Qed.

Lemma admission_bound_witness :
  (exists st,
     run init_state [OpRegister 1; OpAcquire 1 0 true; OpCreated 0 2; OpRelease 2]
     = Some st
     /\ 0 <= thread_count st <= MAX_THREAD_COUNT)
  /\ (exists st1 tr,
        wait_for_server_thread_pass 1 0 true full_state
        = WaitBlocked false (set_waiters (1 :: cond_waiters full_state) st1) tr
        /\ thread_count st1 = MAX_THREAD_COUNT
        /\ slave_thread_id st1 = slave_thread_id full_state)
  /\ _wait_for_server_thread 1 0 full_state [(3, full_state)] = None
  /\ wait_for_server_thread_pass 1 0 true (set_shutdown 9 full_state)
     = WaitReturn (-1) (set_shutdown 9 full_state) [EvMutexUnlock thread_count_lock]
  /\ (thread_count init_state < MAX_THREAD_COUNT
      /\ set_count 1 init_state = set_count (thread_count init_state + 1) init_state
      /\ exists i, 0 = Z.of_nat i /\ lowest_free (slave_thread_id init_state) i)
  /\ wait_for_server_thread_pass 1 0 true init_state
     = WaitReturn (Z.of_nat 0) (set_count (thread_count init_state + 1) init_state)
                  [EvMutexUnlock thread_count_lock]
  /\ wait_for_server_thread_pass 1 0 true (set_count 99 full_state)
     = WaitFatal (set_count (thread_count (set_count 99 full_state) + 1)
                            (set_count 99 full_state))
                 [EvLog LFatal "No free slave_thread_id"]
  /\ _wait_for_server_thread 1 0 (set_shutdown 9 full_state) [(3, full_state)]
     = Some (WaitReturn (-1) (set_shutdown 9 full_state)
               [EvMutexLock thread_count_lock; EvMutexUnlock thread_count_lock])
  /\ _wait_for_server_thread 1 0 init_state []
     = Some (WaitReturn (Z.of_nat 0) (set_count (thread_count init_state + 1) init_state)
               [EvMutexLock thread_count_lock; EvMutexUnlock thread_count_lock])
  /\ _wait_for_server_thread 1 0 (set_count 99 full_state) []
     = Some (WaitFatal (set_count (thread_count (set_count 99 full_state) + 1)
                                  (set_count 99 full_state))
               [EvMutexLock thread_count_lock;
                EvLog LFatal "No free slave_thread_id"])
  /\ (exists tr,
        _wait_for_server_thread 1 0 full_state
          [(1, full_state); (2, fst (_free_server_thread 5 full_state))]
        = Some (WaitReturn (Z.of_nat 3)
                  (set_count
                     (thread_count (fst (_free_server_thread 5 full_state)) + 1)
                     (fst (_free_server_thread 5 full_state)))
                  (EvMutexLock thread_count_lock :: tr
                     ++ [EvMutexUnlock thread_count_lock])))
  /\ (exists s,
        In s [init_state]
        /\ thread_count s < MAX_THREAD_COUNT
        /\ set_count 1 init_state = set_count (thread_count s + 1) s).
Proof.
  destruct admission_bound
    as (H1 & H2 & H3 & H4 & H5 & H6 & H7 & H8 & H9 & H10 & H11 & H12).
  assert (Hfull : at_limit full_state) by (split; [vm_compute; discriminate | reflexivity]).
  split; [| split; [| split; [| split; [| split; [| split; [| split;
    [| split; [| split; [| split; [| split]]]]]]]]]].
  - eexists. split; [vm_compute; reflexivity |].
    apply (H1 [OpRegister 1; OpAcquire 1 0 true; OpCreated 0 2; OpRelease 2]).
    vm_compute. reflexivity.
  - apply H2; reflexivity.
  - apply H3; [reflexivity | reflexivity |].
    constructor; [split; reflexivity | constructor].
  - apply H4. vm_compute. discriminate.
  - apply (H5 1 0 true init_state 0 (set_count 1 init_state)
              [EvMutexUnlock thread_count_lock]).
    + vm_compute. reflexivity.
    + vm_compute. discriminate.
  - apply H6; [reflexivity | vm_compute; reflexivity |].
    apply lowest_free_computed. vm_compute. reflexivity.
  - apply H7; [reflexivity | vm_compute; reflexivity |].
    apply table_full_computed. vm_compute. reflexivity.
  - apply H8. vm_compute. discriminate.
  - apply H9; [reflexivity | vm_compute; reflexivity |].
    apply lowest_free_computed. vm_compute. reflexivity.
  - apply H10; [reflexivity | vm_compute; reflexivity |].
    apply table_full_computed. vm_compute. reflexivity.
  - destruct (H11 1 0 full_state [(1, full_state)] 2
                (fst (_free_server_thread 5 full_state)) [] Hfull
                ltac:(constructor; [exact Hfull | constructor]))
      as (tr & _ & _ & _ & Hgrant & _).
    exists tr. apply (Hgrant 3%nat); [reflexivity | vm_compute; reflexivity |].
    apply lowest_free_computed. vm_compute. reflexivity.
  - destruct (H12 1 0 init_state [] 0 (set_count 1 init_state)
                [EvMutexLock thread_count_lock; EvMutexUnlock thread_count_lock])
      as (s & Hin & _ & Hc & Hst & _).
    + vm_compute. reflexivity.
    + lia.
    + exists s. split; [exact Hin |]. split; [exact Hc | exact Hst].
Defined.



(** C10, the claim as stated fails: with the manager registered and every
    slot entry cleared, [rpc_mgr_wake] still signals one thread, the
    manager. *)
Lemma wake_all_slots_clear_signals_manager :
  ~ (forall st,
       master_thread_id st = 0
       \/ (forall j, (j < Z.to_nat MAX_THREAD_COUNT)%nat ->
             slot (slave_thread_id st) j = 0) ->
       signalled (rpc_mgr_wake st) = []).
Proof.
  intros H.
  specialize (H (set_master 7 init_state)).
  assert (E : signalled (rpc_mgr_wake (set_master 7 init_state)) = [7])
    by (vm_compute; reflexivity).
  rewrite E in H. discriminate H.
  right. intros j _. apply replicate_slot.
Qed.

(** C10, amended.  [rpc_mgr_wake] only sends signals between taking and
    releasing [thread_count_lock], and only to identities that are nonzero:
    a thread is signalled exactly when its nonzero identity is the recorded
    manager or sits in a slot.  With no manager registered and every slot
    cleared nobody is signalled; with every slot cleared and a manager
    registered the manager alone is.  A worker whose release has cleared its
    slot is not signalled any more. *)
Theorem wake_signals_recorded_threads : forall st,
  (exists kills,
     rpc_mgr_wake st
     = EvMutexLock thread_count_lock :: kills ++ [EvMutexUnlock thread_count_lock]
     /\ Forall (fun e => exists t, e = EvKill t SIGUSR1 /\ t <> 0) kills)
  /\ (forall t,
        In t (signalled (rpc_mgr_wake st))
        <-> t <> 0
            /\ (t = master_thread_id st
                \/ exists j, (j < Z.to_nat MAX_THREAD_COUNT)%nat
                             /\ slot (slave_thread_id st) j = t))
  /\ (master_thread_id st = 0 ->
        (forall j, (j < Z.to_nat MAX_THREAD_COUNT)%nat ->
           slot (slave_thread_id st) j = 0) ->
        signalled (rpc_mgr_wake st) = [])
  /\ ((forall j, (j < Z.to_nat MAX_THREAD_COUNT)%nat ->
         slot (slave_thread_id st) j = 0) ->
        signalled (rpc_mgr_wake st)
        = if master_thread_id st =? 0 then [] else [master_thread_id st])
  /\ (forall tid i,
        tid <> 0 -> tid <> master_thread_id st ->
        (i < Z.to_nat MAX_THREAD_COUNT)%nat ->
        slot (slave_thread_id st) i = tid ->
        (forall j, (j < Z.to_nat MAX_THREAD_COUNT)%nat -> j <> i ->
           slot (slave_thread_id st) j <> tid) ->
        ~ In tid (signalled (rpc_mgr_wake (fst (_free_server_thread tid st))))).
Proof.
  intros st.
  assert (Hclear : (forall j, (j < Z.to_nat MAX_THREAD_COUNT)%nat ->
                      slot (slave_thread_id st) j = 0) ->
                   signalled (rpc_mgr_wake st)
                   = if master_thread_id st =? 0 then [] else [master_thread_id st]).
  { intros Hz. unfold rpc_mgr_wake.
    rewrite kill_slaves_clear by (intros j Hj; apply Hz; lia).
    destruct (master_thread_id st =? 0); reflexivity. }
  split; [| split; [| split; [| split]]].
  - eexists. split; [unfold rpc_mgr_wake; cbn [app]; rewrite app_assoc; reflexivity |].
    apply Forall_app. split; [| apply kill_slaves_only_kills].
    destruct (Z.eqb_spec (master_thread_id st) 0) as [Hz | Hnz]; cbn [negb];
      constructor; [| constructor].
    exists (master_thread_id st). split; [reflexivity | exact Hnz].
  - intros t. apply rpc_mgr_wake_signalled.
  - intros Hm Hz. rewrite (Hclear Hz), Hm. reflexivity.
  - exact Hclear.
  - intros tid i Hnz Hm Hi Hs Huniq Hin.
    apply rpc_mgr_wake_signalled in Hin.
    destruct Hin as (_ & [Hin | (j & Hj & Hin)]).
    + rewrite (proj1 (free_server_thread_frame tid st)) in Hin. contradiction.
    + assert (Hlow : forall j, (j < i)%nat -> slot (slave_thread_id st) j <> tid)
        by (intros j' Hj'; apply Huniq; lia).
      destruct (free_server_thread_slaves_found tid st i Hnz Hi Hs Hlow) as [E _].
      rewrite E in Hin.
      destruct (Nat.eq_dec i j) as [-> | Hne].
      * rewrite slot_insert_eq in Hin by congruence. congruence.
      * rewrite slot_insert_ne in Hin by exact Hne.
        apply (Huniq j Hj); [congruence | exact Hin].
Qed.

Lemma wake_signals_recorded_threads_witness :
  signalled (rpc_mgr_wake init_state) = []
  /\ signalled (rpc_mgr_wake (set_master 7 init_state)) = [7]
  /\ ~ In 5 (signalled (rpc_mgr_wake (fst (_free_server_thread 5 full_state)))).
Proof.
  split; [| split].
  - apply (proj1 (proj2 (proj2 (wake_signals_recorded_threads init_state)))).
    + reflexivity.
    + intros j _. apply replicate_slot.
  - apply (proj1 (proj2 (proj2 (proj2
             (wake_signals_recorded_threads (set_master 7 init_state)))))).
    intros j _. apply replicate_slot.
  - apply (proj2 (proj2 (proj2 (proj2
             (wake_signals_recorded_threads full_state)))) 5 3%nat).
    + discriminate.
    + discriminate.
    + vm_compute. lia.
    + vm_compute. reflexivity.
    + intros j Hj Hne.
      assert (Hs : slot (slave_thread_id full_state) j = Z.of_nat (2 + j)).
      { unfold slot, full_state. cbn [slave_thread_id].
        rewrite list_lookup_fmap, lookup_seq_lt by exact Hj. reflexivity. }
      rewrite Hs. lia.
Defined.

(** * Properties of the connection worker *)

Section WorkerFacts.
Context {codes : slurm_codes}.

Lemma evolves_refl P w : evolves P w w.
Proof.
  constructor; try reflexivity.
  exists []. split; [symmetry; apply app_nil_r | reflexivity].
Qed.

Lemma evolves_trans P w1 w2 w3 :
  evolves P w1 w2 -> evolves P w2 w3 -> evolves P w1 w3.
Proof.
  intros [(t1 & E1 & F1) L1 S1 R1 A1 C1 X1] [(t2 & E2 & F2) L2 S2 R2 A2 C2 X2].
  constructor; try congruence; [| lia].
  exists (t1 ++ t2). split.
  - rewrite E2, E1, app_assoc. reflexivity.
  - rewrite forallb_app, F1, F2. reflexivity.
Qed.

Lemma evolves_weaken (P Q : event -> bool) w w' :
  (forall e, P e = true -> Q e = true) -> evolves P w w' -> evolves Q w w'.
Proof.
  intros HPQ [(t & E & F) L S R A C X].
  constructor; try assumption.
  exists t. split; [exact E |].
  apply forallb_forall. intros e He.
  apply HPQ. rewrite forallb_forall in F. exact (F e He).
Qed.

Lemma keeps_ret {A} P (a : A) : keeps P (ret a).
Proof. intros w. apply evolves_refl. Qed.

Lemma keeps_bind {A B} P (m : io A) (f : A -> io B) :
  keeps P m -> (forall a, keeps P (f a)) -> keeps P (bind m f).
Proof.
  intros Hm Hf w. unfold bind. specialize (Hm w).
  destruct (m w) as [a w1 | w1 | w1 |]; try exact Hm.
  specialize (Hf a w1).
  destruct (f a w1) as [b w2 | w2 | w2 |]; try exact Hf;
    exact (evolves_trans _ _ _ _ Hm Hf).
Qed.

Lemma keeps_weaken {A} (P Q : event -> bool) (m : io A) :
  (forall e, P e = true -> Q e = true) -> keeps P m -> keeps Q m.
Proof.
  intros HPQ Hm w. specialize (Hm w).
  destruct (m w); try exact Hm; exact (evolves_weaken _ _ _ _ HPQ Hm).
Qed.

Lemma evolves_emits P w tr :
  forallb P tr = true -> evolves P w (set_trace (w_trace w ++ tr) w).
Proof.
  intros F. constructor; try reflexivity.
  exists tr. split; [reflexivity | exact F].
Qed.

Lemma keeps_emit P e : P e = true -> keeps P (emit e).
Proof.
  intros He w. apply evolves_emits. cbn. rewrite He. reflexivity.
Qed.

Lemma keeps_log P lvl msg : P (EvLog lvl msg) = true -> keeps P (log lvl msg).
Proof. apply keeps_emit. Qed.

Lemma keeps_if {A} P (b : bool) (m1 m2 : io A) :
  keeps P m1 -> keeps P m2 -> keeps P (if b then m1 else m2).
Proof. destruct b; auto. Qed.

(** *** The calls *)

Lemma fd_readable_from_keeps P cfd :
  (forall c p, P (EvPoll c p) = true) ->
  (forall l m, P (EvLog l m) = true) ->
  forall polls w,
    (length polls <= length (w_polls w))%nat ->
    match fd_readable_from cfd polls w with
    | Ret _ w' => evolves P w w' /\ (length (w_polls w') < length polls)%nat
    | Hang w' => evolves P w w'
    | Fatal _ | OutOfFuel => False
    end.
Proof.
  intros HP HL. induction polls as [|p rest IH]; intros w Hlen.
  - cbn [fd_readable_from]. constructor; try reflexivity.
    + exists []. split; [symmetry; apply app_nil_r | reflexivity].
    + cbn. lia.
  - cbn [fd_readable_from length] in *.
    set (w1 := set_trace (w_trace w ++ [EvPoll cfd p]) (set_polls rest w)).
    assert (H1 : evolves P w w1).
    { constructor; try reflexivity; [| cbn; lia].
      exists [EvPoll cfd p]. split; [reflexivity |]. cbn. rewrite HP. reflexivity. }
    assert (Hlog : forall l m (b : bool),
              match (log l m ;;; ret b) w1 with
              | Ret _ w' => evolves P w w' /\ (length (w_polls w') < S (length rest))%nat
              | Hang w' => evolves P w w'
              | Fatal _ | OutOfFuel => False
              end).
    { intros l m b. cbn. split; [| lia].
      apply (evolves_trans _ _ _ _ H1). apply evolves_emits.
      cbn. rewrite HL. reflexivity. }
    destruct (negb (p_shutdown p =? 0)); [split; [exact H1 | cbn; lia] |].
    destruct (p_rc p =? -1).
    { destruct ((p_errno p =? EINTR) || (p_errno p =? EAGAIN)); [| apply Hlog].
      specialize (IH w1 ltac:(cbn; lia)).
      destruct (fd_readable_from cfd rest w1) as [b w2 | w2 | w2 |]; try exact IH.
      - destruct IH as [H2 Hl]. split; [exact (evolves_trans _ _ _ _ H1 H2) | lia].
      - exact (evolves_trans _ _ _ _ H1 IH). }
    destruct (_ && _); [apply Hlog |].
    destruct (negb _); [apply Hlog |].
    destruct (negb _); [apply Hlog |].
    destruct (_ =? 0); [apply Hlog |].
    split; [exact H1 | cbn; lia].
Qed.

Lemma fd_readable_keeps P cfd :
  (forall c p, P (EvPoll c p) = true) ->
  (forall l m, P (EvLog l m) = true) ->
  keeps P (_fd_readable cfd).
Proof.
  intros HP HL w. unfold _fd_readable.
  pose proof (fd_readable_from_keeps P cfd HP HL (w_polls w) w (le_n _)) as H.
  destruct (fd_readable_from cfd (w_polls w) w); try exact H. apply H.
Qed.

Lemma fd_readable_shrinks cfd w b w' :
  _fd_readable cfd w = Ret b w' ->
  (length (w_polls w') < length (w_polls w))%nat.
Proof.
  unfold _fd_readable. intros E.
  pose proof (fd_readable_from_keeps loop_event cfd
                (fun _ _ => eq_refl) (fun _ _ => eq_refl) (w_polls w) w (le_n _)) as H.
  rewrite E in H. apply H.
Qed.

Lemma sys_read_keeps P cfd count :
  (forall c n r, P (EvRead c n r) = true) -> keeps P (sys_read cfd count).
Proof.
  intros HP w. unfold sys_read.
  destruct (w_stream w) as [|[bs | | e] rest];
    (constructor; try reflexivity;
     eexists; split; [reflexivity | cbn; rewrite HP; reflexivity]).
Qed.

Lemma proc_req_keeps P msg msg_size first :
  (forall m n f r, P (EvProcReq m n f r) = true) ->
  keeps P (proc_req msg msg_size first).
Proof.
  intros HP w. unfold proc_req.
  destruct (w_procs w) as [|pr rest]; [apply evolves_refl |].
  constructor; try reflexivity.
  eexists; split; [reflexivity | cbn; rewrite HP; reflexivity].
Qed.

Lemma send_msg_keeps P buffer :
  (forall b r, P (EvSend b r) = true) -> keeps P (slurm_persist_send_msg buffer).
Proof.
  intros HP w. unfold slurm_persist_send_msg.
  destruct (w_sends w) as [|r rest]; [apply evolves_refl |].
  constructor; try reflexivity.
  eexists; split; [reflexivity | cbn; rewrite HP; reflexivity].
Qed.

(** *** The payload loop never lacks fuel *)

Lemma read_payload_keeps cfd msg_size : forall fuel offset msg w,
  (length (w_polls w) < fuel)%nat ->
  match read_payload fuel cfd msg_size offset msg w with
  | Ret _ w' | Hang w' => evolves loop_event w w'
  | Fatal _ | OutOfFuel => False
  end.
Proof.
  induction fuel as [|fuel IH]; intros offset msg w Hlen; [lia |].
  cbn [read_payload].
  destruct (msg_size >? offset); [| apply evolves_refl].
  unfold bind at 1.
  pose proof (fd_readable_keeps loop_event cfd
                (fun _ _ => eq_refl) (fun _ _ => eq_refl) w) as H1.
  destruct (_fd_readable cfd w) as [b w1 | w1 | w1 |] eqn:E1; try exact H1.
  destruct b; cbn [negb]; [| exact H1].
  apply fd_readable_shrinks in E1.
  unfold bind at 1.
  pose proof (sys_read_keeps loop_event cfd (msg_size - offset)
                (fun _ _ _ => eq_refl) w1) as H2.
  destruct (sys_read cfd (msg_size - offset) w1) as [r w2 | w2 | w2 |];
    try exact H2; [| exact (evolves_trans _ _ _ _ H1 H2)].
  pose proof (evolves_trans _ _ _ _ H1 H2) as H12.
  destruct (fst r <=? 0).
  - cbn. apply (evolves_trans _ _ _ _ H12). apply evolves_emits. reflexivity.
  - pose proof (ev_polls _ _ _ H2) as Hl2.
    specialize (IH (offset + fst r) (write_at msg offset (snd r)) w2 ltac:(lia)).
    destruct (read_payload fuel cfd msg_size _ _ w2); try exact IH;
      exact (evolves_trans _ _ _ _ H12 IH).
Qed.

Lemma read_payload_fuel cfd msg_size : forall f1 f2 offset msg w,
  (length (w_polls w) < f1)%nat -> (length (w_polls w) < f2)%nat ->
  read_payload f1 cfd msg_size offset msg w
  = read_payload f2 cfd msg_size offset msg w.
Proof.
  induction f1 as [|f1 IH]; intros [|f2] offset msg w H1 H2; try lia.
  cbn [read_payload].
  destruct (msg_size >? offset); [| reflexivity].
  unfold bind.
  destruct (_fd_readable cfd w) as [b w1 | w1 | w1 |] eqn:E1; try reflexivity.
  destruct b; cbn [negb]; [| reflexivity].
  apply fd_readable_shrinks in E1.
  pose proof (sys_read_keeps loop_event cfd (msg_size - offset)
                (fun _ _ _ => eq_refl) w1) as Hr.
  destruct (sys_read cfd (msg_size - offset) w1) as [r w2 | w2 | w2 |];
    try reflexivity.
  destruct (fst r <=? 0); [reflexivity |].
  pose proof (ev_polls _ _ _ Hr).
  apply IH; lia.
Qed.

Lemma read_payload_run_keeps cfd msg_size :
  keeps loop_event (read_payload_run cfd msg_size).
Proof.
  intros w. unfold read_payload_run.
  apply read_payload_keeps. lia.
Qed.

(** *** The request loop *)

Lemma dispatch_keeps ls msg msg_size : keeps loop_event (dispatch ls msg msg_size).
Proof.
  unfold dispatch. apply keeps_bind; [apply proc_req_keeps; reflexivity |].
  intros pr. apply keeps_if; [| apply keeps_ret].
  apply keeps_bind; [apply keeps_log; reflexivity |].
  intros _. apply keeps_if; apply keeps_ret.
Qed.

Lemma respond_keeps ls : keeps loop_event (respond ls).
Proof.
  unfold respond. apply keeps_bind; [apply send_msg_keeps; reflexivity |].
  intros sret. apply keeps_bind.
  - apply keeps_if; [| apply keeps_ret].
    apply keeps_bind; [| intros _; apply keeps_ret].
    apply keeps_if; [apply keeps_log; reflexivity | apply keeps_ret].
  - intros ls1. apply keeps_bind; [apply keeps_emit; reflexivity |].
    intros _. apply keeps_bind; [apply keeps_emit; reflexivity |].
    intros _. apply keeps_ret.
Qed.

Lemma frame_tail_keeps ls msg_size po : keeps loop_event (frame_tail ls msg_size po).
Proof.
  unfold frame_tail. apply keeps_bind.
  - apply keeps_if; [apply dispatch_keeps |].
    apply keeps_bind; [apply keeps_emit; reflexivity |].
    intros _. apply keeps_ret.
  - intros ls1. apply keeps_bind; [apply respond_keeps |].
    intros ls2. apply keeps_ret.
Qed.

Lemma frame_body_keeps ls cfd msg_size : keeps loop_event (frame_body ls cfd msg_size).
Proof.
  unfold frame_body. apply keeps_bind; [apply keeps_emit; reflexivity |].
  intros _. apply keeps_bind; [apply read_payload_run_keeps |].
  intros po. apply frame_tail_keeps.
Qed.

Lemma read_frame_keeps ls cfd : keeps loop_event (read_frame ls cfd).
Proof.
  unfold read_frame. apply keeps_bind; [apply sys_read_keeps; reflexivity |].
  intros r. apply keeps_if; [apply keeps_ret |].
  apply keeps_if.
  - apply keeps_bind; [apply keeps_log; reflexivity | intros _; apply keeps_ret].
  - apply keeps_if; [| apply frame_body_keeps].
    apply keeps_bind; [apply keeps_log; reflexivity | intros _; apply keeps_ret].
Qed.

Lemma service_body_keeps ls : keeps loop_event (service_body ls).
Proof.
  unfold service_body. apply keeps_bind.
  - apply fd_readable_keeps; reflexivity.
  - intros b. apply keeps_if; [apply keeps_ret | apply read_frame_keeps].
Qed.

Lemma service_body_shrinks ls w r w' :
  service_body ls w = Ret r w' ->
  (length (w_polls w') < length (w_polls w))%nat.
Proof.
  unfold service_body, bind.
  destruct (_fd_readable (fd (conn (l_conn ls))) w) as [b w1 | w1 | w1 |] eqn:E1;
    try discriminate.
  apply fd_readable_shrinks in E1.
  destruct b; cbn [negb].
  - intros E. pose proof (read_frame_keeps ls (fd (conn (l_conn ls))) w1) as H.
    rewrite E in H. pose proof (ev_polls _ _ _ H). lia.
  - intros [= <- <-]. exact E1.
Qed.

Lemma service_loop_keeps : forall fuel ls w,
  (length (w_polls w) < fuel)%nat ->
  match service_loop fuel ls w with
  | Ret _ w' | Hang w' => evolves loop_event w w'
  | Fatal _ | OutOfFuel => False
  end.
Proof.
  induction fuel as [|fuel IH]; intros ls w Hlen; [lia |].
  cbn [service_loop].
  destruct (negb (l_fini ls)); [| apply evolves_refl].
  unfold bind.
  pose proof (service_body_keeps ls w) as H1.
  destruct (service_body ls w) as [r w1 | w1 | w1 |] eqn:E1; try exact H1.
  destruct (snd r); [exact H1 |].
  apply service_body_shrinks in E1.
  specialize (IH (fst r) w1 ltac:(lia)).
  destruct (service_loop fuel (fst r) w1); try exact IH;
    exact (evolves_trans _ _ _ _ H1 IH).
Qed.

Lemma service_loop_fuel : forall f1 f2 ls w,
  (length (w_polls w) < f1)%nat -> (length (w_polls w) < f2)%nat ->
  service_loop f1 ls w = service_loop f2 ls w.
Proof.
  induction f1 as [|f1 IH]; intros [|f2] ls w H1 H2; try lia.
  cbn [service_loop].
  destruct (negb (l_fini ls)); [| reflexivity].
  unfold bind.
  destruct (service_body ls w) as [r w1 | w1 | w1 |] eqn:E1; try reflexivity.
  destruct (snd r); [reflexivity |].
  apply service_body_shrinks in E1.
  apply IH; lia.
Qed.

Lemma service_loop_run_keeps ls : keeps loop_event (service_loop_run ls).
Proof. intros w. apply service_loop_keeps. lia. Qed.

(** The loop, one pass at a time. *)
Lemma service_loop_run_unfold ls w :
  service_loop_run ls w
  = if l_fini ls then Ret ls w
    else match service_body ls w with
         | Ret r w' => if snd r then Ret (fst r) w' else service_loop_run (fst r) w'
         | Hang w' => Hang w'
         | Fatal w' => Fatal w'
         | OutOfFuel => OutOfFuel
         end.
Proof.
  unfold service_loop_run at 1. cbn [service_loop].
  destruct (l_fini ls); cbn [negb]; [reflexivity |].
  unfold bind.
  destruct (service_body ls w) as [r w1 | w1 | w1 |] eqn:E1; try reflexivity.
  destruct (snd r); [reflexivity |].
  apply service_body_shrinks in E1.
  unfold service_loop_run. apply service_loop_fuel; lia.
Qed.

(** *** The length prefix *)

Lemma sys_read_event cfd count w n bs w' :
  sys_read cfd count w = Ret (n, bs) w' ->
  w_trace w' = w_trace w ++ [EvRead cfd count n]
  /\ w_sends w' = w_sends w /\ w_procs w' = w_procs w /\ w_polls w' = w_polls w.
Proof.
  unfold sys_read.
  destruct (w_stream w) as [|[bs' | | e] rest]; intros [= <- <- <-];
    repeat split; reflexivity.
Qed.

Lemma sys_read_stream cfd count w n bs w' :
  sys_read cfd count w = Ret (n, bs) w' ->
  match w_stream w with
  | [] | Err _ :: _ => n = -1
  | Eof :: _ => n = 0
  | Bytes queued :: _ =>
      bs = take (Z.to_nat count) queued /\ n = Z.of_nat (length bs)
  end.
Proof.
  unfold sys_read.
  destruct (w_stream w) as [|[bs' | | e] rest]; intros [= <- <- <-];
    try split; reflexivity.
Qed.

Lemma service_body_ready ls w w1 :
  _fd_readable (fd (conn (l_conn ls))) w = Ret true w1 ->
  service_body ls w = read_frame ls (fd (conn (l_conn ls))) w1.
Proof. intros E. unfold service_body, bind. rewrite E. reflexivity. Qed.

Lemma service_body_unready ls w w1 :
  _fd_readable (fd (conn (l_conn ls))) w = Ret false w1 ->
  service_body ls w = Ret (ls, true) w1.
Proof. intros E. unfold service_body, bind. rewrite E. reflexivity. Qed.

Lemma service_loop_run_break ls w w' :
  l_fini ls = false ->
  service_body ls w = Ret (ls, true) w' ->
  service_loop_run ls w = Ret ls w'.
Proof.
  intros Hf E. rewrite service_loop_run_unfold, Hf, E. reflexivity.
Qed.

End WorkerFacts.

Section FrameHeader.
Context {codes : slurm_codes}.

(** C5 -- Length check.  Once the four bytes of the prefix have been read,
    a length below 2 or above [MAX_MSG_SIZE] ends the loop: the only thing
    that happens after the read is the error "Invalid msg_size", so no
    payload byte is asked for and nothing is sent.  Any length from 2 to
    [MAX_MSG_SIZE], both ends included, lets the pass go on with the payload
    of that many bytes. *)
Theorem frame_length_checked : forall ls w w1 w2 hdr,
  l_fini ls = false ->
  _fd_readable (fd (conn (l_conn ls))) w = Ret true w1 ->
  sys_read (fd (conn (l_conn ls))) 4 w1 = Ret (4, hdr) w2 ->
  (ntohl hdr < 2 \/ MAX_MSG_SIZE < ntohl hdr ->
     service_loop_run ls w
     = Ret ls (set_trace (w_trace w2 ++ [EvLog LError "Invalid msg_size from connection"]) w2)
     /\ w_trace w2 = w_trace w1 ++ [EvRead (fd (conn (l_conn ls))) 4 4]
     /\ w_sends w2 = w_sends w1)
  /\ (2 <= ntohl hdr <= MAX_MSG_SIZE ->
        service_body ls w
        = frame_body ls (fd (conn (l_conn ls))) (ntohl hdr) w2)
  /\ (ntohl hdr = 2 \/ ntohl hdr = 16 * 1024 * 1024 ->
        service_body ls w
        = frame_body ls (fd (conn (l_conn ls))) (ntohl hdr) w2).
Proof.
  intros ls w w1 w2 hdr Hf E1 E2.
  assert (Hacc : 2 <= ntohl hdr <= MAX_MSG_SIZE ->
                 service_body ls w
                 = frame_body ls (fd (conn (l_conn ls))) (ntohl hdr) w2).
  { intros [Hlo Hhi]. rewrite (service_body_ready _ _ _ E1).
    unfold read_frame, bind. rewrite E2. cbn [fst snd negb Z.eqb Pos.eqb].
    destruct (Z.ltb_spec (ntohl hdr) 2); [lia |].
    destruct (Z.gtb_spec (ntohl hdr) MAX_MSG_SIZE); [lia |]. reflexivity. }
  split; [| split].
  - intros Hbad.
    destruct (sys_read_event _ _ _ _ _ _ E2) as (Ht & Hs & _).
    split; [| split; [exact Ht | exact Hs]].
    apply service_loop_run_break; [exact Hf |].
    rewrite (service_body_ready _ _ _ E1).
    unfold read_frame, bind. rewrite E2. cbn [fst snd negb Z.eqb Pos.eqb].
    destruct (Z.ltb_spec (ntohl hdr) 2); [reflexivity |].
    destruct (Z.gtb_spec (ntohl hdr) MAX_MSG_SIZE); [reflexivity | lia].
  - exact Hacc.
  - intros H. apply Hacc. unfold MAX_MSG_SIZE. lia.
Qed.

(** C4, amended.  The length prefix is asked for in one [read] of 4 bytes.
    When that read returns 0 (the stream closed with no byte of the prefix
    delivered) the loop stops and nothing is logged or sent; when it returns
    anything else than 4 (the stream closed after one to three bytes, or the
    read failed) the loop stops after logging "Could not read msg_size" as an
    error, and nothing is sent either. *)
Theorem header_read_outcomes : forall ls w w1 n bs w2,
  l_fini ls = false ->
  _fd_readable (fd (conn (l_conn ls))) w = Ret true w1 ->
  sys_read (fd (conn (l_conn ls))) 4 w1 = Ret (n, bs) w2 ->
  w_trace w2 = w_trace w1 ++ [EvRead (fd (conn (l_conn ls))) 4 n]
  /\ w_sends w2 = w_sends w1
  /\ (n = 0 -> service_loop_run ls w = Ret ls w2)
  /\ (n <> 0 -> n <> 4 ->
        service_loop_run ls w
        = Ret ls (set_trace
                    (w_trace w2 ++ [EvLog LError "Could not read msg_size from connection"])
                    w2))
  /\ (forall rest, w_stream w1 = Eof :: rest -> n = 0)
  /\ (forall queued rest,
        w_stream w1 = Bytes queued :: rest ->
        (0 < length queued < 4)%nat -> n = Z.of_nat (length queued) /\ 0 < n < 4).
Proof.
  intros ls w w1 n bs w2 Hf E1 E2.
  destruct (sys_read_event _ _ _ _ _ _ E2) as (Ht & Hs & _).
  pose proof (sys_read_stream _ _ _ _ _ _ E2) as Hst.
  split; [exact Ht |]. split; [exact Hs |].
  split; [| split; [| split]].
  - intros ->. apply service_loop_run_break; [exact Hf |].
    rewrite (service_body_ready _ _ _ E1).
    unfold read_frame, bind. rewrite E2. reflexivity.
  - intros H0 H4. apply service_loop_run_break; [exact Hf |].
    rewrite (service_body_ready _ _ _ E1).
    unfold read_frame, bind. rewrite E2. cbn [fst snd].
    destruct (Z.eqb_spec n 0); [contradiction |].
    destruct (Z.eqb_spec n 4); [contradiction |]. reflexivity.
  - intros rest Hw. rewrite Hw in Hst. exact Hst.
  - intros queued rest Hw Hlen. rewrite Hw in Hst. destruct Hst as [-> ->].
    rewrite length_take. change (Z.to_nat 4) with 4%nat.
    rewrite Nat.min_r by lia. split; [reflexivity | lia].
Qed.

End FrameHeader.

Section FrameHeaderSamples.
#[local] Existing Instance release_codes.

Lemma frame_length_checked_witness :
  (service_loop_run (loop_start oneshot_conn)
     (sample_world [ready_poll] [Bytes ["000"; "000"; "000"; "001"]%byte] [] [])
   = Ret (loop_start oneshot_conn)
       (World [] [] [] [] [] [] 0 [] init_state
          [EvPoll 5 ready_poll; EvRead 5 4 4;
           EvLog LError "Invalid msg_size from connection"]))
  /\ service_body (loop_start oneshot_conn)
       (sample_world [ready_poll] [Bytes ["000"; "000"; "000"; "002"]%byte] [] [])
     = frame_body (loop_start oneshot_conn) 5 2
         (World [] [] [] [] [] [] 0 [] init_state
            [EvPoll 5 ready_poll; EvRead 5 4 4])
  /\ service_body (loop_start oneshot_conn)
       (sample_world [ready_poll] [Bytes ["001"; "000"; "000"; "000"]%byte] [] [])
     = frame_body (loop_start oneshot_conn) 5 (16 * 1024 * 1024)
         (World [] [] [] [] [] [] 0 [] init_state
            [EvPoll 5 ready_poll; EvRead 5 4 4]).
Proof.
  split; [| split].
  - refine (proj1 (proj1 (frame_length_checked (loop_start oneshot_conn)
             (sample_world [ready_poll] [Bytes ["000"; "000"; "000"; "001"]%byte] [] [])
             (World [] [Bytes ["000"; "000"; "000"; "001"]%byte] [] [] [] [] 0 []
                    init_state [EvPoll 5 ready_poll])
             (World [] [] [] [] [] [] 0 [] init_state
                    [EvPoll 5 ready_poll; EvRead 5 4 4])
             ["000"; "000"; "000"; "001"]%byte _ _ _) _));
      [reflexivity | reflexivity | reflexivity | left; vm_compute; reflexivity].
  - refine (proj1 (proj2 (frame_length_checked (loop_start oneshot_conn)
             (sample_world [ready_poll] [Bytes ["000"; "000"; "000"; "002"]%byte] [] [])
             (World [] [Bytes ["000"; "000"; "000"; "002"]%byte] [] [] [] [] 0 []
                    init_state [EvPoll 5 ready_poll])
             (World [] [] [] [] [] [] 0 [] init_state
                    [EvPoll 5 ready_poll; EvRead 5 4 4])
             ["000"; "000"; "000"; "002"]%byte _ _ _)) _);
      [reflexivity | reflexivity | reflexivity | vm_compute; split; discriminate].
  - refine (proj2 (proj2 (frame_length_checked (loop_start oneshot_conn)
             (sample_world [ready_poll] [Bytes ["001"; "000"; "000"; "000"]%byte] [] [])
             (World [] [Bytes ["001"; "000"; "000"; "000"]%byte] [] [] [] [] 0 []
                    init_state [EvPoll 5 ready_poll])
             (World [] [] [] [] [] [] 0 [] init_state
                    [EvPoll 5 ready_poll; EvRead 5 4 4])
             ["001"; "000"; "000"; "000"]%byte _ _ _)) _);
      [reflexivity | reflexivity | reflexivity | right; vm_compute; reflexivity].
Defined.

(** C4, the claim as stated fails: when the peer delivers two bytes of the
    prefix and closes, the worker does not treat this as a plain close but
    logs an error. *)
Lemma partial_header_is_logged_as_error :
  ~ (forall bs, (length bs < 4)%nat ->
       exists w',
         service_loop_run (loop_start oneshot_conn)
           (sample_world [ready_poll] [Bytes bs; Eof] [] [])
         = Ret (loop_start oneshot_conn) w'
         /\ existsb is_error_log (w_trace w') = false
         /\ existsb is_send (w_trace w') = false).
Proof.
  intros H.
  destruct (H ["000"; "000"]%byte ltac:(cbn; lia)) as (w' & E & Hlog & _).
  vm_compute in E. injection E as <-.
  vm_compute in Hlog. discriminate Hlog.
Qed.

Lemma header_read_outcomes_witness :
  service_loop_run (loop_start oneshot_conn) (sample_world [ready_poll] [Eof] [] [])
  = Ret (loop_start oneshot_conn)
      (World [] [Eof] [] [] [] [] 0 [] init_state
         [EvPoll 5 ready_poll; EvRead 5 4 0])
  /\ service_loop_run (loop_start oneshot_conn)
       (sample_world [ready_poll] [Bytes ["000"; "000"]%byte; Eof] [] [])
     = Ret (loop_start oneshot_conn)
         (World [] [Eof] [] [] [] [] 0 [] init_state
            [EvPoll 5 ready_poll; EvRead 5 4 2;
             EvLog LError "Could not read msg_size from connection"]).
Proof.
  split.
  - refine (proj1 (proj2 (proj2 (header_read_outcomes (loop_start oneshot_conn)
             (sample_world [ready_poll] [Eof] [] [])
             (World [] [Eof] [] [] [] [] 0 [] init_state [EvPoll 5 ready_poll])
             0 []
             (World [] [Eof] [] [] [] [] 0 [] init_state
                    [EvPoll 5 ready_poll; EvRead 5 4 0]) _ _ _))) _);
      reflexivity.
  - refine (proj1 (proj2 (proj2 (proj2 (header_read_outcomes (loop_start oneshot_conn)
             (sample_world [ready_poll] [Bytes ["000"; "000"]%byte; Eof] [] [])
             (World [] [Bytes ["000"; "000"]%byte; Eof] [] [] [] [] 0 [] init_state
                    [EvPoll 5 ready_poll])
             2 ["000"; "000"]%byte
             (World [] [Eof] [] [] [] [] 0 [] init_state
                    [EvPoll 5 ready_poll; EvRead 5 4 2]) _ _ _)))) _ _);
      first [reflexivity | discriminate].
Defined.

End FrameHeaderSamples.

Section Payload.
Context {codes : slurm_codes}.

Lemma fd_readable_ready cfd w p rest :
  w_polls w = p :: rest -> poll_ready p = true ->
  _fd_readable cfd w
  = Ret true (set_trace (w_trace w ++ [EvPoll cfd p]) (set_polls rest w)).
Proof.
  intros Hw Hp. unfold _fd_readable. rewrite Hw. cbn [fd_readable_from].
  unfold poll_ready in Hp.
  repeat (apply andb_prop in Hp; destruct Hp as [Hp ?]).
  rewrite Hp. cbn [negb].
  destruct (p_rc p =? -1); [discriminate |].
  destruct (negb (Z.land (p_revents p) POLLHUP =? 0)
            && (Z.land (p_revents p) POLLIN =? 0)); [discriminate |].
  destruct (Z.land (p_revents p) POLLNVAL =? 0); [| discriminate].
  destruct (Z.land (p_revents p) POLLERR =? 0); [| discriminate].
  destruct (Z.land (p_revents p) POLLIN =? 0); [discriminate |].
  reflexivity.
Qed.

Lemma sys_read_chunk cfd count w c rest :
  w_stream w = Bytes c :: rest ->
  (length c <= Z.to_nat count)%nat ->
  sys_read cfd count w
  = Ret (Z.of_nat (length c), c)
        (set_trace (w_trace w ++ [EvRead cfd count (Z.of_nat (length c))])
                   (set_stream rest w)).
Proof.
  intros Hw Hlen. unfold sys_read. rewrite Hw.
  rewrite take_ge by exact Hlen. rewrite drop_ge by exact Hlen. reflexivity.
Qed.

Lemma write_at_length msg offset bs :
  0 <= offset ->
  (Z.to_nat offset + length bs <= length msg)%nat ->
  length (write_at msg offset bs) = length msg.
Proof.
  intros H0 Hlen. unfold write_at.
  rewrite !length_app, length_take, length_drop. lia.
Qed.

Lemma write_at_prefix msg offset bs :
  0 <= offset ->
  (Z.to_nat offset + length bs <= length msg)%nat ->
  take (Z.to_nat (offset + Z.of_nat (length bs))) (write_at msg offset bs)
  = take (Z.to_nat offset) msg ++ bs.
Proof.
  intros H0 Hlen. unfold write_at.
  assert (Hl : length (take (Z.to_nat offset) msg) = Z.to_nat offset)
    by (rewrite length_take; lia).
  rewrite app_assoc.
  rewrite take_app_length'; [reflexivity |].
  rewrite length_app, Hl. lia.
Qed.

(** The payload loop on a payload that arrives whole, in any chunks. *)
Lemma read_payload_chunks cfd L : forall chunks oks fuel offset msg w rest_p rest_s,
  Forall (fun c => c <> []) chunks ->
  Forall (fun p => poll_ready p = true) oks ->
  length oks = length chunks ->
  w_polls w = oks ++ rest_p ->
  w_stream w = map Bytes chunks ++ rest_s ->
  0 <= offset ->
  offset + Z.of_nat (length (concat chunks)) = L ->
  length msg = Z.to_nat L ->
  (length chunks < fuel)%nat ->
  exists w',
    read_payload fuel cfd L offset msg w
    = Ret (L, take (Z.to_nat offset) msg ++ concat chunks) w'
    /\ w_polls w' = rest_p /\ w_stream w' = rest_s
    /\ w_procs w' = w_procs w /\ w_sends w' = w_sends w
    /\ w_shutdown w' = w_shutdown w /\ w_registered w' = w_registered w
    /\ w_adm w' = w_adm w
    /\ exists tr, w_trace w' = w_trace w ++ tr
                  /\ forallb (fun e => negb (is_proc e) && negb (is_send e)) tr = true
                  /\ count_events is_read tr = length chunks.
Proof.
  induction chunks as [|c chunks IH];
    intros oks fuel offset msg w rest_p rest_s Hne Hok Hlen Hp Hs H0 HL Hm Hf.
  - destruct oks; [| discriminate]. destruct fuel; [cbn in Hf; lia |].
    cbn in HL, Hp, Hs. cbn [read_payload].
    destruct (Z.gtb_spec L offset); [lia |].
    exists w. rewrite app_nil_r, take_ge by lia.
    assert (offset = L) as -> by lia.
    repeat split; try assumption.
    exists []. rewrite app_nil_r. repeat split.
  - destruct oks as [|p oks]; [discriminate |]. destruct fuel; [cbn in Hf; lia |].
    pose proof (Forall_inv Hne) as Hc. pose proof (Forall_inv_tail Hne) as Hne'.
    pose proof (Forall_inv Hok) as Hpr. pose proof (Forall_inv_tail Hok) as Hok'.
    cbn beta in Hc, Hpr.
    cbn [concat map app length] in *. rewrite length_app in HL.
    assert (Hclen : (0 < length c)%nat) by (destruct c; [contradiction | cbn; lia]).
    cbn [read_payload].
    destruct (Z.gtb_spec L offset); [| lia].
    unfold bind.
    rewrite (fd_readable_ready cfd w p (oks ++ rest_p) Hp Hpr). cbn [negb].
    set (w1 := set_trace _ (set_polls _ w)).
    rewrite (sys_read_chunk cfd (L - offset) w1 c (map Bytes chunks ++ rest_s))
      by (try exact Hs; lia).
    cbn [fst snd].
    destruct (Z.leb_spec (Z.of_nat (length c)) 0); [lia |].
    set (w2 := set_trace _ (set_stream _ w1)).
    destruct (IH oks fuel (offset + Z.of_nat (length c)) (write_at msg offset c)
                 w2 rest_p rest_s Hne' Hok')
      as (w' & E & Hp' & Hs' & Hpr' & Hse' & Hsh' & Hrg' & Had' & tr & Ht & Hev & Hcnt);
      try reflexivity; try lia.
    { rewrite write_at_length; [exact Hm | exact H0 | lia]. }
    exists w'. rewrite E, write_at_prefix by lia. rewrite <- app_assoc.
    repeat split; try assumption.
    exists (EvPoll cfd p :: EvRead cfd (L - offset) (Z.of_nat (length c)) :: tr).
    split; [| split].
    + rewrite Ht. unfold w2, w1. cbn [w_trace set_trace set_stream set_polls].
      rewrite <- !app_assoc. reflexivity.
    + cbn. exact Hev.
    + unfold count_events in *. cbn. rewrite Hcnt. reflexivity.
Qed.

(** The payload loop on a payload that is cut short. *)
Lemma read_payload_cut cfd L offset w w' :
  cut_short cfd L offset w w' ->
  forall fuel msg,
    (length (w_polls w) < fuel)%nat ->
    exists offset' msg',
      read_payload fuel cfd L offset msg w = Ret (offset', msg') w'
      /\ offset' < L.
Proof.
  induction 1 as [offset w w1 Ho E1
                 | offset w w1 n bs w2 Ho E1 E2 Hn
                 | offset w w1 n bs w2 w3 Ho E1 E2 Hn Hcut IH];
    intros fuel msg Hf; (destruct fuel; [lia |]); cbn [read_payload];
    (destruct (Z.gtb_spec L offset); [| lia]); unfold bind; rewrite E1; cbn [negb].
  - exists offset, msg. split; [reflexivity | exact Ho].
  - rewrite E2. cbn [fst snd].
    destruct (Z.leb_spec n 0); [| lia].
    exists offset, msg. split; [reflexivity | exact Ho].
  - rewrite E2. cbn [fst snd].
    destruct (Z.leb_spec n 0); [lia |].
    apply fd_readable_shrinks in E1.
    destruct (sys_read_event _ _ _ _ _ _ E2) as (_ & _ & _ & Hp).
    apply IH. rewrite Hp. lia.
Qed.

Lemma respond_sent ls w r sends' :
  w_sends w = r :: sends' ->
  respond ls w
  = Ret (if negb (r =? SLURM_SUCCESS) then set_fini true ls else ls)
        (set_trace
           (w_trace w
              ++ [EvSend (l_buffer ls) r]
              ++ (if negb (r =? SLURM_SUCCESS) && negb (rem_port (conn (l_conn ls)) =? 0)
                  then [EvLog LDebug "Problem sending response to connection"]
                  else [])
              ++ [EvFreeBuf; EvXfreeMsg])
           (set_sends sends' w)).
Proof.
  intros Hw. unfold respond, bind, slurm_persist_send_msg. rewrite Hw.
  destruct (negb (r =? SLURM_SUCCESS)); cbn [andb];
    [destruct (negb (rem_port (conn (l_conn ls)) =? 0)) |];
    cbn; rewrite <- ?app_assoc; reflexivity.
Qed.

Lemma dispatch_result ls msg L w pr procs' :
  w_procs w = pr :: procs' ->
  dispatch ls msg L w
  = let failed := negb (pr_rc pr =? SLURM_SUCCESS)
                  && negb (pr_rc pr =? ACCOUNTING_FIRST_REG) in
    let ending := (pr_rc pr =? ESLURM_ACCESS_DENIED)
                  || (pr_rc pr =? SLURM_PROTOCOL_VERSION_ERROR) in
    Ret (LoopState (pr_conn pr) (pr_uid pr) false
                   (if failed && ending then true else l_fini ls)
                   (pr_buffer pr) (pr_rc pr))
        (set_trace
           (w_trace w
              ++ EvProcReq msg L (l_first ls) (pr_rc pr)
                 :: (if failed
                     then [EvLog LError "Processing last message from connection"]
                     else []))
           (set_procs procs' w)).
Proof.
  intros Hw. unfold dispatch, bind, proc_req. rewrite Hw. cbv zeta.
  destruct (negb (pr_rc pr =? SLURM_SUCCESS) && negb (pr_rc pr =? ACCOUNTING_FIRST_REG));
    cbn [andb];
    [destruct ((pr_rc pr =? ESLURM_ACCESS_DENIED)
               || (pr_rc pr =? SLURM_PROTOCOL_VERSION_ERROR)) |];
    cbn; rewrite <- ?app_assoc; reflexivity.
Qed.

Lemma frame_tail_whole ls L msg :
  frame_tail ls L (L, msg)
  = (ls1 <- dispatch ls msg L ;; ls2 <- respond ls1 ;; ret (ls2, false)).
Proof. unfold frame_tail. cbn [fst snd]. rewrite Z.eqb_refl. reflexivity. Qed.

Lemma frame_tail_short ls L offset msg w r sends' :
  offset <> L ->
  w_sends w = r :: sends' ->
  let synth := BufRcMsg SLURM_ERROR "Bad offset" in
  let sent := set_fini true (set_buffer synth ls) in
  frame_tail ls L (offset, msg) w
  = Ret (sent, false)
        (set_trace
           (w_trace w
              ++ [EvMakeRcMsg SLURM_ERROR "Bad offset"; EvSend synth r]
              ++ (if negb (r =? SLURM_SUCCESS) && negb (rem_port (conn (l_conn ls)) =? 0)
                  then [EvLog LDebug "Problem sending response to connection"]
                  else [])
              ++ [EvFreeBuf; EvXfreeMsg])
           (set_sends sends' w)).
Proof.
  intros Hne Hw. cbv zeta. unfold frame_tail. cbn [fst snd].
  destruct (Z.eqb_spec L offset); [congruence |].
  unfold bind at 1. unfold bind at 1. cbn [emit ret].
  unfold bind at 1.
  rewrite (respond_sent _ _ r sends') by exact Hw.
  destruct (negb (r =? SLURM_SUCCESS)); cbn; rewrite <- ?app_assoc; reflexivity.
Qed.

(** C6 -- Payload.  (a) Whatever way the [L] bytes of the payload are cut
    into non-empty chunks, each announced by a [poll] that reports input, the
    payload loop performs one read per chunk and ends with offset [L] and the
    buffer equal to the payload; nothing has been dispatched or sent so far,
    and what follows is the call of [proc_req] on exactly that buffer.
    (b) When the payload is cut short (not readable, end of file or a read
    error before [L] bytes arrived) the loop ends below [L]; [proc_req] is
    not called, the return-code message "Bad offset" is made and sent, [fini]
    is set, and the request loop stops. *)
Theorem payload_read_exactly : forall ls cfd w0,
  (forall payload chunks oks rest_p rest_s,
     concat chunks = payload ->
     Forall (fun c => c <> []) chunks ->
     Forall (fun p => poll_ready p = true) oks ->
     length oks = length chunks ->
     w_polls w0 = oks ++ rest_p ->
     w_stream w0 = map Bytes chunks ++ rest_s ->
     let L := Z.of_nat (length payload) in
     exists w',
       read_payload_run cfd L (set_trace (w_trace w0 ++ [EvXmalloc L]) w0)
       = Ret (L, payload) w'
       /\ w_polls w' = rest_p /\ w_stream w' = rest_s
       /\ w_procs w' = w_procs w0 /\ w_sends w' = w_sends w0
       /\ (exists tr, w_trace w' = w_trace w0 ++ EvXmalloc L :: tr
                      /\ forallb (fun e => negb (is_proc e) && negb (is_send e)) tr = true
                      /\ count_events is_read tr = length chunks)
       /\ frame_body ls cfd L w0
          = (ls1 <- dispatch ls payload L ;; ls2 <- respond ls1 ;; ret (ls2, false)) w')
  /\ (forall L w' r sends',
        cut_short cfd L 0 (set_trace (w_trace w0 ++ [EvXmalloc L]) w0) w' ->
        w_sends w' = r :: sends' ->
        exists offset msg ls2 w'',
          read_payload_run cfd L (set_trace (w_trace w0 ++ [EvXmalloc L]) w0)
          = Ret (offset, msg) w'
          /\ offset < L
          /\ frame_body ls cfd L w0 = Ret (ls2, false) w''
          /\ l_fini ls2 = true
          /\ l_buffer ls2 = BufRcMsg SLURM_ERROR "Bad offset"
          /\ w_procs w'' = w_procs w'
          /\ w_trace w''
             = w_trace w'
                 ++ [EvMakeRcMsg SLURM_ERROR "Bad offset";
                     EvSend (BufRcMsg SLURM_ERROR "Bad offset") r]
                 ++ (if negb (r =? SLURM_SUCCESS)
                        && negb (rem_port (conn (l_conn ls)) =? 0)
                     then [EvLog LDebug "Problem sending response to connection"]
                     else [])
                 ++ [EvFreeBuf; EvXfreeMsg]
          /\ service_loop_run ls2 w'' = Ret ls2 w'').
Proof.
  intros ls cfd w0. split.
  - intros payload chunks oks rest_p rest_s Hcat Hne Hok Hlen Hp Hs L.
    set (w := set_trace (w_trace w0 ++ [EvXmalloc L]) w0).
    destruct (read_payload_chunks cfd L chunks oks (S (length (w_polls w))) 0
                (replicate (Z.to_nat L) Byte.x00) w rest_p rest_s Hne Hok Hlen)
      as (w' & E & Hp' & Hs' & Hpr' & Hse' & _ & _ & _ & tr & Ht & Hev & Hcnt);
      try assumption; try lia.
    { rewrite Hcat. unfold L. lia. }
    { apply length_replicate. }
    { unfold w. cbn [w_polls set_trace]. rewrite Hp, length_app. lia. }
    cbn [take app Z.to_nat] in E. rewrite Hcat in E.
    exists w'. split; [exact E |].
    split; [exact Hp' |]. split; [exact Hs' |].
    split; [exact Hpr' |]. split; [exact Hse' |]. split.
    + exists tr. split; [| split; assumption].
      rewrite Ht. unfold w. cbn [w_trace set_trace]. rewrite <- app_assoc. reflexivity.
    + unfold frame_body. unfold bind at 1. cbn [emit].
      unfold bind at 1. fold w. unfold read_payload_run in E |- *. rewrite E.
      apply (f_equal (fun m => m w')). apply frame_tail_whole.
  - intros L w' r sends' Hcut Hsends.
    set (w := set_trace (w_trace w0 ++ [EvXmalloc L]) w0) in *.
    destruct (read_payload_cut cfd L 0 w w' Hcut (S (length (w_polls w)))
                (replicate (Z.to_nat L) Byte.x00) ltac:(lia))
      as (offset & msg & E & Ho).
    exists offset, msg. eexists. eexists.
    split; [exact E |]. split; [exact Ho |].
    split.
    { unfold frame_body. unfold bind at 1. cbn [emit].
      unfold bind at 1. fold w. unfold read_payload_run in E |- *. rewrite E.
      apply (frame_tail_short ls L offset msg w' r sends'); [lia | exact Hsends]. }
    split; [reflexivity |]. split; [reflexivity |]. split; [reflexivity |].
    split; [reflexivity |].
    rewrite service_loop_run_unfold. reflexivity.
Qed.

(** C7, amended.  When [proc_req] returns a status that is neither
    [SLURM_SUCCESS] nor [ACCOUNTING_FIRST_REG], the failure is logged as an
    error and the response is sent all the same.  After the pass [fini] is
    set exactly when it was set before, or the status is
    [ESLURM_ACCESS_DENIED] or [SLURM_PROTOCOL_VERSION_ERROR], or the send has
    failed; with [fini] set the loop stops there, after the response, and
    otherwise it goes on with the next pass. *)
Theorem failed_status_handling : forall ls L msg w pr procs' r sends',
  w_procs w = pr :: procs' ->
  w_sends w = r :: sends' ->
  pr_rc pr <> SLURM_SUCCESS ->
  pr_rc pr <> ACCOUNTING_FIRST_REG ->
  exists ls2 w',
    frame_tail ls L (L, msg) w = Ret (ls2, false) w'
    /\ (exists tr,
          w_trace w'
          = w_trace w
              ++ [EvProcReq msg L (l_first ls) (pr_rc pr);
                  EvLog LError "Processing last message from connection";
                  EvSend (pr_buffer pr) r]
              ++ tr
          /\ forallb (fun e => negb (is_send e) && negb (is_proc e)
                               && negb (is_read e)) tr = true)
    /\ (l_fini ls2 = true
        <-> l_fini ls = true
            \/ pr_rc pr = ESLURM_ACCESS_DENIED
            \/ pr_rc pr = SLURM_PROTOCOL_VERSION_ERROR
            \/ r <> SLURM_SUCCESS)
    /\ (forall w0,
          l_fini ls = false ->
          service_body ls w0 = frame_tail ls L (L, msg) w ->
          service_loop_run ls w0
          = if l_fini ls2 then Ret ls2 w'
            else match service_body ls2 w' with
                 | Ret r2 w2 =>
                     if snd r2 then Ret (fst r2) w2
                     else service_loop_run (fst r2) w2
                 | Hang w2 => Hang w2
                 | Fatal w2 => Fatal w2
                 | OutOfFuel => OutOfFuel
                 end).
Proof.
  intros ls L msg w pr procs' r sends' Hp Hs Hrc1 Hrc2.
  assert (Hfailed : negb (pr_rc pr =? SLURM_SUCCESS)
                    && negb (pr_rc pr =? ACCOUNTING_FIRST_REG) = true).
  { destruct (Z.eqb_spec (pr_rc pr) SLURM_SUCCESS); [contradiction |].
    destruct (Z.eqb_spec (pr_rc pr) ACCOUNTING_FIRST_REG); [contradiction |].
    reflexivity. }
  rewrite frame_tail_whole. unfold bind at 1.
  rewrite (dispatch_result ls msg L w pr procs' Hp). cbv zeta. rewrite Hfailed.
  cbn [andb].
  set (ls1 := LoopState _ _ _ _ _ _).
  set (w1 := set_trace _ (set_procs procs' w)).
  unfold bind at 1.
  rewrite (respond_sent ls1 w1 r sends') by exact Hs.
  cbn [ret].
  eexists. eexists. split; [reflexivity |].
  split; [| split].
  - eexists. split.
    + unfold w1. cbn [w_trace set_trace set_sends set_procs l_buffer ls1].
      rewrite <- !app_assoc. cbn [app]. reflexivity.
    + destruct (negb (r =? SLURM_SUCCESS) && negb (rem_port (conn (l_conn ls1)) =? 0));
        reflexivity.
  - unfold ls1.
    destruct (Z.eqb_spec r SLURM_SUCCESS) as [Hr | Hr]; cbn [negb];
      cbn [l_fini set_fini];
      destruct (Z.eqb_spec (pr_rc pr) ESLURM_ACCESS_DENIED) as [Hd | Hd];
      destruct (Z.eqb_spec (pr_rc pr) SLURM_PROTOCOL_VERSION_ERROR) as [Hv | Hv];
      cbn [orb]; split; intros H; auto; try tauto;
      destruct H as [H | [H | [H | H]]]; auto; contradiction.
  - intros w0 Hf Hbody.
    rewrite service_loop_run_unfold, Hf, Hbody.
    unfold bind at 1.
    rewrite (dispatch_result ls msg L w pr procs' Hp). cbv zeta. rewrite Hfailed.
    cbn [andb]. fold ls1. fold w1. unfold bind at 1.
    rewrite (respond_sent ls1 w1 r sends') by exact Hs.
    cbn [ret snd fst].
    rewrite service_loop_run_unfold. reflexivity.
Qed.

End Payload.

Section PayloadSamples.
#[local] Existing Instance release_codes.

Lemma payload_read_exactly_witness :
  (exists w',
     read_payload_run 5 3
       (set_trace [EvXmalloc 3]
          (sample_world [ready_poll; ready_poll]
             [Bytes ["001"]%byte; Bytes ["002"; "003"]%byte] [] []))
     = Ret (3, ["001"; "002"; "003"]%byte) w'
     /\ w_polls w' = [] /\ w_stream w' = [])
  /\ (exists offset msg ls2 w' w'',
        read_payload_run 5 3
          (set_trace [EvXmalloc 3]
             (sample_world [ready_poll; ready_poll] [Bytes ["001"]%byte; Eof] [] [0]))
        = Ret (offset, msg) w'
        /\ offset < 3
        /\ frame_body (loop_start oneshot_conn) 5 3
             (sample_world [ready_poll; ready_poll] [Bytes ["001"]%byte; Eof] [] [0])
           = Ret (ls2, false) w''
        /\ l_fini ls2 = true
        /\ l_buffer ls2 = BufRcMsg SLURM_ERROR "Bad offset").
Proof.
  split.
  - destruct (proj1 (payload_read_exactly (loop_start oneshot_conn) 5
                      (sample_world [ready_poll; ready_poll]
                         [Bytes ["001"]%byte; Bytes ["002"; "003"]%byte] [] []))
                    ["001"; "002"; "003"]%byte
                    [["001"]%byte; ["002"; "003"]%byte]
                    [ready_poll; ready_poll] [] [])
      as (w' & E & Hp & Hs & _).
    + reflexivity.
    + repeat constructor; discriminate.
    + repeat constructor.
    + reflexivity.
    + reflexivity.
    + reflexivity.
    + exists w'. split; [exact E |]. split; [exact Hp | exact Hs].
  - assert (Hcut : exists w',
               cut_short 5 3 0
                 (set_trace
                    (w_trace (sample_world [ready_poll; ready_poll]
                                [Bytes ["001"]%byte; Eof] [] [0]) ++ [EvXmalloc 3])
                    (sample_world [ready_poll; ready_poll]
                       [Bytes ["001"]%byte; Eof] [] [0])) w'
               /\ w_sends w' = [0]).
    { eexists. split.
      - eapply (CutPartial 5 3 0 _ _ 1 ["001"]%byte).
        + lia.
        + vm_compute. reflexivity.
        + vm_compute. reflexivity.
        + lia.
        + eapply (CutReadFailed 5 3 1 _ _ 0 []).
          * lia.
          * vm_compute. reflexivity.
          * vm_compute. reflexivity.
          * lia.
      - reflexivity. }
    destruct Hcut as (w' & Hcut & Hs).
    destruct (proj2 (payload_read_exactly (loop_start oneshot_conn) 5
                      (sample_world [ready_poll; ready_poll]
                         [Bytes ["001"]%byte; Eof] [] [0]))
                    3 w' 0 [] Hcut Hs)
      as (offset & msg & ls2 & w'' & E & Ho & Eb & Hf & Hb & _).
    exists offset, msg, ls2, w', w''.
    split; [exact E |]. split; [exact Ho |]. split; [exact Eb |].
    split; [exact Hf | exact Hb].
Defined.

Lemma failed_status_handling_witness :
  exists ls2 w',
    frame_tail (loop_start oneshot_conn) 2 (2, ["001"; "002"]%byte)
      (sample_world [] [] [ProcResult 2002 (BufReply ["009"]%byte) 0 oneshot_conn] [0])
    = Ret (ls2, false) w'
    /\ (l_fini ls2 = true
        <-> l_fini (loop_start oneshot_conn) = true
            \/ 2002 = ESLURM_ACCESS_DENIED
            \/ 2002 = SLURM_PROTOCOL_VERSION_ERROR
            \/ 0 <> SLURM_SUCCESS).
Proof.
  destruct (failed_status_handling (loop_start oneshot_conn) 2 ["001"; "002"]%byte
              (sample_world [] [] [ProcResult 2002 (BufReply ["009"]%byte) 0 oneshot_conn] [0])
              (ProcResult 2002 (BufReply ["009"]%byte) 0 oneshot_conn) [] 0 [])
    as (ls2 & w' & E & _ & Hf & _).
  - reflexivity.
  - reflexivity.
  - vm_compute. discriminate.
  - vm_compute. discriminate.
  - exists ls2, w'. split; [exact E | exact Hf].
Defined.

(** C7, the claim as stated fails: the status is [SLURM_ERROR], neither
    access-denied nor a version mismatch, but the send of the response
    fails, and the session ends there instead of going on with the next
    frame. *)
Lemma failed_send_ends_session :
  ~ (forall ls L msg w pr procs' ls2 w',
       w_procs w = pr :: procs' ->
       pr_rc pr <> SLURM_SUCCESS ->
       pr_rc pr <> ACCOUNTING_FIRST_REG ->
       l_fini ls = false ->
       frame_tail ls L (L, msg) w = Ret (ls2, false) w' ->
       (l_fini ls2 = true
        <-> pr_rc pr = ESLURM_ACCESS_DENIED
            \/ pr_rc pr = SLURM_PROTOCOL_VERSION_ERROR)).
Proof.
  intros H.
  assert (E : exists ls2 w',
             frame_tail (loop_start oneshot_conn) 2 (2, ["001"; "002"]%byte)
               (sample_world [] []
                  [ProcResult (-1) (BufReply ["009"]%byte) 0 oneshot_conn] [-1])
             = Ret (ls2, false) w'
             /\ l_fini ls2 = true).
  { eexists. eexists. split; vm_compute; reflexivity. }
  destruct E as (ls2 & w' & E & Hf).
  destruct (H (loop_start oneshot_conn) 2 ["001"; "002"]%byte
              (sample_world [] []
                 [ProcResult (-1) (BufReply ["009"]%byte) 0 oneshot_conn] [-1])
              (ProcResult (-1) (BufReply ["009"]%byte) 0 oneshot_conn) []
              ls2 w' eq_refl
              ltac:(vm_compute; discriminate) ltac:(vm_compute; discriminate)
              eq_refl E) as [Hto _].
  destruct (Hto Hf) as [Hd | Hd]; vm_compute in Hd; discriminate.
Qed.

End PayloadSamples.

(** * The teardown *)

Section Teardown.
Context {codes : slurm_codes}.

(** What the scan of the registry removes: the first entry that is the
    connection, and nothing else. *)
Lemma registry_remove_spec conn_ptr l :
  (registry_remove conn_ptr l = (l, false) /\ ~ In conn_ptr l)
  \/ (exists l1 l2,
        l = l1 ++ conn_ptr :: l2 /\ ~ In conn_ptr l1
        /\ registry_remove conn_ptr l = (l1 ++ l2, true)).
Proof.
  induction l as [|x l IH]; cbn [registry_remove].
  - left. split; [reflexivity | intros []].
  - destruct (Z.eqb_spec conn_ptr x) as [<- | Hne].
    + right. exists [], l. split; [reflexivity |]. split; [intros [] | reflexivity].
    + destruct IH as [[E Hin] | (l1 & l2 & -> & Hin & E)]; rewrite E; cbn [fst snd].
      * left. split; [reflexivity |]. intros [H | H]; [congruence | contradiction].
      * right. exists (x :: l1), l2. split; [reflexivity |].
        split; [| reflexivity]. intros [H | H]; [congruence | contradiction].
Qed.

Lemma teardown_result self conn_ptr cfd ls w :
  exists w',
    teardown self conn_ptr cfd ls w = Ret tt w'
    /\ w_trace w' = w_trace w ++ teardown_events self conn_ptr (l_conn ls) w
    /\ w_registered w'
       = (if negb (rem_port (conn (l_conn ls)) =? 0) && (w_shutdown w =? 0)
          then fst (registry_remove conn_ptr (w_registered w))
          else w_registered w)
    /\ w_adm w' = fst (_free_server_thread self (w_adm w)).
Proof.
  unfold teardown, teardown_events, unregister, free_server_thread, bind, log, emit, ret.
  destruct (negb (rem_port (conn (l_conn ls)) =? 0)); cbn [andb];
    [destruct (w_shutdown w =? 0);
     [cbn [w_registered set_trace set_registered];
      destruct (snd (registry_remove conn_ptr (w_registered w))) |] |];
    eexists; (split; [reflexivity |]);
    cbn [w_trace w_registered w_adm set_trace set_registered set_adm];
    rewrite <- ?app_assoc; cbn [app]; repeat split; reflexivity.
Qed.

Lemma service_connection_unfold self conn_ptr c w :
  _service_connection self conn_ptr c w
  = match service_loop_run (loop_start c)
            (set_trace (w_trace w ++ [EvLog LDebug2 "Opened connection"]) w) with
    | Ret ls w1 => teardown self conn_ptr (fd (conn c)) ls w1
    | Hang w1 => Hang w1
    | Fatal w1 => Fatal w1
    | OutOfFuel => OutOfFuel
    end.
Proof. reflexivity. Qed.

(** C2, amended.  Whenever the request loop is left, whatever the reason,
    [_service_connection] goes once through the teardown and returns; the
    loop itself performs none of the teardown's actions.  The teardown, in
    this order: for a persistent connection (remote port nonzero) and with
    the shutdown flag clear, closes the cluster's accounting session and,
    between taking and releasing the registry mutex, deletes the first
    registry entry that is this connection, if there is one; for a persistent
    connection, shutdown or not, commits with the final flag -- a connection
    that is not persistent is not committed; then always closes the storage
    handle, frees the connection's resources and releases the admission slot
    through [_free_server_thread]. *)
Theorem teardown_on_every_exit : forall self conn_ptr c w,
  match service_loop_run (loop_start c)
          (set_trace (w_trace w ++ [EvLog LDebug2 "Opened connection"]) w) with
  | Ret ls w1 =>
      let cc := l_conn ls in
      let persistent := negb (rem_port (conn cc) =? 0) in
      let leaving := persistent && (w_shutdown w =? 0) in
      let scan := registry_remove conn_ptr (w_registered w) in
      exists w2 tr,
        _service_connection self conn_ptr c w = Ret tt w2
        /\ w_trace w1 = w_trace w ++ EvLog LDebug2 "Opened connection" :: tr
        /\ forallb loop_event tr = true
        /\ w_trace w2
           = w_trace w1
               ++ (if leaving then
                     [EvLog LDebug "cluster has disconnected";
                      EvFiniCtld (db_conn cc) (rem_port (conn cc));
                      EvMutexLock registered_lock]
                       ++ (if snd scan then [EvListDelete conn_ptr] else [])
                       ++ [EvMutexUnlock registered_lock]
                   else [])
               ++ (if persistent then [EvCommit (db_conn cc) 1] else [])
               ++ [EvCloseConnection (db_conn cc); EvMembersDestroy;
                   EvLog LDebug2 "Closed connection"; EvXfreeTres;
                   EvXfreeConn conn_ptr]
               ++ snd (_free_server_thread self (w_adm w))
        /\ w_registered w2 = (if leaving then fst scan else w_registered w)
        /\ w_adm w2 = fst (_free_server_thread self (w_adm w))
        /\ ((scan = (w_registered w, false) /\ ~ In conn_ptr (w_registered w))
            \/ exists l1 l2,
                 w_registered w = l1 ++ conn_ptr :: l2 /\ ~ In conn_ptr l1
                 /\ scan = (l1 ++ l2, true))
  | Hang w1 => _service_connection self conn_ptr c w = Hang w1
  | Fatal _ | OutOfFuel => False
  end.
Proof.
  intros self conn_ptr c w.
  rewrite service_connection_unfold.
  set (w0 := set_trace (w_trace w ++ [EvLog LDebug2 "Opened connection"]) w).
  pose proof (service_loop_run_keeps (loop_start c) w0) as Hk.
  destruct (service_loop_run (loop_start c) w0) as [ls w1 | w1 | w1 |];
    try exact Hk; [| reflexivity].
  destruct Hk as [(tr & Ht & Hev) _ Hsh Hrg Had _ _].
  cbn [w_shutdown w_registered w_adm w0 set_trace] in Hsh, Hrg, Had.
  cbv zeta.
  destruct (teardown_result self conn_ptr (fd (conn c)) ls w1)
    as (w2 & E & Ht2 & Hr2 & Ha2).
  unfold teardown_events in Ht2. rewrite Hsh, Hrg, Had in *.
  exists w2, tr. split; [exact E |].
  split; [rewrite Ht; unfold w0; cbn [w_trace set_trace];
          rewrite <- app_assoc; reflexivity |].
  split; [exact Hev |]. split; [exact Ht2 |]. split; [exact Hr2 |].
  split; [exact Ha2 |]. apply registry_remove_spec.
Qed.

End Teardown.

Section TeardownSamples.
#[local] Existing Instance release_codes.

(** C2, the claim as stated fails: a one-shot client (remote port 0) whose
    stream is closed is torn down without any commit. *)
Lemma oneshot_teardown_without_commit :
  ~ (forall self conn_ptr c w w',
       _service_connection self conn_ptr c w = Ret tt w' ->
       existsb is_commit (w_trace w') = true).
Proof.
  intros H.
  specialize (H 9 4096 oneshot_conn
                (World [ready_poll] [Eof] [] [] [] [] 0 [] (set_count 1 init_state) [])
                _ eq_refl).
  vm_compute in H. discriminate H.
Qed.

Lemma teardown_on_every_exit_witness :
  exists w2,
    _service_connection 9 4096 cluster_conn
      (World [ready_poll] [Eof] [] [] [] [] 0 [4096] (set_count 1 init_state) [])
    = Ret tt w2
    /\ w_trace w2
       = [EvLog LDebug2 "Opened connection"; EvPoll 6 ready_poll; EvRead 6 4 0;
          EvLog LDebug "cluster has disconnected"; EvFiniCtld 77 6817;
          EvMutexLock registered_lock; EvListDelete 4096;
          EvMutexUnlock registered_lock; EvCommit 77 1;
          EvCloseConnection 77; EvMembersDestroy;
          EvLog LDebug2 "Closed connection"; EvXfreeTres; EvXfreeConn 4096;
          EvMutexLock thread_count_lock;
          EvLog LError "Could not find slave_thread_id";
          EvCondBroadcast; EvMutexUnlock thread_count_lock]
    /\ w_registered w2 = []
    /\ thread_count (w_adm w2) = 0.
Proof.
  pose proof (teardown_on_every_exit 9 4096 cluster_conn
                (World [ready_poll] [Eof] [] [] [] [] 0 [4096]
                       (set_count 1 init_state) [])) as H.
  vm_compute in H.
  destruct H as (w2 & tr & E & _ & _ & Ht & Hr & Ha & _).
  exists w2. vm_compute. rewrite E.
  split; [reflexivity |]. split; [exact Ht |]. split; [exact Hr |].
  rewrite Ha. reflexivity.
Defined.

End TeardownSamples.

(** * The accept loop *)

Section AcceptLoop.
Context {codes : slurm_codes}.

(** Two failures of [pthread_create] in a row: one retry after a millisecond,
    then the socket is closed and the loop left.  The count is what it was,
    and the slot holds whatever the second call left in it: nothing gives
    the slot back. *)
Lemma create_loop_fails_twice fuel i newsockfd w r1 t1 r2 t2 rest :
  w_creates w = (r1, t1) :: (r2, t2) :: rest ->
  r1 <> 0 -> r2 <> 0 ->
  exists w',
    create_loop (S (S fuel)) i newsockfd 0 w = Ret tt w'
    /\ thread_count (w_adm w') = thread_count (w_adm w)
    /\ slave_thread_id (w_adm w')
       = <[Z.to_nat i := t2]> (<[Z.to_nat i := t1]> (slave_thread_id (w_adm w)))
    /\ w_creates w' = rest
    /\ w_trace w'
       = w_trace w
           ++ [EvPthreadCreate i r1; EvLog LError "pthread_create failure: %m";
               EvUsleep 1000;
               EvPthreadCreate i r2;
               EvLog LError "pthread_create failure, aborting RPC: %m";
               EvClose newsockfd].
Proof.
  intros Hw H1 H2. cbn [create_loop].
  change (0 >? 0) with false. change (0 + 1 >? 0) with true. cbv iota.
  unfold bind at 1. unfold pthread_create at 1. rewrite Hw.
  destruct (Z.eqb_spec r1 0); [contradiction |]. cbn [negb].
  set (w1 := set_trace _ (set_adm _ (set_creates _ w))).
  unfold bind at 1. unfold log at 1. cbn [emit].
  set (w2 := set_trace _ w1).
  unfold bind at 1. cbn [emit].
  set (w3 := set_trace _ w2).
  unfold bind at 1. unfold pthread_create at 1.
  assert (Hc3 : w_creates w3 = (r2, t2) :: rest) by reflexivity.
  rewrite Hc3.
  destruct (Z.eqb_spec r2 0); [contradiction |]. cbn [negb].
  set (w4 := set_trace _ (set_adm _ (set_creates _ w3))).
  unfold bind at 1. unfold log at 1. cbn [emit].
  set (w5 := set_trace _ w4).
  eexists. split; [reflexivity |].
  split; [reflexivity |]. split; [reflexivity |]. split; [reflexivity |].
  cbn [w_trace set_trace]. unfold w5. cbn [w_trace set_trace].
  unfold w4. cbn [w_trace set_trace]. unfold w3. cbn [w_trace set_trace].
  unfold w2. cbn [w_trace set_trace]. unfold w1. cbn [w_trace set_trace].
  rewrite <- !app_assoc. reflexivity.
Qed.

(** The sibling path: a failed [accept] gives the slot back. *)
Lemma accept_failure_releases i w e rest :
  w_accepts w = (SLURM_SOCKET_ERROR, e) :: rest ->
  exists w',
    rpc_mgr_body i w = Ret tt w'
    /\ w_adm w' = fst (_free_server_thread 0 (w_adm w)).
Proof.
  intros Hw. unfold rpc_mgr_body, bind, slurm_accept_msg_conn. rewrite Hw.
  cbn [fst snd]. rewrite Z.eqb_refl.
  unfold free_server_thread.
  destruct (negb (e =? EINTR)); eexists; split; reflexivity.
Qed.

End AcceptLoop.

Section AcceptLoopSamples.
#[local] Existing Instance release_codes.

(** C3, evaluated where the code departs from it: a connection is accepted
    on descriptor 8 and [pthread_create] fails twice (EAGAIN).  The creation
    is retried once after [usleep(1000)], then the failure is logged and the
    descriptor closed -- and the turn ends with [thread_count] still at 1 and
    no broadcast: [_free_server_thread] is not called. *)
Theorem create_failure_keeps_slot :
  rpc_mgr_turn 1 0 []
    (World [] [] [] [] [(8, 0)] [(11, 0); (11, 0)] 0 [] (set_master 1 init_state) [])
  = Ret true
      (World [] [] [] [] [] [] 0 []
         (set_count 1 (set_master 1 init_state))
         [EvMutexLock thread_count_lock; EvMutexUnlock thread_count_lock;
          EvAccept 8; EvSetNonblocking 8;
          EvPthreadCreate 0 11; EvLog LError "pthread_create failure: %m";
          EvUsleep 1000;
          EvPthreadCreate 0 11;
          EvLog LError "pthread_create failure, aborting RPC: %m";
          EvClose 8]).
Proof. vm_compute. reflexivity. Qed.

(** For comparison, the turn in which [accept] fails: the slot is given
    back and the waiters are woken. *)
Lemma accept_failure_frees_slot :
  rpc_mgr_turn 1 0 []
    (World [] [] [] [] [(-1, 4)] [] 0 [] (set_master 1 init_state) [])
  = Ret true
      (World [] [] [] [] [] [] 0 [] (set_master 1 init_state)
         [EvMutexLock thread_count_lock; EvMutexUnlock thread_count_lock;
          EvAccept (-1);
          EvMutexLock thread_count_lock; EvCondBroadcast;
          EvMutexUnlock thread_count_lock]).
Proof. vm_compute. reflexivity. Qed.

End AcceptLoopSamples.

(** * Shutdown *)

Section Shutdown.
Context {codes : slurm_codes}.

Lemma no_io_calm tr : forallb no_io tr = true -> calm tr = true.
Proof.
  unfold calm. induction tr as [|e tr IH]; [reflexivity |].
  cbn [forallb]. intros H. apply andb_prop in H. destruct H as [He Ht].
  rewrite (IH Ht), andb_true_r.
  destruct e; try reflexivity. discriminate He.
Qed.

Lemma calm_quiet tr : calm tr = true -> quiet tr = true.
Proof.
  unfold calm. induction tr as [|e tr IH]; [reflexivity |].
  cbn [forallb quiet]. intros H. apply andb_prop in H. destruct H as [He Ht].
  destruct (shutdown_poll e); [discriminate He | exact (IH Ht)].
Qed.

Lemma quiet_app_passive tr1 tr2 :
  quiet tr1 = true -> forallb no_io tr2 = true -> quiet (tr1 ++ tr2) = true.
Proof.
  intros H1 H2. induction tr1 as [|e tr1 IH]; cbn [app quiet] in *.
  - apply calm_quiet, no_io_calm, H2.
  - destruct (shutdown_poll e); [| exact (IH H1)].
    rewrite forallb_app, H1, H2. reflexivity.
Qed.

Lemma quiet_app_calm tr1 tr2 :
  calm tr1 = true -> quiet tr2 = true -> quiet (tr1 ++ tr2) = true.
Proof.
  unfold calm. intros H1 H2. induction tr1 as [|e tr1 IH]; cbn [app quiet forallb] in *.
  - exact H2.
  - apply andb_prop in H1. destruct H1 as [He Ht].
    destruct (shutdown_poll e); [discriminate He | exact (IH Ht)].
Qed.

Lemma calm_app tr1 tr2 : calm (tr1 ++ tr2) = calm tr1 && calm tr2.
Proof. unfold calm. apply forallb_app. Qed.

(** [quiet], spelled out. *)
Lemma quiet_spec tr :
  quiet tr = true ->
  forall tr1 cfd p tr2,
    tr = tr1 ++ EvPoll cfd p :: tr2 -> p_shutdown p <> 0 ->
    forall e, In e tr2 -> is_read e = false /\ is_poll e = false.
Proof.
  intros Hq tr1. revert tr Hq.
  induction tr1 as [|e1 tr1 IH]; intros tr Hq cfd p tr2 -> Hp e He.
  - cbn [app quiet shutdown_poll] in Hq.
    destruct (Z.eqb_spec (p_shutdown p) 0); [contradiction |]. cbn [negb] in Hq.
    rewrite forallb_forall in Hq. specialize (Hq e He).
    unfold no_io in Hq. apply andb_prop in Hq.
    destruct Hq as [Hr Hpl]. split.
    + destruct (is_read e); [discriminate | reflexivity].
    + destruct (is_poll e); [discriminate | reflexivity].
  - cbn [app quiet] in Hq.
    destruct (shutdown_poll e1).
    + rewrite forallb_app in Hq. apply andb_prop in Hq. destruct Hq as [_ Hq].
      cbn [forallb] in Hq. apply andb_prop in Hq. destruct Hq as [_ Hq].
      rewrite forallb_forall in Hq. specialize (Hq e He).
      unfold no_io in Hq. apply andb_prop in Hq.
      destruct Hq as [Hr Hpl]. split.
      * destruct (is_read e); [discriminate | reflexivity].
      * destruct (is_poll e); [discriminate | reflexivity].
    + exact (IH _ Hq cfd p tr2 eq_refl Hp e He).
Qed.

(** *** Composition *)

Lemma obeys_bind {A B} (m : io A) (f : A -> io B) stop stop' :
  obeys m stop ->
  (forall a, stop a = false -> obeys (f a) stop') ->
  (forall a, stop a = true -> passive (f a) stop') ->
  obeys (bind m f) stop'.
Proof.
  intros Hm Hgo Hstop w. unfold bind. specialize (Hm w).
  destruct (m w) as [a w1 | w1 | w1 |]; try exact Hm.
  destruct Hm as (tr1 & E1 & Hq1 & Hc1).
  destruct (stop a) eqn:Hs.
  - specialize (Hstop a Hs w1).
    destruct (f a w1) as [b w2 | w2 | w2 |]; try exact Hstop.
    + destruct Hstop as (tr2 & E2 & Hp2 & Hb).
      exists (tr1 ++ tr2). split; [rewrite E2, E1, app_assoc; reflexivity |].
      split; [apply quiet_app_passive; assumption | right; exact Hb].
    + destruct Hstop as (tr2 & E2 & Hp2).
      exists (tr1 ++ tr2). split; [rewrite E2, E1, app_assoc; reflexivity |].
      apply quiet_app_passive; assumption.
  - destruct Hc1 as [Hc1 | Hc1]; [| discriminate].
    specialize (Hgo a Hs w1).
    destruct (f a w1) as [b w2 | w2 | w2 |]; try exact Hgo.
    + destruct Hgo as (tr2 & E2 & Hq2 & Hc2).
      exists (tr1 ++ tr2). split; [rewrite E2, E1, app_assoc; reflexivity |].
      split; [apply quiet_app_calm; assumption |].
      destruct Hc2 as [Hc2 | Hc2]; [left | right; exact Hc2].
      rewrite calm_app, Hc1, Hc2. reflexivity.
    + destruct Hgo as (tr2 & E2 & Hq2).
      exists (tr1 ++ tr2). split; [rewrite E2, E1, app_assoc; reflexivity |].
      apply quiet_app_calm; assumption.
Qed.

Lemma passive_obeys {A} (m : io A) stop stop' :
  passive m stop -> obeys m stop'.
Proof.
  intros Hm w. specialize (Hm w).
  destruct (m w) as [a w1 | w1 | w1 |]; try exact Hm.
  - destruct Hm as (tr & E & Hp & _). exists tr. split; [exact E |].
    split; [apply calm_quiet, no_io_calm, Hp | left; apply no_io_calm, Hp].
  - destruct Hm as (tr & E & Hp). exists tr. split; [exact E |].
    apply calm_quiet, no_io_calm, Hp.
Qed.

Lemma passive_weaken {A} (m : io A) (stop stop' : A -> bool) :
  (forall a, stop a = true -> stop' a = true) -> passive m stop -> passive m stop'.
Proof.
  intros Himp Hm w. specialize (Hm w).
  destruct (m w) as [a w1 | w1 | w1 |]; try exact Hm.
  destruct Hm as (tr & E & Hp & Hs). exists tr. auto.
Qed.

Lemma keeps_passive {A} P (m : io A) :
  (forall e, P e = true -> no_io e = true) ->
  keeps P m -> passive m (fun _ => true).
Proof.
  intros HP Hm w. specialize (Hm w).
  destruct (m w) as [a w1 | w1 | w1 |]; [| | exact Hm | destruct Hm].
  all: destruct Hm as [(tr & E & Hev) _ _ _ _ _ _]; exists tr; (split; [exact E |]);
    try (split; [| reflexivity]);
    apply forallb_forall; intros e He; apply HP;
    rewrite forallb_forall in Hev; exact (Hev e He).
Qed.

Lemma passive_ret {A} (a : A) stop : stop a = true -> passive (ret a) stop.
Proof.
  intros Hs w. exists []. split; [symmetry; apply app_nil_r |].
  split; [reflexivity | exact Hs].
Qed.

Lemma obeys_ret {A} (a : A) stop : obeys (ret a) stop.
Proof.
  intros w. exists []. split; [symmetry; apply app_nil_r |].
  split; [reflexivity | left; reflexivity].
Qed.

(** *** The calls and the loops *)

Lemma obeys_emit e (stop : unit -> bool) :
  shutdown_poll e = false -> obeys (emit e) stop.
Proof.
  intros He w. exists [e]. split; [reflexivity |].
  unfold calm. cbn. rewrite He. split; [reflexivity | left; reflexivity].
Qed.

Lemma fd_readable_from_obeys cfd : forall polls w,
  match fd_readable_from cfd polls w with
  | Ret b w' =>
      exists tr, w_trace w' = w_trace w ++ tr
                 /\ quiet tr = true /\ (calm tr = true \/ b = false)
  | Hang w' => exists tr, w_trace w' = w_trace w ++ tr /\ quiet tr = true
  | Fatal _ | OutOfFuel => False
  end.
Proof.
  induction polls as [|p rest IH]; intros w.
  - cbn. exists []. split; [symmetry; apply app_nil_r | reflexivity].
  - cbn [fd_readable_from].
    set (w1 := set_trace (w_trace w ++ [EvPoll cfd p]) (set_polls rest w)).
    destruct (Z.eqb_spec (p_shutdown p) 0) as [Hs | Hs]; cbn [negb].
    2:{ exists [EvPoll cfd p]. split; [reflexivity |].
        split; [| right; reflexivity].
        cbn. destruct (Z.eqb_spec (p_shutdown p) 0); [contradiction | reflexivity]. }
    assert (Hcalm : calm [EvPoll cfd p] = true).
    { unfold calm. cbn. rewrite Hs. reflexivity. }
    assert (Hlog : forall l m,
              match (log l m ;;; ret false) w1 with
              | Ret b w' =>
                  exists tr, w_trace w' = w_trace w ++ tr
                             /\ quiet tr = true /\ (calm tr = true \/ b = false)
              | Hang w' => exists tr, w_trace w' = w_trace w ++ tr /\ quiet tr = true
              | Fatal _ | OutOfFuel => False
              end).
    { intros l m. cbn. exists [EvPoll cfd p; EvLog l m].
      split; [rewrite <- app_assoc; reflexivity |].
      assert (Hc : calm [EvPoll cfd p; EvLog l m] = true)
        by (unfold calm; cbn; rewrite Hs; reflexivity).
      split; [apply calm_quiet, Hc | left; exact Hc]. }
    destruct (p_rc p =? -1).
    { destruct ((p_errno p =? EINTR) || (p_errno p =? EAGAIN)); [| apply Hlog].
      specialize (IH w1).
      destruct (fd_readable_from cfd rest w1) as [b w2 | w2 | w2 |]; try exact IH.
      - destruct IH as (tr & E & Hq & Hc).
        exists (EvPoll cfd p :: tr).
        split; [rewrite E; unfold w1; cbn [w_trace set_trace];
                rewrite <- app_assoc; reflexivity |].
        split; [apply (quiet_app_calm [EvPoll cfd p]); assumption |].
        destruct Hc as [Hc | Hc]; [left | right; exact Hc].
        apply (eq_trans (calm_app [EvPoll cfd p] tr)). rewrite Hcalm, Hc. reflexivity.
      - destruct IH as (tr & E & Hq).
        exists (EvPoll cfd p :: tr).
        split; [rewrite E; unfold w1; cbn [w_trace set_trace];
                rewrite <- app_assoc; reflexivity |].
        apply (quiet_app_calm [EvPoll cfd p]); assumption. }
    destruct (_ && _); [apply Hlog |].
    destruct (negb _); [apply Hlog |].
    destruct (negb _); [apply Hlog |].
    destruct (_ =? 0); [apply Hlog |].
    exists [EvPoll cfd p]. split; [reflexivity |].
    split; [apply calm_quiet, Hcalm | left; exact Hcalm].
Qed.

Lemma fd_readable_obeys cfd : obeys (_fd_readable cfd) negb.
Proof.
  intros w. unfold _fd_readable.
  pose proof (fd_readable_from_obeys cfd (w_polls w) w) as H.
  destruct (fd_readable_from cfd (w_polls w) w) as [b w1 | w1 | w1 |];
    [| exact H | exact H | destruct H].
  destruct H as (tr & E & Hq & Hc). exists tr. split; [exact E |].
  split; [exact Hq |]. destruct Hc as [Hc | ->]; [left; exact Hc | right; reflexivity].
Qed.

Lemma sys_read_obeys cfd count :
  obeys (sys_read cfd count) (fun _ => false).
Proof.
  intros w. unfold sys_read.
  destruct (w_stream w) as [|[bs | | e] rest];
    (eexists; split; [reflexivity |]; split; [reflexivity | left; reflexivity]).
Qed.

Lemma log_ret_obeys {A} l m (a : A) stop : obeys (log l m ;;; ret a) stop.
Proof.
  intros w. cbn. exists [EvLog l m]. split; [reflexivity |].
  split; [reflexivity | left; reflexivity].
Qed.

Lemma read_payload_obeys cfd L : forall fuel offset msg,
  obeys (read_payload fuel cfd L offset msg) (fun po => negb (L =? fst po)).
Proof.
  induction fuel as [|fuel IH]; intros offset msg; [intros w; exact I |].
  cbn [read_payload].
  destruct (Z.gtb_spec L offset) as [Hgt | Hle]; [| apply obeys_ret].
  apply (obeys_bind _ _ negb); [apply fd_readable_obeys | |].
  - intros b Hb. destruct b; [| discriminate]. cbn [negb].
    apply (obeys_bind _ _ (fun _ => false)); [apply sys_read_obeys | | discriminate].
    intros r _. destruct (fst r <=? 0); [apply log_ret_obeys | apply IH].
  - intros b Hb. destruct b; [discriminate |]. cbn [negb].
    apply passive_ret. cbn [fst].
    destruct (Z.eqb_spec L offset); [lia | reflexivity].
Qed.

Lemma dispatch_replies ls msg msg_size : keeps reply_event (dispatch ls msg msg_size).
Proof.
  unfold dispatch. apply keeps_bind; [apply proc_req_keeps; reflexivity |].
  intros pr. apply keeps_if; [| apply keeps_ret].
  apply keeps_bind; [apply keeps_log; reflexivity |].
  intros _. apply keeps_if; apply keeps_ret.
Qed.

Lemma respond_replies ls : keeps reply_event (respond ls).
Proof.
  unfold respond. apply keeps_bind; [apply send_msg_keeps; reflexivity |].
  intros sret. apply keeps_bind.
  - apply keeps_if; [| apply keeps_ret].
    apply keeps_bind; [| intros _; apply keeps_ret].
    apply keeps_if; [apply keeps_log; reflexivity | apply keeps_ret].
  - intros ls1. apply keeps_bind; [apply keeps_emit; reflexivity |].
    intros _. apply keeps_bind; [apply keeps_emit; reflexivity |].
    intros _. apply keeps_ret.
Qed.

Lemma frame_tail_replies ls msg_size po : keeps reply_event (frame_tail ls msg_size po).
Proof.
  unfold frame_tail. apply keeps_bind.
  - apply keeps_if; [apply dispatch_replies |].
    apply keeps_bind; [apply keeps_emit; reflexivity |].
    intros _. apply keeps_ret.
  - intros ls1. apply keeps_bind; [apply respond_replies |].
    intros ls2. apply keeps_ret.
Qed.

Lemma reply_event_no_io e : reply_event e = true -> no_io e = true.
Proof. unfold reply_event. intros H. apply andb_prop in H. apply H. Qed.

Lemma respond_fini ls w ls2 w' :
  respond ls w = Ret ls2 w' -> l_fini ls = true -> l_fini ls2 = true.
Proof.
  unfold respond, bind, slurm_persist_send_msg.
  destruct (w_sends w) as [|r rest]; [discriminate |].
  destruct (negb (r =? SLURM_SUCCESS));
    [destruct (negb (rem_port (conn (l_conn ls)) =? 0)) |];
    cbn; intros [= <- _]; trivial.
Qed.

Lemma frame_tail_short_fini ls L po w r w' :
  fst po <> L ->
  frame_tail ls L po w = Ret r w' -> l_fini (fst r) = true.
Proof.
  intros Hne. unfold frame_tail.
  destruct (Z.eqb_spec L (fst po)); [congruence |].
  unfold bind at 1. unfold bind at 1. cbn [emit ret].
  unfold bind at 1.
  destruct (respond _ _) as [ls2 w2 | w2 | w2 |] eqn:E; try discriminate.
  cbn [ret]. intros [= <- _]. cbn [fst].
  exact (respond_fini _ _ _ _ E eq_refl).
Qed.

Lemma frame_tail_passive ls L po :
  passive (frame_tail ls L po) (fun _ => true).
Proof.
  apply (keeps_passive reply_event); [apply reply_event_no_io | apply frame_tail_replies].
Qed.

Lemma frame_tail_passive_short ls L po :
  fst po <> L -> passive (frame_tail ls L po) pass_ends.
Proof.
  intros Hne w. pose proof (frame_tail_passive ls L po w) as H.
  destruct (frame_tail ls L po w) as [r w1 | w1 | w1 |] eqn:E; try exact H.
  destruct H as (tr & Et & Hp & _). exists tr. split; [exact Et |].
  split; [exact Hp |]. unfold pass_ends.
  rewrite (frame_tail_short_fini _ _ _ _ _ _ Hne E). apply orb_true_r.
Qed.

Lemma frame_body_obeys ls cfd L : obeys (frame_body ls cfd L) pass_ends.
Proof.
  unfold frame_body.
  apply (obeys_bind _ _ (fun _ => false));
    [apply obeys_emit; reflexivity | | discriminate].
  intros _ _.
  apply (obeys_bind _ _ (fun po => negb (L =? fst po))).
  - intros w. unfold read_payload_run. apply read_payload_obeys.
  - intros po Hpo. apply (passive_obeys _ (fun _ => true)). apply frame_tail_passive.
  - intros po Hpo. apply frame_tail_passive_short.
    destruct (Z.eqb_spec L (fst po)); [discriminate | congruence].
Qed.

Lemma read_frame_obeys ls cfd : obeys (read_frame ls cfd) pass_ends.
Proof.
  unfold read_frame.
  apply (obeys_bind _ _ (fun _ => false)); [apply sys_read_obeys | | discriminate].
  intros r _. destruct (fst r =? 0); [apply obeys_ret |].
  destruct (negb (fst r =? 4)); [apply log_ret_obeys |].
  destruct (_ || _); [apply log_ret_obeys | apply frame_body_obeys].
Qed.

Lemma service_body_obeys ls : obeys (service_body ls) pass_ends.
Proof.
  unfold service_body.
  apply (obeys_bind _ _ negb); [apply fd_readable_obeys | |].
  - intros b Hb. destruct b; [| discriminate]. apply read_frame_obeys.
  - intros b Hb. destruct b; [discriminate |]. apply passive_ret. reflexivity.
Qed.

Lemma service_loop_obeys : forall fuel ls,
  obeys (service_loop fuel ls) (fun _ => true).
Proof.
  induction fuel as [|fuel IH]; intros ls; [intros w; exact I |].
  cbn [service_loop].
  destruct (negb (l_fini ls)); [| apply obeys_ret].
  apply (obeys_bind _ _ pass_ends); [apply service_body_obeys | |].
  - intros r Hr. destruct (snd r); [apply obeys_ret | apply IH].
  - intros r Hr. unfold pass_ends in Hr.
    destruct (snd r); [apply passive_ret; reflexivity |].
    cbn [orb] in Hr.
    destruct fuel as [|fuel']; [intros w; exact I |].
    cbn [service_loop]. rewrite Hr. apply passive_ret. reflexivity.
Qed.

Lemma free_server_thread_no_io my_tid st :
  forallb no_io (snd (_free_server_thread my_tid st)) = true.
Proof.
  rewrite free_server_thread_trace.
  apply forallb_forall. intros e He.
  cbn [In] in He. rewrite !in_app_iff in He. cbn [In] in He.
  destruct He as [<- | [[He | He] | [<- | [<- | []]]]]; try reflexivity.
  - apply count_down_log in He. destruct He as [-> _]. reflexivity.
  - apply forget_thread_log in He. subst e. reflexivity.
Qed.

Lemma teardown_passive self conn_ptr cfd ls :
  passive (teardown self conn_ptr cfd ls) (fun _ => true).
Proof.
  intros w.
  destruct (teardown_result self conn_ptr cfd ls w) as (w' & E & Ht & _).
  rewrite E. exists (teardown_events self conn_ptr (l_conn ls) w).
  split; [exact Ht |]. split; [| reflexivity].
  unfold teardown_events.
  rewrite !forallb_app, free_server_thread_no_io.
  destruct (negb (rem_port (conn (l_conn ls)) =? 0)); cbn [andb];
    [destruct (w_shutdown w =? 0);
     [destruct (snd (registry_remove conn_ptr (w_registered w))) |] |];
    reflexivity.
Qed.

Lemma service_connection_obeys self conn_ptr c :
  obeys (_service_connection self conn_ptr c) (fun _ => true).
Proof.
  unfold _service_connection.
  apply (obeys_bind _ _ (fun _ => false));
    [apply obeys_emit; reflexivity | | discriminate].
  intros _ _.
  apply (obeys_bind _ _ (fun _ => true)).
  - intros w. unfold service_loop_run. apply service_loop_obeys.
  - discriminate.
  - intros ls _. apply teardown_passive.
Qed.

Lemma fd_readable_retries cfd : forall retries w p rest,
  w_polls w = retries ++ p :: rest ->
  Forall (fun q => poll_retry q = true) retries ->
  p_shutdown p <> 0 ->
  exists w',
    _fd_readable cfd w = Ret false w'
    /\ w_polls w' = rest
    /\ w_stream w' = w_stream w
    /\ w_trace w' = w_trace w ++ map (EvPoll cfd) (retries ++ [p]).
Proof.
  unfold _fd_readable.
  assert (H : forall retries p rest w,
             Forall (fun q => poll_retry q = true) retries ->
             p_shutdown p <> 0 ->
             exists w',
               fd_readable_from cfd (retries ++ p :: rest) w = Ret false w'
               /\ w_polls w' = rest
               /\ w_stream w' = w_stream w
               /\ w_trace w' = w_trace w ++ map (EvPoll cfd) (retries ++ [p])).
  { induction retries as [|q retries IH]; intros p rest w Hr Hp.
    - cbn [app fd_readable_from map].
      destruct (Z.eqb_spec (p_shutdown p) 0); [contradiction |]. cbn [negb].
      eexists. repeat split.
    - pose proof (Forall_inv Hr) as Hq. pose proof (Forall_inv_tail Hr) as Hr'.
      cbn beta in Hq. unfold poll_retry in Hq.
      apply andb_prop in Hq. destruct Hq as [Hq He].
      apply andb_prop in Hq. destruct Hq as [Hs Hrc].
      cbn [app fd_readable_from map]. rewrite Hs, Hrc, He. cbn [negb].
      destruct (IH p rest
                  (set_trace (w_trace w ++ [EvPoll cfd q])
                             (set_polls (retries ++ p :: rest) w)) Hr' Hp)
        as (w' & E & Hpl & Hst & Ht).
      exists w'. split; [exact E |]. split; [exact Hpl |]. split; [exact Hst |].
      rewrite Ht. cbn [w_trace set_trace]. rewrite <- app_assoc. reflexivity. }
  intros retries w p rest Hw Hr Hp. rewrite Hw. apply H; assumption.
Qed.

(** C9 -- Shutdown first.  (a) Whatever a [poll] returns -- input available,
    hang-up, an error, a failure of [poll] itself -- if the shutdown flag is
    set when it returns, [_fd_readable] answers no, without polling again.
    (b) In every run of [_service_connection], after a [poll] that saw the
    shutdown flag set the worker issues no further [read] and no further
    [poll] on its connection; and the run ends or blocks, it never lacks
    fuel. *)
Theorem shutdown_before_readability :
  (forall cfd w retries p rest,
     w_polls w = retries ++ p :: rest ->
     Forall (fun q => poll_retry q = true) retries ->
     p_shutdown p <> 0 ->
     exists w',
       _fd_readable cfd w = Ret false w'
       /\ w_polls w' = rest
       /\ w_stream w' = w_stream w
       /\ w_trace w' = w_trace w ++ map (EvPoll cfd) (retries ++ [p]))
  /\ (forall self conn_ptr c w,
        match _service_connection self conn_ptr c w with
        | Ret _ w' | Hang w' =>
            exists tr,
              w_trace w' = w_trace w ++ tr
              /\ forall tr1 cfd p tr2,
                   tr = tr1 ++ EvPoll cfd p :: tr2 -> p_shutdown p <> 0 ->
                   forall e, In e tr2 -> is_read e = false /\ is_poll e = false
        | Fatal _ | OutOfFuel => False
        end).
Proof.
  split; [intros cfd w retries p rest; apply fd_readable_retries |].
  intros self conn_ptr c w.
  pose proof (service_connection_obeys self conn_ptr c w) as H.
  rewrite service_connection_unfold in H |- *.
  pose proof (service_loop_run_keeps (loop_start c)
                (set_trace (w_trace w ++ [EvLog LDebug2 "Opened connection"]) w)) as Hk.
  destruct (service_loop_run (loop_start c) _) as [ls w1 | w1 | w1 |].
  - destruct (teardown_result self conn_ptr (fd (conn c)) ls w1) as (w2 & E & _).
    rewrite E in H |- *.
    destruct H as (tr & Et & Hq & _). exists tr. split; [exact Et |].
    apply quiet_spec. exact Hq.
  - destruct H as (tr & Et & Hq). exists tr. split; [exact Et |].
    apply quiet_spec. exact Hq.
  - exact Hk.
  - exact Hk.
Qed.

End Shutdown.

Section ShutdownSamples.
#[local] Existing Instance release_codes.

Lemma shutdown_before_readability_witness :
  (exists w',
     _fd_readable 5
       (sample_world [PollRes (-1) 0 EINTR 0; PollRes 1 POLLIN 0 1700000000]
          [Bytes ["000"; "000"; "000"; "002"]%byte] [] [])
     = Ret false w'
     /\ w_polls w' = []
     /\ w_stream w' = [Bytes ["000"; "000"; "000"; "002"]%byte])
  /\ (exists w',
        _fd_readable 5
          (sample_world [PollRes (-1) 0 9 1700000000; ready_poll] [] [] [])
        = Ret false w'
        /\ w_polls w' = [ready_poll]).
Proof.
  split.
  - destruct (proj1 shutdown_before_readability 5
                (sample_world [PollRes (-1) 0 EINTR 0; PollRes 1 POLLIN 0 1700000000]
                   [Bytes ["000"; "000"; "000"; "002"]%byte] [] [])
                [PollRes (-1) 0 EINTR 0] (PollRes 1 POLLIN 0 1700000000) [])
      as (w' & E & Hp & Hs & _).
    + reflexivity.
    + repeat constructor.
    + discriminate.
    + exists w'. split; [exact E |]. split; [exact Hp | exact Hs].
  - destruct (proj1 shutdown_before_readability 5
                (sample_world [PollRes (-1) 0 9 1700000000; ready_poll] [] [] [])
                [] (PollRes (-1) 0 9 1700000000) [ready_poll])
      as (w' & E & Hp & _).
    + reflexivity.
    + constructor.
    + discriminate.
    + exists w'. split; [exact E | exact Hp].
Defined.

(** A run in which the shutdown flag is seen while the payload is awaited:
    the rest of the frame is not read, the error reply is attempted and the
    connection torn down. *)
Example shutdown_during_payload :
  w_trace
    match _service_connection 9 4096 oneshot_conn
            (World [ready_poll; ready_poll; PollRes 1 POLLIN 0 1700000000; ready_poll]
               [Bytes ["000"; "000"; "000"; "003"]%byte; Bytes ["001"]%byte;
                Bytes ["002"; "003"]%byte]
               [] [0] [] [] 1700000000 [] (set_count 1 init_state) []) with
    | Ret _ w' | Hang w' | Fatal w' => w'
    | OutOfFuel => sample_world [] [] [] []
    end
  = [EvLog LDebug2 "Opened connection";
     EvPoll 5 ready_poll; EvRead 5 4 4; EvXmalloc 3;
     EvPoll 5 ready_poll; EvRead 5 3 1;
     EvPoll 5 (PollRes 1 POLLIN 0 1700000000);
     EvMakeRcMsg (-1) "Bad offset"; EvSend (BufRcMsg (-1) "Bad offset") 0;
     EvFreeBuf; EvXfreeMsg;
     EvCloseConnection 0; EvMembersDestroy; EvLog LDebug2 "Closed connection";
     EvXfreeTres; EvXfreeConn 4096;
     EvMutexLock thread_count_lock;
     EvLog LError "Could not find slave_thread_id";
     EvCondBroadcast; EvMutexUnlock thread_count_lock].
Proof. vm_compute. reflexivity. Qed.

End ShutdownSamples.

(** * Scenarios *)

Section Scenarios.
#[local] Existing Instance release_codes.

(** A hundred connections arrive: each is granted the next slot. *)
Example hundred_connections_fill_the_table :
  run init_state
      (flat_map (fun k => [OpAcquire 1 0 true; OpCreated k (Z.of_nat (2 + k))])
                (seq 0 100))
  = Some (RpcState 0 (map Z.of_nat (seq 2 100)) 100 0 0 []).
Proof. vm_compute. reflexivity. Qed.

(** The next one waits, and is granted slot 3 once the worker sitting there
    (thread 5) has released it. *)
Example next_connection_waits_for_a_release :
  wait_for_server_thread_pass 1 0 true full_state
  = WaitBlocked false (set_waiters [1] (set_last_print 0 full_state)) [EvCondWait]
  /\ wait_for_server_thread_pass 1 0 false (fst (_free_server_thread 5 full_state))
     = WaitReturn 3
         (set_count 100 (fst (_free_server_thread 5 full_state)))
         [EvMutexUnlock thread_count_lock].
Proof. split; vm_compute; reflexivity. Qed.

(** A client sends one frame of ten bytes, in two pieces, and closes: one
    request is processed, one response sent, and the teardown releases the
    slot. *)
Example one_frame_then_close :
  _service_connection 9 4096 oneshot_conn
    (World [ready_poll; ready_poll; ready_poll; ready_poll]
       [Bytes ["000"; "000"; "000"; "010"]%byte;
        Bytes ["001"; "002"; "003"; "004"]%byte;
        Bytes ["005"; "006"; "007"; "008"; "009"; "010"]%byte;
        Eof]
       [ProcResult 0 (BufReply ["042"]%byte) 1000 oneshot_conn] [0]
       [] [] 0 [] (set_slaves (<[0%nat := 9]> (slave_thread_id init_state))
                              (set_count 1 init_state)) [])
  = Ret tt
      (World [] [Eof] [] [] [] [] 0 [] init_state
         [EvLog LDebug2 "Opened connection";
          EvPoll 5 ready_poll; EvRead 5 4 4; EvXmalloc 10;
          EvPoll 5 ready_poll; EvRead 5 10 4;
          EvPoll 5 ready_poll; EvRead 5 6 6;
          EvProcReq ["001"; "002"; "003"; "004"; "005"; "006"; "007"; "008";
                     "009"; "010"]%byte 10 true 0;
          EvSend (BufReply ["042"]%byte) 0; EvFreeBuf; EvXfreeMsg;
          EvPoll 5 ready_poll; EvRead 5 4 0;
          EvCloseConnection 0; EvMembersDestroy;
          EvLog LDebug2 "Closed connection"; EvXfreeTres; EvXfreeConn 4096;
          EvMutexLock thread_count_lock; EvCondBroadcast;
          EvMutexUnlock thread_count_lock]).
Proof. vm_compute. reflexivity. Qed.

(** A client announces twenty bytes, delivers five and closes: the request
    processor is not called, the error reply goes out, the connection is torn
    down. *)
Example short_frame_then_close :
  _service_connection 9 4096 oneshot_conn
    (World [ready_poll; ready_poll; ready_poll]
       [Bytes ["000"; "000"; "000"; "020"]%byte;
        Bytes ["001"; "002"; "003"; "004"; "005"]%byte;
        Eof]
       [] [0]
       [] [] 0 [] (set_slaves (<[0%nat := 9]> (slave_thread_id init_state))
                              (set_count 1 init_state)) [])
  = Ret tt
      (World [] [Eof] [] [] [] [] 0 [] init_state
         [EvLog LDebug2 "Opened connection";
          EvPoll 5 ready_poll; EvRead 5 4 4; EvXmalloc 20;
          EvPoll 5 ready_poll; EvRead 5 20 5;
          EvPoll 5 ready_poll; EvRead 5 15 0; EvLog LError "read: %m";
          EvMakeRcMsg (-1) "Bad offset"; EvSend (BufRcMsg (-1) "Bad offset") 0;
          EvFreeBuf; EvXfreeMsg;
          EvCloseConnection 0; EvMembersDestroy;
          EvLog LDebug2 "Closed connection"; EvXfreeTres; EvXfreeConn 4096;
          EvMutexLock thread_count_lock; EvCondBroadcast;
          EvMutexUnlock thread_count_lock]).
Proof. vm_compute. reflexivity. Qed.

End Scenarios.

(** * Further properties of the admission controller *)

Section AdmissionMore.

Lemma clear_slot_absent my_tid tab :
  (forall j, (j < Z.to_nat MAX_THREAD_COUNT)%nat -> slot tab j <> my_tid) ->
  clear_slot my_tid tab 0 (Z.to_nat MAX_THREAD_COUNT) = (tab, false).
Proof.
  intros Habs.
  destruct (clear_slot_spec my_tid tab (Z.to_nat MAX_THREAD_COUNT) 0)
    as [[E _] | (k & Hk & _ & Hkz & _)]; [exact E |].
  exfalso. apply (Habs k); [lia | exact Hkz].
Qed.

Lemma count_down_slaves st :
  slave_thread_id (fst (count_down st)) = slave_thread_id st.
Proof. unfold count_down. destruct (thread_count st >? 0); reflexivity. Qed.

(** X1 -- A slot that was granted and given back without a thread
    ([accept] failed, the caller passes 0) leaves the count and the table as
    they were before the admission. *)
Theorem acquire_then_release_restores : forall self now p st i,
  shutdown_time st = 0 ->
  0 <= thread_count st < MAX_THREAD_COUNT ->
  lowest_free (slave_thread_id st) i ->
  exists st1 tr,
    wait_for_server_thread_pass self now p st = WaitReturn (Z.of_nat i) st1 tr
    /\ thread_count (fst (_free_server_thread 0 st1)) = thread_count st
    /\ slave_thread_id (fst (_free_server_thread 0 st1)) = slave_thread_id st
    /\ master_thread_id (fst (_free_server_thread 0 st1)) = master_thread_id st
    /\ ~ In (EvLog LError "thread_count underflow") (snd (_free_server_thread 0 st1)).
Proof.
  intros self now p st i Hs Hc Hfree.
  eexists. eexists. split; [apply pass_granted; [exact Hs | lia | exact Hfree] |].
  set (st1 := set_count (thread_count st + 1) st).
  assert (Hc1 : thread_count st1 = thread_count st + 1) by reflexivity.
  split; [| split; [| split]].
  - rewrite free_server_thread_count, Hc1.
    destruct (Z.gtb_spec (thread_count st + 1) 0); lia.
  - rewrite free_server_thread_slaves_zero. reflexivity.
  - rewrite (proj1 (free_server_thread_frame 0 st1)). reflexivity.
  - rewrite free_server_thread_log, Hc1. lia.
Qed.

Lemma acquire_then_release_restores_witness :
  exists st1 tr,
    wait_for_server_thread_pass 1 0 true init_state = WaitReturn (Z.of_nat 0) st1 tr
    /\ thread_count (fst (_free_server_thread 0 st1)) = thread_count init_state
    /\ slave_thread_id (fst (_free_server_thread 0 st1)) = slave_thread_id init_state.
Proof.
  destruct (acquire_then_release_restores 1 0 true init_state 0)
    as (st1 & tr & E & Hc & Ht & _).
  - reflexivity.
  - vm_compute. split; [discriminate | reflexivity].
  - apply lowest_free_computed. vm_compute. reflexivity.
  - exists st1, tr. split; [exact E |]. split; [exact Hc | exact Ht].
Defined.



(** X3 -- A release by a thread whose identity is not in the table: the
    table is left alone and "Could not find slave_thread_id" is logged, but
    the count is decremented all the same and the waiters are woken. *)
Theorem release_of_unrecorded_thread : forall my_tid st,
  my_tid <> 0 ->
  (forall j, (j < Z.to_nat MAX_THREAD_COUNT)%nat ->
     slot (slave_thread_id st) j <> my_tid) ->
  slave_thread_id (fst (_free_server_thread my_tid st)) = slave_thread_id st
  /\ In (EvLog LError "Could not find slave_thread_id")
        (snd (_free_server_thread my_tid st))
  /\ thread_count (fst (_free_server_thread my_tid st))
     = (if thread_count st >? 0 then thread_count st - 1 else thread_count st)
  /\ In EvCondBroadcast (snd (_free_server_thread my_tid st)).
Proof.
  intros my_tid st Hnz Habs.
  assert (Hf : forget_thread my_tid (fst (count_down st))
               = (set_slaves (slave_thread_id st) (fst (count_down st)),
                  [EvLog LError "Could not find slave_thread_id"])).
  { unfold forget_thread.
    destruct (Z.eqb_spec my_tid 0); [contradiction |]. cbn [negb].
    rewrite count_down_slaves, (clear_slot_absent my_tid _ Habs). reflexivity. }
  split; [| split; [| split]].
  - unfold _free_server_thread. cbn [fst]. rewrite Hf. reflexivity.
  - rewrite free_server_thread_trace, Hf. cbn [snd In].
    right. rewrite !in_app_iff. left. right. left. reflexivity.
  - apply free_server_thread_count.
  - rewrite free_server_thread_trace. cbn [In]. right.
    rewrite in_app_iff. right. left. reflexivity.
Qed.

Lemma release_of_unrecorded_thread_witness :
  slave_thread_id (fst (_free_server_thread 4242 full_state))
  = slave_thread_id full_state
  /\ In (EvLog LError "Could not find slave_thread_id")
        (snd (_free_server_thread 4242 full_state))
  /\ thread_count (fst (_free_server_thread 4242 full_state)) = 99.
Proof.
  destruct (release_of_unrecorded_thread 4242 full_state) as (H1 & H2 & H3 & _).
  - discriminate.
  - intros j Hj.
    assert (Hs : slot (slave_thread_id full_state) j = Z.of_nat (2 + j)).
    { unfold slot, full_state. cbn [slave_thread_id].
      rewrite list_lookup_fmap, lookup_seq_lt by exact Hj. reflexivity. }
    rewrite Hs. change (Z.to_nat MAX_THREAD_COUNT) with 100%nat in Hj. lia.
  - split; [exact H1 |]. split; [exact H2 |]. rewrite H3. reflexivity.
Defined.

(** X4 -- The whole call of [_wait_for_server_thread] when it has to wait.
    It sleeps on the condition variable once for the state it starts in and
    once for every wake-up that still finds the count at the limit, and it
    returns at the first wake-up that does not: with -1 if shutdown is set by
    then, otherwise with the lowest clear slot and the count incremented.
    Wake-ups after that one play no part. *)
Theorem wait_returns_at_first_opening : forall self now st blocked now' st' rest,
  at_limit st ->
  Forall (fun ns => at_limit (snd ns)) blocked ->
  (shutdown_time st' <> 0 ->
     exists tr,
       _wait_for_server_thread self now st (blocked ++ (now', st') :: rest)
       = Some (WaitReturn (-1) st'
                 (EvMutexLock thread_count_lock :: tr
                    ++ [EvMutexUnlock thread_count_lock]))
       /\ count_events is_cond_wait tr = S (length blocked))
  /\ (forall i,
        shutdown_time st' = 0 -> thread_count st' < MAX_THREAD_COUNT ->
        lowest_free (slave_thread_id st') i ->
        exists tr,
          _wait_for_server_thread self now st (blocked ++ (now', st') :: rest)
          = Some (WaitReturn (Z.of_nat i) (set_count (thread_count st' + 1) st')
                    (EvMutexLock thread_count_lock :: tr
                       ++ [EvMutexUnlock thread_count_lock]))
          /\ count_events is_cond_wait tr = S (length blocked)).
Proof.
  intros self now st blocked now' st' rest Hst Hall.
  unfold _wait_for_server_thread.
  destruct (wait_loop_sleeps self blocked true now st
              [EvMutexLock thread_count_lock] now' st' rest Hst Hall)
    as (tr & E & Hw & _).
  rewrite E. split.
  - intros Hs. exists tr. split; [| exact Hw].
    destruct rest; cbn [wait_loop]; rewrite (pass_shutdown _ _ _ _ Hs); reflexivity.
  - intros i Hs Hc Hfree. exists tr. split; [| exact Hw].
    destruct rest; cbn [wait_loop];
      rewrite (pass_granted _ _ _ _ _ Hs Hc Hfree); reflexivity.
Qed.

Lemma wait_returns_at_first_opening_witness :
  (exists tr,
     _wait_for_server_thread 1 0 full_state
       [(1, full_state); (2, set_shutdown 7 full_state); (3, full_state)]
     = Some (WaitReturn (-1) (set_shutdown 7 full_state)
               (EvMutexLock thread_count_lock :: tr
                  ++ [EvMutexUnlock thread_count_lock])))
  /\ (exists tr,
        _wait_for_server_thread 1 0 full_state
          [(1, full_state); (2, fst (_free_server_thread 5 full_state))]
        = Some (WaitReturn (Z.of_nat 3)
                  (set_count
                     (thread_count (fst (_free_server_thread 5 full_state)) + 1)
                     (fst (_free_server_thread 5 full_state)))
                  (EvMutexLock thread_count_lock :: tr
                     ++ [EvMutexUnlock thread_count_lock]))).
Proof.
  assert (Hfull : at_limit full_state) by (split; [vm_compute; discriminate | reflexivity]).
  split.
  - destruct (proj1 (wait_returns_at_first_opening 1 0 full_state
                       [(1, full_state)] 2 (set_shutdown 7 full_state)
                       [(3, full_state)] Hfull
                       ltac:(constructor; [exact Hfull | constructor])))
      as (tr & E & _).
    + discriminate.
    + exists tr. exact E.
  - destruct (proj2 (wait_returns_at_first_opening 1 0 full_state
                       [(1, full_state)] 2 (fst (_free_server_thread 5 full_state))
                       [] Hfull
                       ltac:(constructor; [exact Hfull | constructor])) 3%nat)
      as (tr & E & _).
    + reflexivity.
    + vm_compute. reflexivity.
    + apply lowest_free_computed. vm_compute. reflexivity.
    + exists tr. exact E.
Defined.

Lemma wait_loop_silent self : forall wakeups now st acc o,
  wait_loop self false now st wakeups acc = Some o ->
  count_events is_verbose (outcome_trace o) = count_events is_verbose acc.
Proof.
  induction wakeups as [|[nb sb] wakeups IH]; intros now st acc o;
    cbn [wait_loop]; unfold wait_for_server_thread_pass;
    destruct (negb (shutdown_time st =? 0));
    try (intros [= <-]; cbn [outcome_trace]; rewrite count_events_app;
         cbn; lia);
    (destruct (thread_count st <? MAX_THREAD_COUNT);
     [cbv zeta; destruct (_ =? -1); intros [= <-]; cbn [outcome_trace];
      rewrite count_events_app; cbn; lia |]).
  - discriminate.
  - intros E. apply IH in E. rewrite E, count_events_app. cbn. lia.
Qed.

(** X5 -- "thread_count over limit" is logged at most once per call of
    [_wait_for_server_thread], however often the caller is woken and sent
    back to sleep; and not at all unless the call found the count at the
    limit with the last such message more than two seconds old. *)
Theorem over_limit_logged_once : forall self now st wakeups o,
  _wait_for_server_thread self now st wakeups = Some o ->
  (count_events is_verbose (outcome_trace o) <= 1)%nat
  /\ (count_events is_verbose (outcome_trace o) = 1%nat ->
      at_limit st /\ 2 < now - last_print_time st).
Proof.
  intros self now st wakeups o. unfold _wait_for_server_thread.
  assert (Hzero : forall tr, count_events is_verbose tr = 0%nat ->
            (count_events is_verbose tr <= 1)%nat
            /\ (count_events is_verbose tr = 1%nat ->
                at_limit st /\ 2 < now - last_print_time st)).
  { intros tr ->. split; [lia | discriminate]. }
  destruct (Z.eq_dec (shutdown_time st) 0) as [Hs | Hs].
  - destruct (Z.lt_ge_cases (thread_count st) MAX_THREAD_COUNT) as [Hc | Hc].
    + destruct wakeups as [|[nb sb] wakeups]; cbn [wait_loop];
        rewrite (pass_below_limit _ _ _ _ Hs Hc); cbv zeta;
        destruct (_ =? -1); intros [= <-]; apply Hzero; reflexivity.
    + assert (Hst : at_limit st) by (split; assumption).
      destruct (pass_at_limit self now true st Hst) as (st1 & tr & E & _ & Hv & _).
      destruct wakeups as [|[nb sb] wakeups]; cbn [wait_loop]; rewrite E;
        [discriminate |].
      intros Hw. apply wait_loop_silent in Hw.
      rewrite Hw, count_events_app, Hv. cbn [andb].
      destruct (Z.gtb_spec (now - last_print_time st) 2).
      * split; [cbn; lia |]. intros _. split; [exact Hst | lia].
      * cbn. split; [lia | intros Habs; discriminate Habs].
  - destruct wakeups as [|[nb sb] wakeups]; cbn [wait_loop];
      rewrite (pass_shutdown _ _ _ _ Hs); intros [= <-]; apply Hzero; reflexivity.
Qed.

Lemma over_limit_logged_once_witness :
  exists o,
    _wait_for_server_thread 1 50 full_state
      [(51, full_state); (52, full_state); (60, set_shutdown 7 full_state)]
    = Some o
    /\ count_events is_verbose (outcome_trace o) = 1%nat
    /\ (count_events is_verbose (outcome_trace o) <= 1)%nat.
Proof.
  eexists. split; [vm_compute; reflexivity |]. split; [vm_compute; reflexivity |].
  apply (over_limit_logged_once 1 50 full_state
           [(51, full_state); (52, full_state); (60, set_shutdown 7 full_state)]).
  vm_compute. reflexivity.
Defined.

Lemma kill_slaves_recorded tab n : forall i,
  signalled (kill_slaves tab i n) = live (map (slot tab) (seq i n)).
Proof.
  unfold live.
  induction n as [|n IH]; intros i; cbn [kill_slaves seq map List.filter];
    [reflexivity |].
  rewrite signalled_app, IH.
  destruct (negb (slot tab i =? 0)); reflexivity.
Qed.

(** X6 -- Who is signalled at shutdown.  [rpc_mgr_wake] signals the manager,
    if registered, and then every nonzero slot entry once, in index order.
    [_wait_for_thread_fini] does nothing at all when it finds
    [thread_count] at 0 -- whatever the table holds; otherwise it sleeps
    half a second and then, between taking and releasing the lock, signals
    the entries recorded by then, and never the manager. *)
Theorem shutdown_signals : forall st later,
  signalled (rpc_mgr_wake st)
  = (if master_thread_id st =? 0 then [] else [master_thread_id st])
      ++ recorded (slave_thread_id st)
  /\ (thread_count st = 0 -> _wait_for_thread_fini st later = [])
  /\ (thread_count st <> 0 ->
        signalled (_wait_for_thread_fini st later) = recorded (slave_thread_id later)
        /\ exists kills,
             _wait_for_thread_fini st later
             = EvUsleep 500000 :: EvMutexLock thread_count_lock :: kills
                 ++ [EvMutexUnlock thread_count_lock]
             /\ Forall (fun e => exists t, e = EvKill t SIGUSR1 /\ t <> 0) kills).
Proof.
  intros st later. split; [| split].
  - unfold rpc_mgr_wake, recorded.
    rewrite !signalled_app, kill_slaves_recorded.
    destruct (master_thread_id st =? 0); cbn; rewrite app_nil_r; reflexivity.
  - intros Hc. unfold _wait_for_thread_fini. rewrite Hc. reflexivity.
  - intros Hc. unfold _wait_for_thread_fini.
    destruct (Z.eqb_spec (thread_count st) 0); [contradiction |]. split.
    + unfold recorded. rewrite !signalled_app, kill_slaves_recorded.
      cbn. apply app_nil_r.
    + eexists. split; [reflexivity | apply kill_slaves_only_kills].
Qed.

Lemma shutdown_signals_witness :
  _wait_for_thread_fini (set_count 0 full_state) full_state = []
  /\ signalled (_wait_for_thread_fini full_state (fst (_free_server_thread 5 full_state)))
     = recorded (slave_thread_id (fst (_free_server_thread 5 full_state))).
Proof.
  split.
  - apply (proj1 (proj2 (shutdown_signals (set_count 0 full_state) full_state))).
    reflexivity.
  - apply (proj2 (proj2 (shutdown_signals full_state
                           (fst (_free_server_thread 5 full_state))))).
    vm_compute. discriminate.
Defined.

End AdmissionMore.

(** * The manager and its workers *)

Section System.
Context {codes : slurm_codes}.

Lemma live_insert (l : list Z) : forall (k : nat) (x v : Z),
  l !! k = Some x ->
  (length (live (<[k := v]> l)) + Nat.b2n (negb (Z.eqb x 0))
   = length (live l) + Nat.b2n (negb (Z.eqb v 0)))%nat.
Proof.
  unfold live.
  induction l as [|y l IH]; intros k x v Hk; [discriminate |].
  destruct k as [|k]; cbn in Hk.
  - injection Hk as ->. cbn [List.filter].
    change (<[0%nat := v]> (x :: l)) with (v :: l). cbn [List.filter].
    destruct (x =? 0), (v =? 0); cbn [negb length Nat.b2n]; lia.
  - change (<[S k := v]> (y :: l)) with (y :: <[k := v]> l). cbn [List.filter].
    specialize (IH k x v Hk).
    destruct (negb (y =? 0)); cbn [length]; lia.
Qed.

Lemma slots_insert tab k v :
  (k < length tab)%nat ->
  map (slot (<[k := v]> tab)) (seq 0 (Z.to_nat MAX_THREAD_COUNT))
  = <[k := v]> (map (slot tab) (seq 0 (Z.to_nat MAX_THREAD_COUNT))).
Proof.
  intros Hk. apply list_eq. intros j.
  destruct (Nat.lt_ge_cases j (Z.to_nat MAX_THREAD_COUNT)) as [Hj | Hj].
  - destruct (Nat.eq_dec k j) as [-> | Hne].
    + rewrite list_lookup_insert_eq by (rewrite length_map, length_seq; exact Hj).
      change (map ?f ?l) with (f <$> l).
      rewrite list_lookup_fmap, lookup_seq_lt by exact Hj. cbn.
      unfold slot. rewrite list_lookup_insert_eq by exact Hk. reflexivity.
    + rewrite list_lookup_insert_ne by exact Hne.
      change (map ?f ?l) with (f <$> l).
      rewrite !list_lookup_fmap, lookup_seq_lt by exact Hj. cbn.
      rewrite slot_insert_ne by exact Hne. reflexivity.
  - rewrite !lookup_ge_None_2; [reflexivity | |].
    + rewrite length_insert, length_map, length_seq. exact Hj.
    + rewrite length_map, length_seq. exact Hj.
Qed.

Lemma slots_lookup tab j :
  (j < Z.to_nat MAX_THREAD_COUNT)%nat ->
  map (slot tab) (seq 0 (Z.to_nat MAX_THREAD_COUNT)) !! j = Some (slot tab j).
Proof.
  intros Hj. change (map ?f ?l) with (f <$> l).
  rewrite list_lookup_fmap, lookup_seq_lt by exact Hj. reflexivity.
Qed.

Lemma recorded_store tab k v :
  (length (recorded (<[k := v]> tab)) <= S (length (recorded tab)))%nat.
Proof.
  destruct (Nat.lt_ge_cases k (length tab)) as [Hk | Hk].
  - unfold recorded. rewrite slots_insert by exact Hk.
    destruct (Nat.lt_ge_cases k (Z.to_nat MAX_THREAD_COUNT)) as [Hn | Hn].
    + pose proof (live_insert _ k _ v (slots_lookup tab k Hn)) as H.
      destruct (slot tab k =? 0), (v =? 0); cbn in H; lia.
    + rewrite list_insert_ge by (rewrite length_map, length_seq; exact Hn). lia.
  - rewrite list_insert_ge by exact Hk. lia.
Qed.

Lemma recorded_clear tab k :
  (k < Z.to_nat MAX_THREAD_COUNT)%nat ->
  slot tab k <> 0 ->
  S (length (recorded (<[k := 0]> tab))) = length (recorded tab).
Proof.
  intros Hn Hnz.
  assert (Hk : (k < length tab)%nat).
  { unfold slot in Hnz. destruct (tab !! k) as [x|] eqn:E; [| contradiction].
    apply lookup_lt_Some in E. exact E. }
  unfold recorded. rewrite slots_insert by exact Hk.
  pose proof (live_insert _ k _ 0 (slots_lookup tab k Hn)) as H.
  destruct (Z.eqb_spec (slot tab k) 0); [contradiction |].
  cbn in H. lia.
Qed.

Lemma recorded_full tab :
  table_full tab -> length (recorded tab) = Z.to_nat MAX_THREAD_COUNT.
Proof.
  intros Hfull. unfold recorded, live.
  assert (H : forall l : list nat,
             (forall j, In j l -> (j < Z.to_nat MAX_THREAD_COUNT)%nat) ->
             List.filter (fun t => negb (t =? 0)) (map (slot tab) l)
             = map (slot tab) l).
  { induction l as [|j l IH]; intros Hl; [reflexivity |].
    cbn [map List.filter].
    destruct (Z.eqb_spec (slot tab j) 0) as [Hz | _].
    - exfalso. apply (Hfull j); [apply Hl; left; reflexivity | exact Hz].
    - cbn [negb]. rewrite IH; [reflexivity |]. intros j' Hj'. apply Hl. right. exact Hj'. }
  rewrite H.
  - rewrite length_map, length_seq. reflexivity.
  - intros j Hj. apply in_seq in Hj. lia.
Qed.

Lemma in_table_slot tid tab :
  in_table tid tab = true ->
  exists j, (j < Z.to_nat MAX_THREAD_COUNT)%nat /\ slot tab j = tid.
Proof.
  unfold in_table. intros H. apply existsb_exists in H.
  destruct H as (t & Hin & Ht). apply in_map_iff in Hin.
  destruct Hin as (j & <- & Hj). apply in_seq in Hj.
  exists j. split; [lia |]. apply Z.eqb_eq. exact Ht.
Qed.

Lemma free_server_thread_zero_count st :
  0 < thread_count st ->
  thread_count (fst (_free_server_thread 0 st)) = thread_count st - 1
  /\ slave_thread_id (fst (_free_server_thread 0 st)) = slave_thread_id st.
Proof.
  intros Hc. split; [| apply free_server_thread_slaves_zero].
  rewrite free_server_thread_count.
  destruct (Z.gtb_spec (thread_count st) 0); [reflexivity | lia].
Qed.

Lemma recorded_insert (tab : list Z) (k : nat) (v : Z) :
  (k < length tab)%nat -> (k < Z.to_nat MAX_THREAD_COUNT)%nat ->
  (length (recorded (<[k := v]> tab)) + Nat.b2n (negb (Z.eqb (slot tab k) 0))
   = length (recorded tab) + Nat.b2n (negb (Z.eqb v 0)))%nat.
Proof.
  intros Hk Hn. unfold recorded. rewrite slots_insert by exact Hk.
  apply live_insert. apply slots_lookup. exact Hn.
Qed.

Lemma slot_insert_here tab k v :
  (k < length tab)%nat -> slot (<[k := v]> tab) k = v.
Proof.
  intros Hk. unfold slot. rewrite list_lookup_insert_eq by exact Hk. reflexivity.
Qed.

(** One step keeps the invariant and does not end in [fatal], provided a
    release does not go by the leftover of a failed [pthread_create]. *)
Lemma sys_step_inv s o :
  sys_inv s ->
  spares_leftover s o = true ->
  match sys_step s o with
  | SysNext s' => sys_inv s'
  | SysFatal => False
  | SysNotEnabled => True
  end.
Proof.
  destruct s as [adm pc]. unfold sys_inv, held_slot_valid, reserved.
  cbn [s_adm s_pc]. intros (Hcnt & Hmax & Hlen & Hheld) Hspare.
  destruct o as [self now p | aret errno | cret tid | tid | t];
    unfold sys_step; cbn [s_adm s_pc].
  - (* a pass of the admission loop *)
    destruct pc; try exact I. cbn [held] in Hcnt.
    destruct (Z.eq_dec (shutdown_time adm) 0) as [Hs | Hs].
    + destruct (Z.lt_ge_cases (thread_count adm) MAX_THREAD_COUNT) as [Hc | Hc].
      * destruct (find_free_slot_inv (slave_thread_id adm) _ eq_refl)
          as [[_ Hfull] | (i & Hr & Hfree)].
        { rewrite (pass_fatal _ _ _ _ Hs Hc Hfull).
          pose proof (recorded_full _ Hfull) as Hn.
          unfold MAX_THREAD_COUNT in *. lia. }
        rewrite (pass_granted _ _ _ _ _ Hs Hc Hfree).
        destruct Hfree as (Hi & Hz & _).
        destruct (Z.geb_spec (Z.of_nat i) 0); [| lia].
        cbn [s_adm s_pc held thread_count slave_thread_id set_count].
        rewrite Nat2Z.id, Hz. change (0 =? 0) with true. cbv iota.
        split; [lia |]. split; [lia |]. split; [exact Hlen |].
        split; [unfold MAX_THREAD_COUNT in *; lia | reflexivity].
      * destruct (pass_blocked self now p adm Hs Hc) as (st1 & tr & -> & Hc1 & Ht1 & _).
        cbn [s_adm s_pc held thread_count slave_thread_id set_waiters].
        rewrite Hc1, Ht1. split; [exact Hcnt |]. split; [exact Hmax |].
        split; [exact Hlen | exact I].
    + rewrite (pass_shutdown _ _ _ _ Hs).
      change (-1 >=? 0) with false. cbn [s_adm s_pc held].
      split; [exact Hcnt |]. split; [exact Hmax |]. split; [exact Hlen | exact I].
  - (* accept *)
    destruct pc as [| i | i fd0 retry |]; try exact I. cbn [held] in Hcnt.
    destruct Hheld as [Hi Hz]. rewrite Hz in Hcnt. change (0 =? 0) with true in Hcnt.
    cbv iota in Hcnt.
    destruct (aret =? SLURM_SOCKET_ERROR); cbn [s_adm s_pc held].
    + destruct (free_server_thread_zero_count adm ltac:(lia)) as [Hc Ht].
      rewrite Hc, Ht. split; [lia |]. split; [lia |]. split; [exact Hlen | exact I].
    + rewrite Hz. change (0 =? 0) with true. cbv iota.
      split; [exact Hcnt |]. split; [exact Hmax |]. split; [exact Hlen | exact Hi].
  - (* pthread_create *)
    destruct pc as [| i | i fd0 retry |]; try exact I. cbn [held] in Hcnt.
    cbv zeta.
    assert (Hk : (Z.to_nat i < length (slave_thread_id adm))%nat)
      by (rewrite Hlen; lia).
    pose proof (recorded_insert (slave_thread_id adm) (Z.to_nat i) tid Hk
                  ltac:(lia)) as Hrec.
    assert (Hidle :
              Z.of_nat (length (recorded (<[Z.to_nat i := tid]> (slave_thread_id adm))))
              + 0 <= thread_count adm).
    { destruct (slot (slave_thread_id adm) (Z.to_nat i) =? 0), (tid =? 0);
        cbn [negb Nat.b2n] in Hrec; lia. }
    assert (Hretry :
              Z.of_nat (length (recorded (<[Z.to_nat i := tid]> (slave_thread_id adm))))
              + (if tid =? 0 then 1 else 0) <= thread_count adm).
    { destruct (slot (slave_thread_id adm) (Z.to_nat i) =? 0), (tid =? 0);
        cbn [negb Nat.b2n] in Hrec; lia. }
    destruct (negb (cret =? 0)); [destruct (retry >? 0) |];
      cbn [s_adm s_pc held thread_count slave_thread_id set_slaves];
      rewrite ?slot_insert_here by exact Hk;
      (split; [first [exact Hidle | exact Hretry] |]);
      (split; [exact Hmax |]);
      (split; [rewrite length_insert; exact Hlen |]);
      first [exact I | exact Hheld].
  - (* a worker's release *)
    destruct (Z.eqb_spec tid 0) as [? | Hnz]; cbn [negb andb]; [exact I |].
    destruct (in_table tid (slave_thread_id adm)) eqn:Hin; [| exact I].
    apply in_table_slot in Hin. destruct Hin as (j & Hj & Hslot).
    destruct (free_server_thread_clears tid adm j Hnz Hj Hslot)
      as (k & Hk & Hkz & _ & Etab).
    cbn [s_adm s_pc]. rewrite Etab, free_server_thread_count.
    pose proof (recorded_clear (slave_thread_id adm) k ltac:(lia) ltac:(congruence)) as Hrec.
    assert (Hsame : forall i,
               held pc = Some i ->
               slot (<[k := 0]> (slave_thread_id adm)) (Z.to_nat i)
               = slot (slave_thread_id adm) (Z.to_nat i)).
    { intros i Hi. apply slot_insert_ne. intros ->.
      destruct pc as [| i' | i' fd0 retry |]; cbn [held] in Hi; try discriminate;
        injection Hi as ->.
      - destruct Hheld as [_ Hz]. congruence.
      - cbn [spares_leftover s_pc s_adm] in Hspare.
        destruct (Z.eqb_spec (slot (slave_thread_id adm) (Z.to_nat i)) tid);
          [discriminate | congruence]. }
    assert (Hres : 0 <= match held pc with
                        | Some i =>
                            if slot (slave_thread_id adm) (Z.to_nat i) =? 0 then 1 else 0
                        | None => 0
                        end).
    { destruct (held pc); [destruct (_ =? 0) |]; lia. }
    destruct (Z.gtb_spec (thread_count adm) 0); [| lia].
    split.
    { destruct (held pc) as [i|] eqn:Hh; [rewrite (Hsame i eq_refl) |]; lia. }
    split; [lia |]. split; [rewrite length_insert; exact Hlen |].
    destruct pc as [| i | i fd0 retry |]; try exact I; [| exact Hheld].
    destruct Hheld as [Hi Hz]. split; [exact Hi |].
    rewrite (Hsame i eq_refl). exact Hz.
  - (* shutdown *)
    cbn [s_adm s_pc thread_count slave_thread_id set_shutdown].
    split; [exact Hcnt |]. split; [exact Hmax |]. split; [exact Hlen | exact Hheld].
Qed.

Lemma sys_run_inv ops : forall s,
  sys_inv s ->
  leftovers_spared s ops = true ->
  match sys_run s ops with
  | SysNext s' => sys_inv s'
  | SysFatal => False
  | SysNotEnabled => True
  end.
Proof.
  induction ops as [|o ops IH]; intros s Hinv Hsp; cbn [sys_run]; [exact Hinv |].
  cbn [leftovers_spared] in Hsp. apply andb_prop in Hsp. destruct Hsp as [Ho Hsp].
  pose proof (sys_step_inv s o Hinv Ho) as Hstep.
  destruct (sys_step s o) as [s' | |]; [apply IH; assumption | exact Hstep | exact I].
Qed.

(** The step machine follows the functions: what [create_loop] and a turn of
    the accept loop leave in the admission state is reached by steps. *)
Lemma create_loop_steps : forall fuel i newsockfd retry_cnt w w',
  create_loop fuel i newsockfd retry_cnt w = Ret tt w' ->
  exists ops,
    sys_run (Sys (w_adm w) (MgrCreating i newsockfd retry_cnt)) ops
    = SysNext (Sys (w_adm w') MgrIdle).
Proof.
  induction fuel as [|fuel IH]; intros i newsockfd retry_cnt w w'; [discriminate |].
  cbn [create_loop]. unfold bind at 1. unfold pthread_create at 1.
  destruct (w_creates w) as [|[r tid] rest] eqn:Hc; [discriminate |].
  set (w1 := set_trace _ (set_adm _ (set_creates rest w))).
  assert (Ha1 : w_adm w1
                = set_slaves (<[Z.to_nat i := tid]> (slave_thread_id (w_adm w))) (w_adm w))
    by reflexivity.
  destruct (Z.eqb_spec r 0) as [-> | Hr]; cbn [negb].
  - intros [= <-]. exists [SysCreate 0 tid].
    cbn [sys_run sys_step s_pc s_adm]. change (negb (0 =? 0)) with false.
    cbv iota zeta. rewrite Ha1. reflexivity.
  - destruct (retry_cnt >? 0) eqn:Hretry.
    + unfold bind, log, emit. intros [= <-].
      exists [SysCreate r tid].
      cbn [sys_run sys_step s_pc s_adm]. cbv zeta.
      destruct (Z.eqb_spec r 0); [contradiction |]. cbn [negb]. rewrite Hretry.
      cbn [w_adm set_trace]. rewrite Ha1. reflexivity.
    + unfold bind at 1. unfold log at 1. cbn [emit].
      set (w2 := set_trace _ w1).
      unfold bind at 1. cbn [emit].
      set (w3 := set_trace _ w2).
      intros E. destruct (IH _ _ _ _ _ E) as (ops & Hops).
      exists (SysCreate r tid :: ops).
      cbn [sys_run sys_step s_pc s_adm]. cbv zeta.
      destruct (Z.eqb_spec r 0); [contradiction |]. cbn [negb]. rewrite Hretry.
      assert (Ha3 : w_adm w3 = w_adm w1) by reflexivity.
      rewrite <- Ha1, <- Ha3. exact Hops.
Qed.

Lemma turn_steps self now w b w' :
  rpc_mgr_turn self now [] w = Ret b w' ->
  exists ops,
    sys_run (Sys (w_adm w) MgrIdle) ops
    = SysNext (Sys (w_adm w') (if b then MgrIdle else MgrLeft)).
Proof.
  unfold rpc_mgr_turn, _wait_for_server_thread. cbn [wait_loop].
  destruct (wait_for_server_thread_pass self now true (w_adm w))
    as [rc st tr | st tr | p st tr] eqn:Epass; try discriminate.
  set (w1 := set_trace _ (set_adm st w)).
  assert (Ha1 : w_adm w1 = st) by reflexivity.
  destruct (rc >=? 0) eqn:Hrc.
  2:{ intros [= <- <-]. exists [SysAcquire self now true].
      cbn [sys_run sys_step s_pc s_adm]. rewrite Epass, Hrc. reflexivity. }
  unfold bind at 1. unfold rpc_mgr_body. unfold bind at 1.
  unfold slurm_accept_msg_conn at 1.
  destruct (w_accepts w1) as [|[aret errno] rest] eqn:Hacc; [discriminate |].
  set (w2 := set_trace _ (set_accepts rest w1)).
  assert (Ha2 : w_adm w2 = st) by reflexivity.
  cbn [fst snd].
  destruct (aret =? SLURM_SOCKET_ERROR) eqn:Hret.
  - unfold bind at 1. unfold free_server_thread at 1.
    set (w3 := set_trace _ (set_adm _ w2)).
    assert (Ha3 : w_adm w3 = fst (_free_server_thread 0 st)) by reflexivity.
    destruct (negb (errno =? EINTR)); unfold log, emit, ret; intros [= <- <-];
      exists [SysAcquire self now true; SysAccept aret errno];
      cbn [sys_run sys_step s_pc s_adm]; rewrite Epass, Hrc;
      cbn [sys_run sys_step s_pc s_adm]; rewrite Hret;
      cbn [w_adm set_trace]; rewrite ?Ha3; reflexivity.
  - unfold bind at 1. cbn [emit].
    set (w3 := set_trace _ w2).
    assert (Ha3 : w_adm w3 = st) by reflexivity.
    destruct (create_loop (S (length (w_creates w3))) rc aret 0 w3)
      as [[] w4 | w4 | w4 |] eqn:Ecreate; try discriminate.
    cbn [ret]. intros [= <- <-].
    destruct (create_loop_steps _ _ _ _ _ _ Ecreate) as (ops & Hops).
    exists (SysAcquire self now true :: SysAccept aret errno :: ops).
    cbn [sys_run sys_step s_pc s_adm]. rewrite Epass, Hrc.
    cbn [sys_run sys_step s_pc s_adm]. rewrite Hret.
    rewrite Ha3 in Hops. exact Hops.
Qed.


End System.

Section SystemSamples.
#[local] Existing Instance release_codes.

(** Two connections, the first served by thread 11, the second dropped after
    two failed creations; thread 11 ends; a third connection is being
    admitted when [accept] fails. *)
Example sys_run_sample :
  sys_run (Sys init_state MgrIdle)
    [SysAcquire 1 0 true; SysAccept 8 0; SysCreate 0 11;
     SysAcquire 1 0 true; SysAccept 9 0; SysCreate 11 0; SysCreate 11 0;
     SysRelease 11;
     SysAcquire 1 0 true; SysAccept (-1) 4]
  = SysNext (Sys (set_count 1 init_state) MgrIdle).
Proof. vm_compute. reflexivity. Qed.


(** Why the proviso: thread 7 runs in slot 1; a failed [pthread_create]
    leaves 7 in slot 0, which the manager holds; thread 7 ends, and its
    release clears slot 0, the first that holds its identity.  The retry
    succeeds: two entries in the table, and a count of 1. *)
Example released_leftover_uncounts :
  match sys_run (Sys init_state MgrIdle)
          [SysAcquire 1 0 true; SysAccept 8 0; SysCreate 0 5;
           SysAcquire 1 0 true; SysAccept 9 0; SysCreate 0 7;
           SysRelease 5;
           SysAcquire 1 0 true; SysAccept 10 0; SysCreate 11 7;
           SysRelease 7;
           SysCreate 0 9] with
  | SysNext s =>
      thread_count (s_adm s) = 1
      /\ recorded (slave_thread_id (s_adm s)) = [9; 7]
  | SysFatal | SysNotEnabled => False
  end.
Proof. vm_compute. split; reflexivity. Qed.

End SystemSamples.

(** * More about the worker *)

Section WorkerMore.
Context {codes : slurm_codes}.

Lemma poll_ready_spec p :
  poll_ready p = true
  <-> p_shutdown p = 0 /\ p_rc p <> -1
      /\ Z.land (p_revents p) POLLIN <> 0
      /\ Z.land (p_revents p) POLLNVAL = 0
      /\ Z.land (p_revents p) POLLERR = 0.
Proof.
  unfold poll_ready.
  destruct (Z.eqb_spec (p_shutdown p) 0), (Z.eqb_spec (p_rc p) (-1)),
    (Z.eqb_spec (Z.land (p_revents p) POLLHUP) 0),
    (Z.eqb_spec (Z.land (p_revents p) POLLIN) 0),
    (Z.eqb_spec (Z.land (p_revents p) POLLNVAL) 0),
    (Z.eqb_spec (Z.land (p_revents p) POLLERR) 0);
    cbn [negb andb]; split; try discriminate; try tauto; intros; repeat split; assumption.
Qed.

Lemma fd_readable_from_verdict cfd : forall retries p rest w,
  forallb poll_retry retries = true ->
  poll_retry p = false ->
  exists w',
    fd_readable_from cfd (retries ++ p :: rest) w = Ret (poll_ready p) w'
    /\ w_polls w' = rest
    /\ w_stream w' = w_stream w.
Proof.
  induction retries as [|q retries IH]; intros p rest w Hr Hp.
  - cbn [app fd_readable_from].
    unfold poll_retry in Hp. unfold poll_ready.
    destruct (p_shutdown p =? 0); cbn [negb andb] in *;
      [| eexists; repeat split].
    destruct (p_rc p =? -1); cbn [negb andb] in *.
    { rewrite Hp. unfold bind, log, emit, ret. eexists; repeat split. }
    destruct (Z.land (p_revents p) POLLHUP =? 0),
      (Z.land (p_revents p) POLLIN =? 0),
      (Z.land (p_revents p) POLLNVAL =? 0),
      (Z.land (p_revents p) POLLERR =? 0);
      cbn [negb andb]; unfold bind, log, emit, ret; eexists; repeat split.
  - cbn [forallb] in Hr. apply andb_prop in Hr. destruct Hr as [Hq Hr].
    unfold poll_retry in Hq.
    apply andb_prop in Hq. destruct Hq as [Hq He].
    apply andb_prop in Hq. destruct Hq as [Hs Hrc].
    cbn [app fd_readable_from]. rewrite Hs, Hrc, He. cbn [negb].
    destruct (IH p rest
                (set_trace (w_trace w ++ [EvPoll cfd q])
                           (set_polls (retries ++ p :: rest) w)) Hr Hp)
      as (w' & E & Hpl & Hst).
    exists w'. split; [exact E |]. split; [exact Hpl | exact Hst].
Qed.

(** X8 -- The verdict of [_fd_readable].  Interrupted polls ([EINTR],
    [EAGAIN], shutdown flag clear) are repeated; the first answer that is not
    one decides, and consumes no further answer.  The verdict is yes exactly
    when the shutdown flag is clear, [poll] has not failed, [POLLIN] is set
    and neither [POLLNVAL] nor [POLLERR] is: [POLLHUP] does not stand in the
    way of input that is still there.  The queued bytes are not touched. *)
Theorem readable_verdict : forall cfd w retries p rest,
  w_polls w = retries ++ p :: rest ->
  forallb poll_retry retries = true ->
  poll_retry p = false ->
  exists b w',
    _fd_readable cfd w = Ret b w'
    /\ w_polls w' = rest
    /\ w_stream w' = w_stream w
    /\ (b = true
        <-> p_shutdown p = 0 /\ p_rc p <> -1
            /\ Z.land (p_revents p) POLLIN <> 0
            /\ Z.land (p_revents p) POLLNVAL = 0
            /\ Z.land (p_revents p) POLLERR = 0).
Proof.
  intros cfd w retries p rest Hw Hr Hp.
  destruct (fd_readable_from_verdict cfd retries p rest w Hr Hp) as (w' & E & Hpl & Hst).
  exists (poll_ready p), w'. unfold _fd_readable. rewrite Hw.
  split; [exact E |]. split; [exact Hpl |]. split; [exact Hst |].
  apply poll_ready_spec.
Qed.


Lemma fd_readable_from_stream cfd : forall polls w b w',
  fd_readable_from cfd polls w = Ret b w' -> w_stream w' = w_stream w.
Proof.
  induction polls as [|p rest IH]; intros w b w' H; [discriminate |].
  cbn [fd_readable_from] in H.
  repeat match type of H with
         | context [if ?c then _ else _] => destruct c
         end;
    first [ apply IH in H; exact H
          | unfold bind, log, emit, ret in H; injection H as _ <-; reflexivity ].
Qed.

Lemma fd_readable_stream cfd w b w' :
  _fd_readable cfd w = Ret b w' -> w_stream w' = w_stream w.
Proof. apply fd_readable_from_stream. Qed.

Lemma leading_bytes_requeue left rest :
  leading_bytes (match left with [] => rest | _ => Bytes left :: rest end)
  = left ++ leading_bytes rest.
Proof. destruct left; reflexivity. Qed.

Lemma write_at_suffix msg offset bs o :
  0 <= offset ->
  (Z.to_nat offset + length bs <= length msg)%nat ->
  (Z.to_nat offset + length bs <= o)%nat ->
  drop o (write_at msg offset bs) = drop o msg.
Proof.
  intros H0 Hlen Ho. unfold write_at.
  assert (Hl : length (take (Z.to_nat offset) msg) = Z.to_nat offset)
    by (rewrite length_take; lia).
  rewrite app_assoc.
  rewrite drop_app_ge by (rewrite length_app, Hl; lia).
  rewrite length_app, Hl, drop_drop. f_equal. lia.
Qed.

Lemma reads_nothing L offset msg s s' :
  0 <= offset <= L ->
  length msg = Z.to_nat L ->
  (offset = L -> s' = s) ->
  reads_prefix L offset msg s s' offset msg.
Proof.
  intros Ho Hm Hs. split; [lia |]. split; [exact Hm |].
  exists [], (leading_bytes s).
  split; [cbn; lia |]. split; [cbn [app]; symmetry; apply take_drop |].
  split; [reflexivity |]. intros E. rewrite (Hs E). reflexivity.
Qed.

Lemma read_payload_prefix cfd L : forall fuel offset msg w o m w',
  read_payload fuel cfd L offset msg w = Ret (o, m) w' ->
  0 <= offset <= L ->
  length msg = Z.to_nat L ->
  reads_prefix L offset msg (w_stream w) (w_stream w') o m.
Proof.
  induction fuel as [|fuel IH]; intros offset msg w o m w' E Ho Hm; [discriminate |].
  cbn [read_payload] in E.
  destruct (Z.gtb_spec L offset) as [Hlt | Hge].
  2:{ injection E as <- <- <-. apply reads_nothing; auto. }
  unfold bind at 1 in E.
  destruct (_fd_readable cfd w) as [b w1 | w1 | w1 |] eqn:E1; try discriminate.
  pose proof (fd_readable_stream _ _ _ _ E1) as Hs1.
  destruct b; cbn [negb] in E.
  2:{ injection E as <- <- <-. apply reads_nothing; [lia | exact Hm | lia]. }
  unfold bind at 1 in E. unfold sys_read at 1 in E.
  assert (Hstop : forall w2,
             (log LError "read: %m" ;;; ret (offset, msg)) w2 = Ret (o, m) w' ->
             reads_prefix L offset msg (w_stream w) (w_stream w') o m).
  { intros w2 E2. unfold bind, log, emit, ret in E2. injection E2 as <- <- <-.
    apply reads_nothing; [lia | exact Hm | lia]. }
  destruct (w_stream w1) as [|[bs | | e] rest] eqn:Hw1; cbn [fst snd] in E.
  - apply (Hstop _ E).
  - set (got1 := take (Z.to_nat (L - offset)) bs) in *.
    set (w2 := set_trace _ (set_stream _ w1)) in E.
    assert (Hg1 : (length got1 <= Z.to_nat (L - offset))%nat)
      by (unfold got1; rewrite length_take; lia).
    destruct (Z.leb_spec (Z.of_nat (length got1)) 0) as [Hn | Hn];
      [apply (Hstop _ E) |].
    assert (Hs2 : leading_bytes (w_stream w) = got1 ++ leading_bytes (w_stream w2)).
    { rewrite <- Hs1. unfold w2. cbn [w_stream set_trace set_stream].
      rewrite leading_bytes_requeue. cbn [leading_bytes].
      rewrite app_assoc. unfold got1. rewrite take_drop. reflexivity. }
    apply IH in E.
    + destruct E as (Hr & Hlen & got2 & k & Hg2 & Hmm & Hlead & Hfull).
      split; [lia |]. split; [exact Hlen |].
      exists (got1 ++ got2), k.
      split; [rewrite length_app; lia |].
      split; [| split; [rewrite Hs2, Hlead, app_assoc; reflexivity | exact Hfull]].
      rewrite Hmm, write_at_prefix by lia.
      rewrite write_at_suffix by lia.
      rewrite <- !app_assoc. reflexivity.
    + lia.
    + rewrite write_at_length; [exact Hm | lia | lia].
  - apply (Hstop _ E).
  - apply (Hstop _ E).
Qed.

Lemma read_payload_run_length cfd L w o m w' :
  0 <= L ->
  read_payload_run cfd L w = Ret (o, m) w' ->
  length m = Z.to_nat L.
Proof.
  intros HL E. unfold read_payload_run in E.
  apply read_payload_prefix in E; [| lia | apply length_replicate].
  apply E.
Qed.

(** X9 -- The payload is the next bytes of the stream.  For every stream
    and every sequence of [poll] answers, when the payload loop ends at
    [offset], the buffer still has [L] bytes: the first [offset] of them are
    the next [offset] bytes the connection had queued, the others the zeroes
    of [xmalloc].  The loop never stores beyond the buffer and, a [read]
    asking for [msg_size - offset] bytes only, a complete payload leaves what
    was queued behind it in the queue, for the next frame. *)
Theorem payload_is_next_bytes : forall cfd L w offset msg w',
  0 <= L ->
  read_payload_run cfd L w = Ret (offset, msg) w' ->
  0 <= offset <= L
  /\ length msg = Z.to_nat L
  /\ msg = take (Z.to_nat offset) (leading_bytes (w_stream w))
           ++ replicate (Z.to_nat (L - offset)) Byte.x00
  /\ (Z.to_nat offset <= length (leading_bytes (w_stream w)))%nat
  /\ (offset = L ->
      leading_bytes (w_stream w) = msg ++ leading_bytes (w_stream w')).
Proof.
  intros cfd L w offset msg w' HL E. unfold read_payload_run in E.
  apply read_payload_prefix in E; [| lia | apply length_replicate].
  destruct E as (Hr & Hlen & got & k & Hg & Hm & Hlead & Hfull).
  cbn [take app Z.to_nat] in Hm. rewrite drop_replicate in Hm.
  rewrite Z.sub_0_r in Hg.
  assert (Htake : take (Z.to_nat offset) (leading_bytes (w_stream w)) = got).
  { rewrite Hlead, <- Hg. apply take_app_length. }
  split; [exact Hr |]. split; [exact Hlen |].
  split; [| split].
  - rewrite Htake, Hm. rewrite Z2Nat.inj_sub by lia. reflexivity.
  - rewrite Hlead, length_app. lia.
  - intros ->. rewrite Hlead, (Hfull eq_refl), Hm.
    replace (Z.to_nat L - Z.to_nat L)%nat with 0%nat by lia.
    cbn [replicate]. rewrite app_nil_r. reflexivity.
Qed.

End WorkerMore.

Section WorkerMoreSamples.
#[local] Existing Instance release_codes.

Lemma readable_verdict_witness :
  exists w',
    _fd_readable 5
      (sample_world [PollRes (-1) 0 EINTR 0; PollRes 1 (POLLIN + POLLHUP) 0 0;
                     ready_poll] [] [] [])
    = Ret true w'
    /\ w_polls w' = [ready_poll].
Proof.
  destruct (readable_verdict 5
              (sample_world [PollRes (-1) 0 EINTR 0; PollRes 1 (POLLIN + POLLHUP) 0 0;
                             ready_poll] [] [] [])
              [PollRes (-1) 0 EINTR 0] (PollRes 1 (POLLIN + POLLHUP) 0 0) [ready_poll])
    as (b & w' & E & Hp & _ & Hb).
  - reflexivity.
  - reflexivity.
  - reflexivity.
  - exists w'. split; [| exact Hp].
    rewrite E. f_equal. apply Hb. cbn. repeat split; discriminate.
Defined.


Lemma payload_is_next_bytes_witness :
  exists w',
    read_payload_run 5 3
      (sample_world [ready_poll; ready_poll]
         [Bytes ["001"; "002"]%byte; Bytes ["003"; "004"; "005"]%byte; Eof] [] [])
    = Ret (3, ["001"; "002"; "003"]%byte) w'
    /\ ["001"; "002"; "003"; "004"; "005"]%byte
       = ["001"; "002"; "003"]%byte ++ leading_bytes (w_stream w').
Proof.
  eexists. split; [vm_compute; reflexivity |].
  apply (proj2 (proj2 (proj2 (proj2
           (payload_is_next_bytes 5 3
              (sample_world [ready_poll; ready_poll]
                 [Bytes ["001"; "002"]%byte; Bytes ["003"; "004"; "005"]%byte; Eof]
                 [] [])
              3 ["001"; "002"; "003"]%byte _ ltac:(lia) eq_refl))))).
  reflexivity.
Defined.

End WorkerMoreSamples.

(** * The frames of a connection *)

Section Frames.
Context {codes : slurm_codes}.

Lemma frame_events_app tr1 tr2 :
  frame_events (tr1 ++ tr2) = frame_events tr1 ++ frame_events tr2.
Proof. apply List.filter_app. Qed.

Lemma plain_frame_events tr : forallb plain tr = true -> frame_events tr = [].
Proof.
  induction tr as [|e tr IH]; [reflexivity |].
  cbn [forallb]. intros H. apply andb_prop in H. destruct H as [He Ht].
  unfold frame_events. cbn [List.filter]. unfold plain in He.
  destruct (frame_event e); [discriminate |]. apply IH. exact Ht.
Qed.

(** *** The calls that are no part of a frame *)

Lemma silent_ret {A} (a : A) : silent (ret a).
Proof. intros w. exists []. split; [symmetry; apply app_nil_r | reflexivity]. Qed.

Lemma silent_emit e : plain e = true -> silent (emit e).
Proof.
  intros He w. exists [e]. split; [reflexivity |].
  apply plain_frame_events. cbn [forallb]. rewrite He. reflexivity.
Qed.

Lemma silent_bind {A B} (m : io A) (f : A -> io B) :
  silent m -> (forall a, silent (f a)) -> silent (bind m f).
Proof.
  intros Hm Hf w. unfold bind. specialize (Hm w).
  destruct (m w) as [a w1 | w1 | w1 |]; try exact Hm.
  destruct Hm as (t1 & E1 & H1). specialize (Hf a w1).
  destruct (f a w1) as [b w2 | w2 | w2 |]; try exact Hf;
    destruct Hf as (t2 & E2 & H2);
    (exists (t1 ++ t2); split; [rewrite E2, E1, app_assoc; reflexivity |];
     rewrite frame_events_app, H1, H2; reflexivity).
Qed.

Lemma keeps_silent {A} (m : io A) : keeps plain m -> silent m.
Proof.
  intros Hk w. specialize (Hk w).
  destruct (m w) as [a w1 | w1 | w1 |]; [| | exact I | exact I];
    destruct (ev_trace _ _ _ Hk) as (tr & Et & Ht);
    (exists tr; split; [exact Et | apply plain_frame_events; exact Ht]).
Qed.

Lemma silent_yields {A} (m : io A) :
  silent m -> yields m (fun tr _ => frame_events tr = []).
Proof. intros Hs w a w' E. specialize (Hs w). rewrite E in Hs. exact Hs. Qed.

Lemma silent_hangs {A} (m : io A) :
  silent m -> hangs m (fun tr => frame_events tr = []).
Proof. intros Hs w w' E. specialize (Hs w). rewrite E in Hs. exact Hs. Qed.

Lemma fd_readable_silent cfd : silent (_fd_readable cfd).
Proof. apply keeps_silent, fd_readable_keeps; reflexivity. Qed.

Lemma sys_read_silent cfd count : silent (sys_read cfd count).
Proof. apply keeps_silent, sys_read_keeps; reflexivity. Qed.

Lemma read_payload_silent cfd L : forall fuel offset msg,
  silent (read_payload fuel cfd L offset msg).
Proof.
  induction fuel as [|fuel IH]; intros offset msg; [intros w; exact I |].
  cbn [read_payload].
  destruct (L >? offset); [| apply silent_ret].
  apply silent_bind; [apply fd_readable_silent |].
  intros b. destruct b; cbn [negb]; [| apply silent_ret].
  apply silent_bind; [apply sys_read_silent |].
  intros r. destruct (fst r <=? 0); [| apply IH].
  apply silent_bind; [apply silent_emit; reflexivity |].
  intros _. apply silent_ret.
Qed.

Lemma read_payload_run_silent cfd L : silent (read_payload_run cfd L).
Proof. intros w. unfold read_payload_run. exact (read_payload_silent cfd L _ _ _ w). Qed.

(** *** The frame *)

Lemma dispatch_frame ls msg L :
  yields (dispatch ls msg L)
    (fun tr ls1 =>
       (exists rc, frame_events tr = [EvProcReq msg L (l_first ls) rc])
       /\ l_first ls1 = false).
Proof.
  intros w ls1 w' E.
  destruct (w_procs w) as [|pr procs'] eqn:Hp.
  - unfold dispatch, bind, proc_req in E. rewrite Hp in E. discriminate.
  - rewrite (dispatch_result ls msg L w pr procs' Hp) in E. cbv zeta in E.
    injection E as <- <-. eexists. split; [reflexivity |].
    split; [| reflexivity]. exists (pr_rc pr).
    destruct (negb (pr_rc pr =? SLURM_SUCCESS) && negb (pr_rc pr =? ACCOUNTING_FIRST_REG));
      reflexivity.
Qed.

Lemma respond_frame ls :
  yields (respond ls)
    (fun tr ls1 =>
       (exists r, frame_events tr = [EvSend (l_buffer ls) r; EvFreeBuf; EvXfreeMsg])
       /\ l_first ls1 = l_first ls
       /\ (l_fini ls = true -> l_fini ls1 = true)).
Proof.
  intros w ls1 w' E.
  destruct (w_sends w) as [|r sends'] eqn:Hs.
  - unfold respond, bind, slurm_persist_send_msg in E. rewrite Hs in E. discriminate.
  - rewrite (respond_sent ls w r sends' Hs) in E.
    injection E as <- <-. eexists. split; [reflexivity |].
    split; [| split].
    + exists r.
      destruct (negb (r =? SLURM_SUCCESS) && negb (rem_port (conn (l_conn ls)) =? 0));
        reflexivity.
    + destruct (negb (r =? SLURM_SUCCESS)); reflexivity.
    + destruct (negb (r =? SLURM_SUCCESS)); [reflexivity | auto].
Qed.

Lemma frame_tail_frame ls L po :
  yields (frame_tail ls L po)
    (fun tr r =>
       snd r = false
       /\ ((L = fst po
            /\ l_first (fst r) = false
            /\ exists rc b s,
                 frame_events tr
                 = [EvProcReq (snd po) L (l_first ls) rc; EvSend b s;
                    EvFreeBuf; EvXfreeMsg])
           \/ (l_fini (fst r) = true
               /\ exists s,
                    frame_events tr
                    = [EvMakeRcMsg SLURM_ERROR "Bad offset";
                       EvSend (BufRcMsg SLURM_ERROR "Bad offset") s;
                       EvFreeBuf; EvXfreeMsg]))).
Proof.
  intros w r w' E. unfold frame_tail in E. unfold bind at 1 in E.
  destruct (Z.eqb_spec L (fst po)) as [HL | HL].
  - destruct (dispatch ls (snd po) L w) as [ls1 w1 | w1 | w1 |] eqn:E1;
      try discriminate.
    destruct (dispatch_frame _ _ _ _ _ _ E1) as (t1 & Ht1 & (rc & H1) & Hf1).
    unfold bind at 1 in E.
    destruct (respond ls1 w1) as [ls2 w2 | w2 | w2 |] eqn:E2; try discriminate.
    destruct (respond_frame _ _ _ _ E2) as (t2 & Ht2 & (s & H2) & Hf2 & _).
    injection E as <- <-. exists (t1 ++ t2).
    split; [rewrite Ht2, Ht1, app_assoc; reflexivity |].
    split; [reflexivity |]. left. split; [exact HL |].
    split; [cbn [fst]; congruence |]. exists rc, (l_buffer ls1), s.
    rewrite frame_events_app, H1, H2. reflexivity.
  - unfold bind at 1 in E. cbn [emit ret] in E.
    set (ls1 := set_fini true (set_buffer (BufRcMsg SLURM_ERROR "Bad offset") ls)) in E.
    set (w1 := set_trace (w_trace w ++ [EvMakeRcMsg SLURM_ERROR "Bad offset"]) w) in E.
    unfold bind at 1 in E.
    destruct (respond ls1 w1) as [ls2 w2 | w2 | w2 |] eqn:E2; try discriminate.
    destruct (respond_frame _ _ _ _ E2) as (t2 & Ht2 & (s & H2) & _ & Hf2).
    injection E as <- <-. exists (EvMakeRcMsg SLURM_ERROR "Bad offset" :: t2).
    split; [rewrite Ht2; unfold w1; cbn [w_trace set_trace];
            rewrite <- app_assoc; reflexivity |].
    split; [reflexivity |]. right. split; [apply Hf2; reflexivity |].
    exists s.
    change (EvMakeRcMsg SLURM_ERROR "Bad offset" :: t2)
      with ([EvMakeRcMsg SLURM_ERROR "Bad offset"] ++ t2).
    rewrite frame_events_app, H2. reflexivity.
Qed.

Lemma frame_body_frame ls cfd L :
  2 <= L <= MAX_MSG_SIZE ->
  yields (frame_body ls cfd L)
    (fun tr r =>
       snd r = false
       /\ ((l_first (fst r) = false
            /\ forall rest, framed false rest ->
                            framed (l_first ls) (frame_events tr ++ rest))
           \/ (l_fini (fst r) = true /\ framed (l_first ls) (frame_events tr)))).
Proof.
  intros HL w r w' E. unfold frame_body in E.
  unfold bind at 1 in E. cbn [emit] in E.
  set (w0 := set_trace (w_trace w ++ [EvXmalloc L]) w) in E.
  unfold bind at 1 in E.
  destruct (read_payload_run cfd L w0) as [[o m] w1 | w1 | w1 |] eqn:E1;
    try discriminate.
  destruct (silent_yields _ (read_payload_run_silent cfd L) _ _ _ E1) as (t1 & Ht1 & H1).
  pose proof (read_payload_run_length cfd L w0 o m w1 ltac:(lia) E1) as Hlen.
  destruct (frame_tail_frame ls L (o, m) _ _ _ E) as (t2 & Ht2 & Hs & H2).
  exists (EvXmalloc L :: t1 ++ t2). split.
  { rewrite Ht2, Ht1. unfold w0. cbn [w_trace set_trace].
    rewrite <- !app_assoc. reflexivity. }
  split; [exact Hs |].
  change (EvXmalloc L :: t1 ++ t2) with ([EvXmalloc L] ++ t1 ++ t2).
  rewrite !frame_events_app, H1. cbn [fst snd app] in *.
  change (frame_events [EvXmalloc L]) with [EvXmalloc L]. cbn [app].
  destruct H2 as [(_ & Hf & rc & b & s & ->) | (Hf & s & ->)].
  - left. split; [exact Hf |]. intros rest Hrest. cbn [app].
    apply FramedRequest; assumption.
  - right. split; [exact Hf |]. apply FramedShort. exact HL.
Qed.

Lemma read_frame_frame ls cfd :
  yields (read_frame ls cfd) (pass_framed (l_first ls)).
Proof.
  intros w r w' E. unfold read_frame in E. unfold bind at 1 in E.
  destruct (sys_read cfd 4 w) as [rd w1 | w1 | w1 |] eqn:E1; try discriminate.
  destruct (silent_yields _ (sys_read_silent cfd 4) _ _ _ E1) as (t1 & Ht1 & H1).
  assert (Hbreak : forall w2 t2,
             w_trace w2 = w_trace w1 ++ t2 -> frame_events t2 = [] ->
             Ret (ls, true) w2 = Ret r w' ->
             exists tr, w_trace w' = w_trace w ++ tr /\ pass_framed (l_first ls) tr r).
  { intros w2 t2 Ht2 H2 [= <- <-]. exists (t1 ++ t2).
    split; [rewrite Ht2, Ht1, app_assoc; reflexivity |].
    left. split; [reflexivity |]. rewrite frame_events_app, H1, H2. reflexivity. }
  destruct (fst rd =? 0).
  { apply (Hbreak w1 []); [symmetry; apply app_nil_r | reflexivity | exact E]. }
  destruct (negb (fst rd =? 4)).
  { unfold bind, log, emit, ret in E.
    refine (Hbreak _ [_] _ _ E); reflexivity. }
  destruct (Z.ltb_spec (ntohl (snd rd)) 2) as [Hlo | Hlo]; cbn [orb] in E.
  { unfold bind, log, emit, ret in E.
    refine (Hbreak _ [_] _ _ E); reflexivity. }
  destruct (Z.gtb_spec (ntohl (snd rd)) MAX_MSG_SIZE) as [Hhi | Hhi].
  { unfold bind, log, emit, ret in E.
    refine (Hbreak _ [_] _ _ E); reflexivity. }
  destruct (frame_body_frame ls cfd (ntohl (snd rd)) ltac:(lia) _ _ _ E)
    as (t2 & Ht2 & Hs & H2).
  exists (t1 ++ t2). split; [rewrite Ht2, Ht1, app_assoc; reflexivity |].
  right. split; [exact Hs |].
  rewrite frame_events_app, H1. exact H2.
Qed.

Lemma service_body_frame ls :
  yields (service_body ls) (pass_framed (l_first ls)).
Proof.
  intros w r w' E. unfold service_body in E. unfold bind at 1 in E.
  destruct (_fd_readable (fd (conn (l_conn ls))) w) as [b w1 | w1 | w1 |] eqn:E1;
    try discriminate.
  destruct (silent_yields _ (fd_readable_silent _) _ _ _ E1) as (t1 & Ht1 & H1).
  destruct b; cbn [negb] in E.
  - destruct (read_frame_frame ls _ _ _ _ E) as (t2 & Ht2 & H2).
    exists (t1 ++ t2). split; [rewrite Ht2, Ht1, app_assoc; reflexivity |].
    unfold pass_framed in *. rewrite frame_events_app, H1. exact H2.
  - injection E as <- <-. exists t1. split; [exact Ht1 |].
    left. split; [reflexivity | exact H1].
Qed.

Lemma service_loop_frame : forall fuel ls,
  yields (service_loop fuel ls) (fun tr _ => framed (l_first ls) (frame_events tr)).
Proof.
  induction fuel as [|fuel IH]; intros ls w a w' E; [discriminate |].
  cbn [service_loop] in E.
  destruct (l_fini ls) eqn:Hfini; cbn [negb] in E.
  { injection E as <- <-. exists []. split; [symmetry; apply app_nil_r | constructor]. }
  unfold bind in E.
  destruct (service_body ls w) as [r w1 | w1 | w1 |] eqn:E1; try discriminate.
  destruct (service_body_frame ls _ _ _ E1) as (t1 & Ht1 & H1).
  destruct (snd r) eqn:Hs.
  - injection E as <- <-. exists t1. split; [exact Ht1 |].
    destruct H1 as [(_ & ->) | (Habs & _)]; [constructor | congruence].
  - destruct H1 as [(Habs & _) | (_ & [(Hf & Hrest) | (Hf & Hfr)])]; [congruence | |].
    + destruct (IH _ _ _ _ E) as (t2 & Ht2 & H2). rewrite Hf in H2.
      exists (t1 ++ t2). split; [rewrite Ht2, Ht1, app_assoc; reflexivity |].
      rewrite frame_events_app. apply Hrest. exact H2.
    + destruct fuel as [|fuel']; [discriminate |].
      cbn [service_loop] in E. rewrite Hf in E. cbn [negb] in E.
      injection E as <- <-. exists t1. split; [exact Ht1 | exact Hfr].
Qed.

(** *** Runs that block *)

Lemma frame_open_none first : frame_open first [].
Proof. exists []. constructor. Qed.

Lemma dispatch_hang ls msg L : hangs (dispatch ls msg L) (fun tr => tr = []).
Proof.
  intros w w' E. destruct (w_procs w) as [|pr procs'] eqn:Hp.
  - unfold dispatch, bind, proc_req in E. rewrite Hp in E. injection E as <-.
    exists []. split; [symmetry; apply app_nil_r | reflexivity].
  - rewrite (dispatch_result ls msg L w pr procs' Hp) in E. discriminate.
Qed.

Lemma respond_hang ls : hangs (respond ls) (fun tr => tr = []).
Proof.
  intros w w' E. destruct (w_sends w) as [|r sends'] eqn:Hs.
  - unfold respond, bind, slurm_persist_send_msg in E. rewrite Hs in E.
    injection E as <-.
    exists []. split; [symmetry; apply app_nil_r | reflexivity].
  - rewrite (respond_sent ls w r sends' Hs) in E. discriminate.
Qed.

Lemma frame_tail_hang ls L po :
  hangs (frame_tail ls L po)
    (fun tr =>
       (L = fst po
        /\ (frame_events tr = []
            \/ exists rc, frame_events tr = [EvProcReq (snd po) L (l_first ls) rc]))
       \/ frame_events tr = [EvMakeRcMsg SLURM_ERROR "Bad offset"]).
Proof.
  intros w w' E. unfold frame_tail in E. unfold bind at 1 in E.
  destruct (Z.eqb_spec L (fst po)) as [HL | HL].
  - destruct (dispatch ls (snd po) L w) as [ls1 w1 | w1 | w1 |] eqn:E1;
      try discriminate.
    + destruct (dispatch_frame _ _ _ _ _ _ E1) as (t1 & Ht1 & (rc & H1) & _).
      unfold bind at 1 in E.
      destruct (respond ls1 w1) as [ls2 w2 | w2 | w2 |] eqn:E2; try discriminate.
      destruct (respond_hang _ _ _ E2) as (t2 & Ht2 & ->).
      injection E as <-. exists t1.
      split; [rewrite Ht2, app_nil_r; exact Ht1 |].
      left. split; [exact HL |]. right. exists rc. exact H1.
    + destruct (dispatch_hang _ _ _ _ _ E1) as (t1 & Ht1 & ->).
      injection E as <-. exists [].
      split; [exact Ht1 |]. left. split; [exact HL |]. left. reflexivity.
  - unfold bind at 1 in E. cbn [emit ret] in E.
    set (ls1 := set_fini true (set_buffer (BufRcMsg SLURM_ERROR "Bad offset") ls)) in E.
    set (w1 := set_trace (w_trace w ++ [EvMakeRcMsg SLURM_ERROR "Bad offset"]) w) in E.
    unfold bind at 1 in E.
    destruct (respond ls1 w1) as [ls2 w2 | w2 | w2 |] eqn:E2; try discriminate.
    destruct (respond_hang _ _ _ E2) as (t2 & Ht2 & ->).
    injection E as <-. exists [EvMakeRcMsg SLURM_ERROR "Bad offset"].
    split; [rewrite Ht2, app_nil_r; reflexivity |].
    right. reflexivity.
Qed.

Lemma frame_body_hang ls cfd L :
  2 <= L <= MAX_MSG_SIZE ->
  hangs (frame_body ls cfd L) (fun tr => frame_open (l_first ls) (frame_events tr)).
Proof.
  intros HL w w' E. unfold frame_body in E.
  unfold bind at 1 in E. cbn [emit] in E.
  set (w0 := set_trace (w_trace w ++ [EvXmalloc L]) w) in E.
  unfold bind at 1 in E.
  assert (Hshort : forall rc comment,
             frame_open (l_first ls) [EvXmalloc L; EvMakeRcMsg rc comment]).
  { intros rc comment. exists [EvSend (BufRcMsg rc comment) 0; EvFreeBuf; EvXfreeMsg].
    apply FramedShort. exact HL. }
  assert (Hnone : frame_open (l_first ls) [EvXmalloc L]).
  { exists [EvMakeRcMsg 0 ""; EvSend (BufRcMsg 0 "") 0; EvFreeBuf; EvXfreeMsg].
    apply FramedShort. exact HL. }
  destruct (read_payload_run cfd L w0) as [[o m] w1 | w1 | w1 |] eqn:E1;
    try discriminate.
  - destruct (silent_yields _ (read_payload_run_silent cfd L) _ _ _ E1)
      as (t1 & Ht1 & H1).
    pose proof (read_payload_run_length cfd L w0 o m w1 ltac:(lia) E1) as Hlen.
    destruct (frame_tail_hang ls L (o, m) _ _ E) as (t2 & Ht2 & H2).
    exists (EvXmalloc L :: t1 ++ t2). split.
    { rewrite Ht2, Ht1. unfold w0. cbn [w_trace set_trace].
      rewrite <- !app_assoc. reflexivity. }
    change (EvXmalloc L :: t1 ++ t2) with ([EvXmalloc L] ++ t1 ++ t2).
    rewrite !frame_events_app, H1. cbn [fst snd app] in *.
    change (frame_events [EvXmalloc L]) with [EvXmalloc L]. cbn [app].
    destruct H2 as [(_ & [-> | (rc & ->)]) | ->].
    + exact Hnone.
    + exists [EvSend BufNull 0; EvFreeBuf; EvXfreeMsg]. cbn [app].
      apply FramedRequest; [exact HL | exact Hlen | constructor].
    + apply Hshort.
  - destruct (silent_hangs _ (read_payload_run_silent cfd L) _ _ E1)
      as (t1 & Ht1 & H1).
    injection E as <-. exists (EvXmalloc L :: t1). split.
    { rewrite Ht1. unfold w0. cbn [w_trace set_trace].
      rewrite <- app_assoc. reflexivity. }
    change (EvXmalloc L :: t1) with ([EvXmalloc L] ++ t1).
    rewrite frame_events_app, H1. exact Hnone.
Qed.

Lemma read_frame_hang ls cfd :
  hangs (read_frame ls cfd) (fun tr => frame_open (l_first ls) (frame_events tr)).
Proof.
  intros w w' E. unfold read_frame in E. unfold bind at 1 in E.
  destruct (sys_read cfd 4 w) as [rd w1 | w1 | w1 |] eqn:E1; try discriminate.
  2:{ destruct (silent_hangs _ (sys_read_silent cfd 4) _ _ E1) as (t1 & Ht1 & H1).
      injection E as <-. exists t1. split; [exact Ht1 |].
      rewrite H1. apply frame_open_none. }
  destruct (silent_yields _ (sys_read_silent cfd 4) _ _ _ E1) as (t1 & Ht1 & H1).
  destruct (fst rd =? 0); [discriminate |].
  destruct (negb (fst rd =? 4)); [discriminate |].
  destruct (Z.ltb_spec (ntohl (snd rd)) 2) as [Hlo | Hlo]; cbn [orb] in E;
    [discriminate |].
  destruct (Z.gtb_spec (ntohl (snd rd)) MAX_MSG_SIZE) as [Hhi | Hhi];
    [discriminate |].
  destruct (frame_body_hang ls cfd (ntohl (snd rd)) ltac:(lia) _ _ E)
    as (t2 & Ht2 & H2).
  exists (t1 ++ t2). split; [rewrite Ht2, Ht1, app_assoc; reflexivity |].
  rewrite frame_events_app, H1. exact H2.
Qed.

Lemma service_body_hang ls :
  hangs (service_body ls) (fun tr => frame_open (l_first ls) (frame_events tr)).
Proof.
  intros w w' E. unfold service_body in E. unfold bind at 1 in E.
  destruct (_fd_readable (fd (conn (l_conn ls))) w) as [b w1 | w1 | w1 |] eqn:E1;
    try discriminate.
  - destruct (silent_yields _ (fd_readable_silent _) _ _ _ E1) as (t1 & Ht1 & H1).
    destruct b; cbn [negb] in E; [| discriminate].
    destruct (read_frame_hang ls _ _ _ E) as (t2 & Ht2 & H2).
    exists (t1 ++ t2). split; [rewrite Ht2, Ht1, app_assoc; reflexivity |].
    rewrite frame_events_app, H1. exact H2.
  - destruct (silent_hangs _ (fd_readable_silent _) _ _ E1) as (t1 & Ht1 & H1).
    injection E as <-. exists t1. split; [exact Ht1 |].
    rewrite H1. apply frame_open_none.
Qed.

Lemma service_loop_hang : forall fuel ls,
  hangs (service_loop fuel ls) (fun tr => frame_open (l_first ls) (frame_events tr)).
Proof.
  induction fuel as [|fuel IH]; intros ls w w' E; [discriminate |].
  cbn [service_loop] in E.
  destruct (l_fini ls) eqn:Hfini; cbn [negb] in E; [discriminate |].
  unfold bind in E.
  destruct (service_body ls w) as [r w1 | w1 | w1 |] eqn:E1; try discriminate.
  - destruct (service_body_frame ls _ _ _ E1) as (t1 & Ht1 & H1).
    destruct (snd r) eqn:Hs; [discriminate |].
    destruct H1 as [(Habs & _) | (_ & [(Hf & Hrest) | (Hf & Hfr)])]; [congruence | |].
    + destruct (IH _ _ _ E) as (t2 & Ht2 & ext & H2). rewrite Hf in H2.
      exists (t1 ++ t2). split; [rewrite Ht2, Ht1, app_assoc; reflexivity |].
      exists ext. rewrite frame_events_app, <- app_assoc. apply Hrest. exact H2.
    + destruct fuel as [|fuel']; [discriminate |].
      cbn [service_loop] in E. rewrite Hf in E. discriminate.
  - destruct (service_body_hang ls _ _ E1) as (t1 & Ht1 & H1).
    injection E as <-. exists t1. split; [exact Ht1 | exact H1].
Qed.

Lemma teardown_events_plain self conn_ptr c w :
  frame_events (teardown_events self conn_ptr c w) = [].
Proof.
  apply plain_frame_events. unfold teardown_events.
  rewrite !forallb_app.
  assert (Hfree : forallb plain (snd (_free_server_thread self (w_adm w))) = true).
  { rewrite free_server_thread_trace.
    apply forallb_forall. intros e He.
    cbn [In] in He. rewrite !in_app_iff in He. cbn [In] in He.
    destruct He as [<- | [[He | He] | [<- | [<- | []]]]]; try reflexivity.
    - apply count_down_log in He. destruct He as [-> _]. reflexivity.
    - apply forget_thread_log in He. subst e. reflexivity. }
  rewrite Hfree.
  destruct (negb (rem_port (conn c) =? 0)); cbn [andb];
    [destruct (w_shutdown w =? 0);
     [destruct (snd (registry_remove conn_ptr (w_registered w))) |] |];
    reflexivity.
Qed.

(** X10 -- Frames are handled whole.  In every run of
    [_service_connection] that returns, the allocations, calls of
    [proc_req], return-code messages, sends and frees form a sequence of
    frames: [xmalloc] of a size within [2, MAX_MSG_SIZE]; then either
    [proc_req] on a buffer of exactly that size, with [first] set for the
    first call of the connection and clear for every later one, or the
    return-code message, which ends the sequence; then one send, [free_buf]
    and [xfree].  A run that blocks for ever has produced a sequence that can
    be completed to such a one.  No run ends in [fatal] or lacks fuel. *)
Theorem frames_are_whole : forall self conn_ptr c w,
  match _service_connection self conn_ptr c w with
  | Ret _ w' =>
      exists tr, w_trace w' = w_trace w ++ tr /\ framed true (frame_events tr)
  | Hang w' =>
      exists tr ext,
        w_trace w' = w_trace w ++ tr /\ framed true (frame_events tr ++ ext)
  | Fatal _ | OutOfFuel => False
  end.
Proof.
  intros self conn_ptr c w. rewrite service_connection_unfold.
  set (w0 := set_trace (w_trace w ++ [EvLog LDebug2 "Opened connection"]) w).
  pose proof (service_loop_run_keeps (loop_start c) w0) as Hk.
  destruct (service_loop_run (loop_start c) w0) as [ls w1 | w1 | w1 |] eqn:E;
    try exact Hk.
  - destruct (service_loop_frame _ _ _ _ _ E) as (t1 & Ht1 & H1).
    destruct (teardown_result self conn_ptr (fd (conn c)) ls w1) as (w2 & E2 & Ht2 & _).
    rewrite E2.
    exists (EvLog LDebug2 "Opened connection"
              :: t1 ++ teardown_events self conn_ptr (l_conn ls) w1).
    split.
    { rewrite Ht2, Ht1. unfold w0. cbn [w_trace set_trace].
      rewrite <- !app_assoc. reflexivity. }
    change (EvLog LDebug2 "Opened connection" :: t1 ++ ?t)
      with ([EvLog LDebug2 "Opened connection"] ++ t1 ++ t).
    rewrite !frame_events_app, teardown_events_plain, app_nil_r.
    exact H1.
  - destruct (service_loop_hang _ _ _ _ E) as (t1 & Ht1 & ext & H1).
    exists (EvLog LDebug2 "Opened connection" :: t1), ext.
    split.
    { rewrite Ht1. unfold w0. cbn [w_trace set_trace].
      rewrite <- app_assoc. reflexivity. }
    change (EvLog LDebug2 "Opened connection" :: t1)
      with ([EvLog LDebug2 "Opened connection"] ++ t1).
    rewrite frame_events_app. exact H1.
Qed.

End Frames.

(** * Reads and polls *)

Section Announced.
Context {codes : slurm_codes}.

Lemma reads_announced_app t1 : forall ready t2,
  reads_announced ready (t1 ++ t2)
  = reads_announced ready t1 && reads_announced (announced_after ready t1) t2.
Proof.
  induction t1 as [|e t1 IH]; intros ready t2; [reflexivity |].
  cbn [app reads_announced announced_after]. rewrite IH, andb_assoc. reflexivity.
Qed.

Lemma announced_after_app t1 : forall ready t2,
  announced_after ready (t1 ++ t2) = announced_after (announced_after ready t1) t2.
Proof.
  induction t1 as [|e t1 IH]; intros ready t2; [reflexivity |].
  cbn [app announced_after]. apply IH.
Qed.

Lemma no_io_announced tr : forall ready,
  forallb no_io tr = true -> reads_announced ready tr = true.
Proof.
  induction tr as [|e tr IH]; intros ready H; [reflexivity |].
  cbn [forallb] in H. apply andb_prop in H. destruct H as [He Ht].
  cbn [reads_announced]. rewrite (IH _ Ht), andb_true_r.
  destruct e; try reflexivity. discriminate.
Qed.

(** What the trace says, read by read. *)
Lemma reads_announced_spec tr : forall ready,
  reads_announced ready tr = true ->
  forall tr1 cfd count n tr2,
    tr = tr1 ++ EvRead cfd count n :: tr2 ->
    (tr1 = [] /\ ready = Some cfd)
    \/ exists tr0 p, tr1 = tr0 ++ [EvPoll cfd p] /\ poll_ready p = true.
Proof.
  induction tr as [|e tr IH]; intros ready H tr1 cfd count n tr2 E.
  - destruct tr1; discriminate.
  - cbn [reads_announced] in H. apply andb_prop in H. destruct H as [He Ht].
    destruct tr1 as [|e1 tr1]; cbn [app] in E; injection E as -> ->.
    + left. split; [reflexivity |].
      destruct ready as [a|]; [| discriminate].
      apply Z.eqb_eq in He. congruence.
    + right. destruct (IH _ Ht tr1 cfd count n tr2 eq_refl)
        as [(-> & Ha) | (tr0 & p & -> & Hp)].
      * destruct e1; try discriminate. cbn [announced_by] in Ha.
        match type of Ha with
        | (if poll_ready ?q then _ else _) = _ =>
            destruct (poll_ready q) eqn:Hr; [| discriminate];
            injection Ha as ->; exists [], q; split; [reflexivity | exact Hr]
        end.
      * exists (e1 :: tr0), p. split; [reflexivity | exact Hp].
Qed.

(** *** Composition *)

Lemma announces_ret {A} (a : A) pre (post : A -> option Z -> Prop) :
  post a pre -> announces (ret a) pre post.
Proof.
  intros H w. exists []. split; [symmetry; apply app_nil_r |].
  split; [reflexivity | exact H].
Qed.

Lemma announces_bind {A B} (m : io A) (f : A -> io B) pre mid post :
  announces m pre mid ->
  (forall a r, mid a r -> announces (f a) r post) ->
  announces (bind m f) pre post.
Proof.
  intros Hm Hf w. unfold bind. specialize (Hm w).
  destruct (m w) as [a w1 | w1 | w1 |]; try exact Hm.
  destruct Hm as (t1 & E1 & H1 & Hmid).
  specialize (Hf a _ Hmid w1).
  destruct (f a w1) as [b w2 | w2 | w2 |]; try exact Hf.
  - destruct Hf as (t2 & E2 & H2 & Hpost).
    exists (t1 ++ t2). split; [rewrite E2, E1, app_assoc; reflexivity |].
    split; [rewrite reads_announced_app, H1, H2; reflexivity |].
    rewrite announced_after_app. exact Hpost.
  - destruct Hf as (t2 & E2 & H2).
    exists (t1 ++ t2). split; [rewrite E2, E1, app_assoc; reflexivity |].
    rewrite reads_announced_app, H1, H2. reflexivity.
Qed.

Lemma announces_weaken {A} (m : io A) pre (post post' : A -> option Z -> Prop) :
  announces m pre post -> (forall a r, post a r -> post' a r) ->
  announces m pre post'.
Proof.
  intros Hm Hp w. specialize (Hm w).
  destruct (m w) as [a w1 | w1 | w1 |]; try exact Hm.
  destruct Hm as (t1 & E1 & H1 & H). exists t1. auto.
Qed.

Lemma announces_emit e pre :
  is_read e = false -> announces (emit e) pre (fun _ _ => True).
Proof.
  intros He w. exists [e]. split; [reflexivity |]. split; [| exact I].
  cbn [reads_announced]. destruct e; try reflexivity. discriminate.
Qed.

(** A computation that neither polls nor reads. *)
Lemma keeps_announces {A} P (m : io A) pre :
  (forall e, P e = true -> no_io e = true) ->
  keeps P m -> announces m pre (fun _ _ => True).
Proof.
  intros HP Hk w. specialize (Hk w).
  assert (H : forall w', evolves P w w' ->
                         exists tr, w_trace w' = w_trace w ++ tr
                                    /\ reads_announced pre tr = true).
  { intros w' Hev. destruct (ev_trace _ _ _ Hev) as (tr & Et & Ht).
    exists tr. split; [exact Et |]. apply no_io_announced.
    apply forallb_forall. intros e He. apply HP.
    rewrite forallb_forall in Ht. exact (Ht e He). }
  destruct (m w) as [a w1 | w1 | w1 |]; [| | exact Hk | exact I].
  - destruct (H _ Hk) as (tr & Et & Hr). exists tr. auto.
  - apply H. exact Hk.
Qed.

(** *** The calls *)

Lemma fd_readable_from_announces cfd : forall polls w pre,
  match fd_readable_from cfd polls w with
  | Ret b w' =>
      exists tr, w_trace w' = w_trace w ++ tr
                 /\ reads_announced pre tr = true
                 /\ (b = true -> announced_after pre tr = Some cfd)
  | Hang w' =>
      exists tr, w_trace w' = w_trace w ++ tr /\ reads_announced pre tr = true
  | Fatal _ | OutOfFuel => False
  end.
Proof.
  induction polls as [|p rest IH]; intros w pre.
  - cbn [fd_readable_from]. exists []. split; [symmetry; apply app_nil_r | reflexivity].
  - cbn [fd_readable_from].
    set (w1 := set_trace (w_trace w ++ [EvPoll cfd p]) (set_polls rest w)).
    assert (Hno : forall l m,
               exists tr,
                 w_trace (set_trace (w_trace w1 ++ [EvLog l m]) w1) = w_trace w ++ tr
                 /\ reads_announced pre tr = true
                 /\ (false = true -> announced_after pre tr = Some cfd)).
    { intros l m. exists [EvPoll cfd p; EvLog l m].
      split; [unfold w1; cbn [w_trace set_trace]; rewrite <- app_assoc; reflexivity |].
      split; [reflexivity | discriminate]. }
    assert (Hone : forall b : bool,
               (b = true -> poll_ready p = true) ->
               exists tr,
                 w_trace w1 = w_trace w ++ tr
                 /\ reads_announced pre tr = true
                 /\ (b = true -> announced_after pre tr = Some cfd)).
    { intros b Hb. exists [EvPoll cfd p]. split; [reflexivity |].
      split; [reflexivity |]. intros ->. cbn [announced_after announced_by].
      rewrite Hb; reflexivity. }
    unfold poll_ready in Hone.
    destruct (p_shutdown p =? 0); cbn [negb andb] in *;
      [| apply Hone; discriminate].
    destruct (p_rc p =? -1); cbn [negb andb] in *.
    { destruct ((p_errno p =? EINTR) || (p_errno p =? EAGAIN)); [| apply Hno].
      specialize (IH w1 (announced_by (EvPoll cfd p))).
      destruct (fd_readable_from cfd rest w1) as [b w2 | w2 | w2 |]; try exact IH.
      - destruct IH as (tr & Et & Hr & Ha).
        exists (EvPoll cfd p :: tr).
        split; [rewrite Et; unfold w1; cbn [w_trace set_trace];
                rewrite <- app_assoc; reflexivity |].
        split; [exact Hr | exact Ha].
      - destruct IH as (tr & Et & Hr).
        exists (EvPoll cfd p :: tr).
        split; [rewrite Et; unfold w1; cbn [w_trace set_trace];
                rewrite <- app_assoc; reflexivity | exact Hr]. }
    destruct (Z.land (p_revents p) POLLHUP =? 0),
      (Z.land (p_revents p) POLLIN =? 0),
      (Z.land (p_revents p) POLLNVAL =? 0),
      (Z.land (p_revents p) POLLERR =? 0);
      cbn [negb andb] in *;
      first [ apply Hno | apply Hone; reflexivity ].
Qed.

Lemma fd_readable_announces cfd pre :
  announces (_fd_readable cfd) pre (fun b r => b = true -> r = Some cfd).
Proof.
  intros w. unfold _fd_readable.
  pose proof (fd_readable_from_announces cfd (w_polls w) w pre) as H.
  destruct (fd_readable_from cfd (w_polls w) w); [exact H | exact H | exact H | exact I].
Qed.

Lemma sys_read_announces cfd count :
  announces (sys_read cfd count) (Some cfd) (fun _ _ => True).
Proof.
  intros w. unfold sys_read.
  destruct (w_stream w) as [|[bs | | e] rest];
    (eexists [_]; split; [reflexivity |]; split; [| exact I];
     cbn [reads_announced]; rewrite Z.eqb_refl; reflexivity).
Qed.

Lemma read_payload_announces cfd L : forall fuel offset msg pre,
  announces (read_payload fuel cfd L offset msg) pre (fun _ _ => True).
Proof.
  induction fuel as [|fuel IH]; intros offset msg pre; [intros w; exact I |].
  cbn [read_payload].
  destruct (L >? offset); [| apply announces_ret; exact I].
  eapply announces_bind; [apply fd_readable_announces |].
  intros b r Hb. destruct b; cbn [negb]; [| apply announces_ret; exact I].
  rewrite (Hb eq_refl).
  eapply announces_bind; [apply sys_read_announces |].
  intros rd r' _. destruct (fst rd <=? 0); [| apply IH].
  eapply announces_bind; [apply announces_emit; reflexivity |].
  intros _ r'' _. apply announces_ret. exact I.
Qed.

Lemma read_payload_run_announces cfd L pre :
  announces (read_payload_run cfd L) pre (fun _ _ => True).
Proof.
  intros w. unfold read_payload_run.
  exact (read_payload_announces cfd L _ _ _ pre w).
Qed.

Lemma frame_body_announces ls cfd L pre :
  announces (frame_body ls cfd L) pre (fun _ _ => True).
Proof.
  unfold frame_body.
  eapply announces_bind; [apply announces_emit; reflexivity |].
  intros _ r _.
  eapply announces_bind; [apply read_payload_run_announces |].
  intros po r' _.
  apply (keeps_announces reply_event);
    [apply reply_event_no_io | apply frame_tail_replies].
Qed.

Lemma read_frame_announces ls cfd :
  announces (read_frame ls cfd) (Some cfd) (fun _ _ => True).
Proof.
  unfold read_frame.
  eapply announces_bind; [apply sys_read_announces |].
  intros rd r _.
  destruct (fst rd =? 0); [apply announces_ret; exact I |].
  destruct (negb (fst rd =? 4)).
  { eapply announces_bind; [apply announces_emit; reflexivity |].
    intros _ r' _. apply announces_ret. exact I. }
  destruct ((ntohl (snd rd) <? 2) || (ntohl (snd rd) >? MAX_MSG_SIZE)).
  { eapply announces_bind; [apply announces_emit; reflexivity |].
    intros _ r' _. apply announces_ret. exact I. }
  apply frame_body_announces.
Qed.

Lemma service_body_announces ls pre :
  announces (service_body ls) pre (fun _ _ => True).
Proof.
  unfold service_body.
  eapply announces_bind; [apply fd_readable_announces |].
  intros b r Hb. destruct b; cbn [negb]; [| apply announces_ret; exact I].
  rewrite (Hb eq_refl). apply read_frame_announces.
Qed.

Lemma service_loop_announces : forall fuel ls pre,
  announces (service_loop fuel ls) pre (fun _ _ => True).
Proof.
  induction fuel as [|fuel IH]; intros ls pre; [intros w; exact I |].
  cbn [service_loop].
  destruct (negb (l_fini ls)); [| apply announces_ret; exact I].
  eapply announces_bind; [apply service_body_announces |].
  intros r a _. destruct (snd r); [apply announces_ret; exact I | apply IH].
Qed.

Lemma teardown_announces self conn_ptr cfd ls pre :
  announces (teardown self conn_ptr cfd ls) pre (fun _ _ => True).
Proof.
  intros w. pose proof (teardown_passive self conn_ptr cfd ls w) as H.
  destruct (teardown self conn_ptr cfd ls w) as [a w1 | w1 | w1 |];
    [| | exact H | exact I].
  - destruct H as (tr & Et & Hn & _). exists tr.
    split; [exact Et |]. split; [apply no_io_announced; exact Hn | exact I].
  - destruct H as (tr & Et & Hn). exists tr.
    split; [exact Et | apply no_io_announced; exact Hn].
Qed.

Lemma service_connection_announces self conn_ptr c :
  announces (_service_connection self conn_ptr c) None (fun _ _ => True).
Proof.
  unfold _service_connection.
  eapply announces_bind; [apply announces_emit; reflexivity |].
  intros _ r _.
  eapply announces_bind;
    [intros w; unfold service_loop_run;
     exact (service_loop_announces _ (loop_start c) r w) |].
  intros ls r' _. apply teardown_announces.
Qed.

(** X11 -- No read without an announcement.  In every run of
    [_service_connection], returning or blocked, each [read] comes right
    after a [poll] on the same descriptor that reported input with the
    shutdown flag clear: the worker never reads on a guess, and never twice
    on one answer of [poll]. *)
Theorem reads_follow_polls : forall self conn_ptr c w,
  match _service_connection self conn_ptr c w with
  | Ret _ w' | Hang w' =>
      exists tr,
        w_trace w' = w_trace w ++ tr
        /\ forall tr1 cfd count n tr2,
             tr = tr1 ++ EvRead cfd count n :: tr2 ->
             exists tr0 p, tr1 = tr0 ++ [EvPoll cfd p] /\ poll_ready p = true
  | Fatal _ | OutOfFuel => False
  end.
Proof.
  intros self conn_ptr c w.
  pose proof (service_connection_announces self conn_ptr c w) as H.
  assert (Hspec : forall tr,
             reads_announced None tr = true ->
             forall tr1 cfd count n tr2,
               tr = tr1 ++ EvRead cfd count n :: tr2 ->
               exists tr0 p, tr1 = tr0 ++ [EvPoll cfd p] /\ poll_ready p = true).
  { intros tr Hr tr1 cfd count n tr2 E.
    destruct (reads_announced_spec tr None Hr tr1 cfd count n tr2 E)
      as [(_ & Habs) | H']; [discriminate | exact H']. }
  rewrite service_connection_unfold in H |- *.
  pose proof (service_loop_run_keeps (loop_start c)
                (set_trace (w_trace w ++ [EvLog LDebug2 "Opened connection"]) w)) as Hk.
  destruct (service_loop_run (loop_start c) _) as [ls w1 | w1 | w1 |].
  - destruct (teardown_result self conn_ptr (fd (conn c)) ls w1) as (w2 & E & _).
    rewrite E in H |- *.
    destruct H as (tr & Et & Hr & _). exists tr. split; [exact Et |].
    apply Hspec. exact Hr.
  - destruct H as (tr & Et & Hr). exists tr. split; [exact Et |].
    apply Hspec. exact Hr.
  - exact Hk.
  - exact Hk.
Qed.

End Announced.

(** * The admission after shutdown *)

Section Drain.
Context {codes : slurm_codes}.

Lemma sys_step_down s o s' :
  shutdown_time (s_adm s) <> 0 ->
  stays_down o = true ->
  sys_step s o = SysNext s' ->
  thread_count (s_adm s') <= thread_count (s_adm s)
  /\ shutdown_time (s_adm s') <> 0
  /\ pending (s_pc s') <= pending (s_pc s)
  /\ (forall i, s_pc s' = MgrGranted i -> s_pc s = MgrGranted i).
Proof.
  destruct s as [adm pc]. cbn [s_adm s_pc]. intros Hs Ho.
  assert (Hfree : forall tid,
             thread_count (fst (_free_server_thread tid adm)) <= thread_count adm
             /\ shutdown_time (fst (_free_server_thread tid adm)) <> 0).
  { intros tid. rewrite free_server_thread_count.
    rewrite (proj2 (free_server_thread_frame tid adm)).
    split; [destruct (thread_count adm >? 0); lia | exact Hs]. }
  destruct o as [self now p | aret errno | cret tid | tid | t];
    unfold sys_step; cbn [s_adm s_pc].
  - destruct pc; try discriminate.
    rewrite pass_shutdown by exact Hs. change (-1 >=? 0) with false. cbv iota.
    intros [= <-]. cbn [s_adm s_pc pending].
    split; [lia |]. split; [exact Hs |]. split; [lia | discriminate].
  - destruct pc as [| i | i fd0 retry |]; try discriminate.
    destruct (aret =? SLURM_SOCKET_ERROR); intros [= <-]; cbn [s_adm s_pc pending].
    + destruct (Hfree 0) as [H1 H2].
      split; [exact H1 |]. split; [exact H2 |]. split; [lia | discriminate].
    + split; [lia |]. split; [exact Hs |]. split; [lia | discriminate].
  - destruct pc as [| i | i fd0 retry |]; try discriminate.
    destruct (negb (cret =? 0)); [destruct (retry >? 0) |];
      intros [= <-]; cbn [s_adm s_pc pending];
      (split; [cbn; lia |]); (split; [exact Hs |]); (split; [lia | discriminate]).
  - destruct (negb (tid =? 0) && in_table tid (slave_thread_id adm)); [| discriminate].
    intros [= <-]. cbn [s_adm s_pc].
    destruct (Hfree tid) as [H1 H2].
    split; [exact H1 |]. split; [exact H2 |]. split; [lia | auto].
  - intros [= <-]. cbn [s_adm s_pc set_shutdown thread_count shutdown_time].
    cbn [stays_down] in Ho.
    split; [lia |]. split; [| split; [lia | auto]].
    destruct (Z.eqb_spec t 0); [discriminate | assumption].
Qed.

(** X12 -- Shutdown stops the admission.  Once [shutdown_time] is set,
    and as long as it is not cleared again, whatever the manager and the
    workers do next, [thread_count] does not grow and no slot is granted:
    the manager holds a slot afterwards only if it held one before, and is
    about to call [accept] on slot [i] only if it was so all along. *)
Theorem shutdown_stops_admission : forall ops s s',
  shutdown_time (s_adm s) <> 0 ->
  forallb stays_down ops = true ->
  sys_run s ops = SysNext s' ->
  thread_count (s_adm s') <= thread_count (s_adm s)
  /\ shutdown_time (s_adm s') <> 0
  /\ pending (s_pc s') <= pending (s_pc s)
  /\ (forall i, s_pc s' = MgrGranted i -> s_pc s = MgrGranted i).
Proof.
  induction ops as [|o ops IH]; intros s s' Hs Hops Hrun.
  - injection Hrun as <-. split; [lia |]. split; [exact Hs |]. split; [lia | auto].
  - cbn [forallb] in Hops. apply andb_prop in Hops. destruct Hops as [Ho Hops].
    cbn [sys_run] in Hrun.
    destruct (sys_step s o) as [s1 | |] eqn:E1; try discriminate.
    destruct (sys_step_down s o s1 Hs Ho E1) as (Hc1 & Hs1 & Hn1 & Hp1).
    destruct (IH s1 s' Hs1 Hops Hrun) as (Hc2 & Hs2 & Hn2 & Hp2).
    split; [lia |]. split; [exact Hs2 |]. split; [lia |].
    intros i Hi. apply Hp1, Hp2. exact Hi.
Qed.

End Drain.

Section DrainSamples.
#[local] Existing Instance release_codes.

Lemma shutdown_stops_admission_witness :
  exists s',
    sys_run (Sys (set_shutdown 1700000000 (set_count 1 (set_slaves (<[0%nat := 7]> (slave_thread_id init_state)) init_state))) MgrIdle)
      [SysRelease 7; SysAcquire 1 1700000001 true]
    = SysNext s'
    /\ thread_count (s_adm s') <= 1
    /\ s_pc s' = MgrLeft.
Proof.
  eexists. split; [vm_compute; reflexivity |].
  split; [| reflexivity].
  apply (proj1 (shutdown_stops_admission
                  [SysRelease 7; SysAcquire 1 1700000001 true]
                  (Sys (set_shutdown 1700000000
                          (set_count 1 (set_slaves (<[0%nat := 7]> (slave_thread_id init_state))
                                          init_state))) MgrIdle)
                  _ ltac:(discriminate) eq_refl eq_refl)).
Defined.

End DrainSamples.

(** * The manager's registration *)

Section Registration.

Lemma wake_order st :
  signalled (rpc_mgr_wake st)
  = (if master_thread_id st =? 0 then [] else [master_thread_id st])
      ++ recorded (slave_thread_id st).
Proof.
  unfold rpc_mgr_wake, recorded.
  rewrite !signalled_app, kill_slaves_recorded.
  destruct (master_thread_id st =? 0); cbn [negb];
    cbn [signalled omap app]; rewrite app_nil_r; reflexivity.
Qed.

Lemma pass_master self now p st :
  match wait_for_server_thread_pass self now p st with
  | WaitReturn _ st' _ | WaitFatal st' _ | WaitBlocked _ st' _ =>
      master_thread_id st' = master_thread_id st
  end.
Proof.
  unfold wait_for_server_thread_pass.
  destruct (negb (shutdown_time st =? 0)); [reflexivity |].
  destruct (thread_count st <? MAX_THREAD_COUNT).
  - cbv zeta. destruct (find_free_slot _ _ _ =? -1); reflexivity.
  - destruct p; [destruct (now - last_print_time st >? 2) |]; reflexivity.
Qed.

Lemma step_master st o st' :
  is_register o = false ->
  step st o = Some st' ->
  master_thread_id st' = master_thread_id st.
Proof.
  destruct o as [self | self now p | i tid | tid | t];
    cbn [is_register step]; intros Hr E; try discriminate.
  - pose proof (pass_master self now p st) as H.
    destruct (wait_for_server_thread_pass self now p st); try discriminate;
      injection E as <-; exact H.
  - injection E as <-. reflexivity.
  - injection E as <-. apply free_server_thread_frame.
  - injection E as <-. reflexivity.
Qed.

(** X13 -- The manager stays registered.  Once [rpc_mgr] has stored its
    identity in [master_thread_id], nothing in the file writes that variable
    again: after the registration and any sequence of admissions, thread
    creations, releases and changes of [shutdown_time], [master_thread_id] is
    still the manager, whatever it held before, and [rpc_mgr_wake] signals
    the manager, first, and then every recorded worker. *)
Theorem manager_stays_registered : forall self st ops st',
  self <> 0 ->
  forallb (fun o => negb (is_register o)) ops = true ->
  run st (OpRegister self :: ops) = Some st' ->
  master_thread_id st' = self
  /\ signalled (rpc_mgr_wake st') = self :: recorded (slave_thread_id st').
Proof.
  intros self st ops st' Hself Hops Hrun.
  cbn [run step] in Hrun.
  assert (Hm : master_thread_id st' = self).
  { change self with (master_thread_id (set_master self st)).
    revert Hops Hrun. generalize (set_master self st). clear st.
    induction ops as [|o ops IH]; intros st Hops Hrun.
    - injection Hrun as <-. reflexivity.
    - cbn [forallb] in Hops. apply andb_prop in Hops. destruct Hops as [Ho Hops].
      cbn [run] in Hrun.
      destruct (step st o) as [st1|] eqn:E1; [| discriminate].
      rewrite (IH st1 Hops Hrun).
      apply (step_master st o st1); [| exact E1].
      destruct (is_register o); [discriminate | reflexivity]. }
  split; [exact Hm |].
  rewrite wake_order, Hm.
  destruct (Z.eqb_spec self 0); [contradiction | reflexivity].
Qed.

End Registration.

Section RegistrationSamples.

Lemma manager_stays_registered_witness :
  exists st',
    run (set_master 42 init_state)
      [OpRegister 1; OpAcquire 1 0 true; OpCreated 0 7; OpShutdown 1700000000]
    = Some st'
    /\ master_thread_id st' = 1
    /\ signalled (rpc_mgr_wake st') = 1 :: recorded (slave_thread_id st').
Proof.
  eexists. split; [vm_compute; reflexivity |].
  apply (manager_stays_registered 1 (set_master 42 init_state)
           [OpAcquire 1 0 true; OpCreated 0 7; OpShutdown 1700000000] _
           ltac:(discriminate) eq_refl eq_refl).
Defined.

End RegistrationSamples.
